(** * mcp-sap-notes: the Authenticator and the Fallback Retrieval Engine

    A shallow embedding of [src/auth.ts] (class [SapAuthenticator]) and of
    [src/sap-notes-api.ts] (class [SapNotesApiClient]), and the properties
    of the specification proved or refuted on it.

    Conventions.
    - A JavaScript string is a [string]: one [ascii] per UTF-16 code unit,
      for code units below 256.
    - A JavaScript value (anything [JSON.parse] or a DOM query can hand to
      the code) is a [JS.value]; [undefined] is [JS.VUndef].
    - The browser, the network, the disk and the clock are external: what
      they answer is an explicit input (a record of observations or an
      event of a trace), never computed.
    - A thrown exception is the [Throw] case of [outcome]. *)

From Stdlib Require Import ZArith String Ascii List Bool Lia.
From Stdlib Require Import Floats.SpecFloat.
From stdpp Require Import base option strings list gmap pretty.

Set Warnings "-register-all".

Local Open Scope string_scope.

(** ** JavaScript strings *)

Module Str.

(** [ECMAScript WhiteSpace] and [LineTerminator] below code unit 256:
    TAB, LF, VT, FF, CR, SPACE, NBSP. This is what [\s] and [trim] use. *)
Definition is_space (c : ascii) : bool :=
  let n := nat_of_ascii c in
  ((9 <=? n)%nat && (n <=? 13)%nat) || (n =? 32)%nat || (n =? 160)%nat.

Definition is_digit (c : ascii) : bool :=
  let n := nat_of_ascii c in (48 <=? n)%nat && (n <=? 57)%nat.

Definition is_upper (c : ascii) : bool :=
  let n := nat_of_ascii c in (65 <=? n)%nat && (n <=? 90)%nat.

Definition is_lower (c : ascii) : bool :=
  let n := nat_of_ascii c in (97 <=? n)%nat && (n <=? 122)%nat.

(** Every code unit is a decimal digit. *)
Fixpoint all_digits (s : string) : bool :=
  match s with
  | EmptyString => true
  | String c t => is_digit c && all_digits t
  end.

(** [String.prototype.toLowerCase] on one ASCII code unit. *)
Definition lower (c : ascii) : ascii :=
  if is_upper c then ascii_of_nat (nat_of_ascii c + 32) else c.

(** [s.startsWith(p)] *)
Definition startsWith (s p : string) : bool := String.prefix p s.

(** [s.includes(sub)] *)
Fixpoint includes (s sub : string) : bool :=
  String.prefix sub s ||
  match s with
  | EmptyString => false
  | String _ t => includes t sub
  end.

Fixpoint rev (s : string) : string :=
  match s with
  | EmptyString => EmptyString
  | String c t => rev t ++ String c EmptyString
  end.

(** [s.endsWith(p)] *)
Definition endsWith (s p : string) : bool := String.prefix (rev p) (rev s).

Fixpoint trimStart (s : string) : string :=
  match s with
  | EmptyString => EmptyString
  | String c t => if is_space c then trimStart t else s
  end.

(** [s.trim()] *)
Definition trim (s : string) : string := rev (trimStart (rev (trimStart s))).

(** [s.substring(i)] for [i] within the string. *)
Fixpoint drop (n : nat) (s : string) : string :=
  match n, s with
  | O, _ => s
  | S _, EmptyString => EmptyString
  | S m, String _ t => drop m t
  end.

(** [s.substring(0, n)] *)
Fixpoint take (n : nat) (s : string) : string :=
  match n, s with
  | O, _ => EmptyString
  | S _, EmptyString => EmptyString
  | S m, String c t => String c (take m t)
  end.

End Str.

(** ** Regular expressions

    The patterns of the source are written as terms of [regex] and run by a
    backtracking matcher that follows the ECMAScript semantics of the
    constructs the source uses: sequence, alternation, greedy and lazy
    quantifiers with bounds, capturing groups, [^] and [$] without the [m]
    flag. The [i] flag is expressed in the character predicates. *)

Module Regex.

Inductive regex :=
| Eps
| Chr (p : ascii -> bool)
| Seq (r1 r2 : regex)
| Alt (r1 r2 : regex)
| Rep (greedy : bool) (lo : nat) (hi : option nat) (r : regex)
| Group (r : regex)
| Bol
| Eol.

(** Position in the subject, rest of the subject, captures closed so far. *)
Definition cont (R : Type) := nat -> string -> list string -> option R.

Definition dec_hi (hi : option nat) : option nat :=
  match hi with Some h => Some (Nat.pred h) | None => None end.

Section Matcher.
Context {R : Type}.

(** One quantified sub-pattern [step], [fuel] bounding the iterations.
    An iteration beyond the lower bound that consumes nothing is refused,
    as RepeatMatcher does. *)
Fixpoint rep_loop (step : nat -> string -> list string -> cont R -> option R)
    (greedy : bool) (fuel lo : nat) (hi : option nat)
    (pos : nat) (s : string) (caps : list string) (k : cont R) : option R :=
  match fuel with
  | O => match lo with O => k pos s caps | S _ => None end
  | S fuel' =>
    match lo with
    | S lo' =>
        step pos s caps (fun pos' s' caps' =>
          rep_loop step greedy fuel' lo' (dec_hi hi) pos' s' caps' k)
    | O =>
      match hi with
      | Some O => k pos s caps
      | _ =>
        let again :=
          step pos s caps (fun pos' s' caps' =>
            if (String.length s' <? String.length s)%nat
            then rep_loop step greedy fuel' O (dec_hi hi) pos' s' caps' k
            else None) in
        if greedy
        then match again with Some x => Some x | None => k pos s caps end
        else match k pos s caps with Some x => Some x | None => again end
      end
    end
  end.

Fixpoint run (r : regex) (pos : nat) (s : string) (caps : list string)
    (k : cont R) : option R :=
  match r with
  | Eps => k pos s caps
  | Chr p =>
    match s with
    | String c t => if p c then k (S pos) t caps else None
    | EmptyString => None
    end
  | Seq r1 r2 => run r1 pos s caps (fun pos' s' caps' => run r2 pos' s' caps' k)
  | Alt r1 r2 =>
    match run r1 pos s caps k with
    | Some x => Some x
    | None => run r2 pos s caps k
    end
  | Rep greedy lo hi r' =>
    rep_loop (run r') greedy (lo + String.length s) lo hi pos s caps k
  | Group r' =>
    run r' pos s caps (fun pos' s' caps' =>
      k pos' s' (caps' ++ [Str.take (pos' - pos) s])%list)
  | Bol => if (pos =? 0)%nat then k pos s caps else None
  | Eol => match s with EmptyString => k pos s caps | _ => None end
  end.

End Matcher.

(** The result of [RegExp.prototype.exec]: where the match starts and ends
    and what the groups captured. *)
Record hit := { start : nat; stop : nat; groups : list string }.

Fixpoint search (r : regex) (fuel pos : nat) (s : string) : option hit :=
  match run r pos s [] (fun e _ caps => Some {| start := pos; stop := e; groups := caps |}) with
  | Some h => Some h
  | None =>
    match fuel, s with
    | S fuel', String _ t => search r fuel' (S pos) t
    | _, _ => None
    end
  end.

(** [r.exec(s)], leftmost match. *)
Definition exec (r : regex) (s : string) : option hit :=
  search r (String.length s) 0 s.

(** [r.test(s)] *)
Definition test (r : regex) (s : string) : bool :=
  match exec r s with Some _ => true | None => false end.

(** [match[0]] *)
Definition whole (s : string) (h : hit) : string :=
  Str.take (stop h - start h) (Str.drop (start h) s).

(** [match[i]] for [i >= 1]; a group that did not take part is [None]. *)
Definition group (h : hit) (i : nat) : option string :=
  nth_error (groups h) (Nat.pred i).

(** [s.replace(r, "")] without the [g] flag: the first match is removed. *)
Definition remove_first (r : regex) (s : string) : string :=
  match exec r s with
  | Some h => Str.take (start h) s ++ Str.drop (stop h) s
  | None => s
  end.

(** Pattern building blocks. *)
Definition chr (c : ascii) : regex := Chr (Ascii.eqb c).
Definition chr_i (c : ascii) : regex :=
  Chr (fun x => Ascii.eqb (Str.lower x) (Str.lower c)).

Fixpoint lit (s : string) : regex :=
  match s with
  | EmptyString => Eps
  | String c t => Seq (chr c) (lit t)
  end.

(** A literal under the [i] flag. *)
Fixpoint lit_i (s : string) : regex :=
  match s with
  | EmptyString => Eps
  | String c t => Seq (chr_i c) (lit_i t)
  end.

Definition digit : regex := Chr Str.is_digit.
Definition space : regex := Chr Str.is_space.
Definition any_char : regex := Chr (fun _ => true).
(** [.] without the [s] flag: anything but a line terminator. *)
Definition dot : regex :=
  Chr (fun c => negb (Ascii.eqb c "010" || Ascii.eqb c "013")).
Definition star (r : regex) : regex := Rep true 0 None r.
Definition plus (r : regex) : regex := Rep true 1 None r.
Definition opt (r : regex) : regex := Rep true 0 (Some 1) r.
Definition lazy_star (r : regex) : regex := Rep false 0 None r.

Fixpoint seqs (rs : list regex) : regex :=
  match rs with
  | [] => Eps
  | r :: rest => Seq r (seqs rest)
  end.

End Regex.

(** ** JavaScript values and exceptions *)

Module JS.

Inductive value :=
| VUndef
| VNull
| VBool (b : bool)
| VNum (f : spec_float)
| VStr (s : string)
| VArr (items : list value)
| VObj (props : list (string * value)).

(** ToBoolean *)
Definition truthy (v : value) : bool :=
  match v with
  | VUndef | VNull => false
  | VBool b => b
  | VNum (S754_zero _) | VNum S754_nan => false
  | VNum _ => true
  | VStr EmptyString => false
  | VStr _ => true
  | VArr _ | VObj _ => true
  end.

(** [a || b] *)
Definition or (a b : value) : value := if truthy a then a else b.

Fixpoint assoc (props : list (string * value)) (f : string) : value :=
  match props with
  | [] => VUndef
  | (k, v) :: rest => if String.eqb k f then v else assoc rest f
  end.

(** A thrown exception, by its message. *)
Inductive outcome (A : Type) :=
| Ok (a : A)
| Throw (msg : string).
Arguments Ok {A} a.
Arguments Throw {A} msg.

Definition bind {A B} (k : A -> outcome B) (m : outcome A) : outcome B :=
  match m with
  | Ok a => k a
  | Throw e => Throw e
  end.

Definition fmap {A B} (f : A -> B) (m : outcome A) : outcome B :=
  match m with
  | Ok a => Ok (f a)
  | Throw e => Throw e
  end.

(** [try { m } catch (e) { h(e.message) }] *)
Definition catch {A} (m : outcome A) (h : string -> outcome A) : outcome A :=
  match m with
  | Ok a => Ok a
  | Throw e => h e
  end.

(** The message of the TypeError the runtime raises; its text is never
    inspected by the code, only passed on. *)
Definition type_error : string := "TypeError".

(** [o.f]. Reading a property of [undefined] or [null] throws. The
    property names the source reads are not defined on strings, numbers,
    booleans or arrays, so they read as [undefined] there. *)
Definition get (o : value) (f : string) : outcome value :=
  match o with
  | VUndef | VNull => Throw type_error
  | VObj props => Ok (assoc props f)
  | _ => Ok VUndef
  end.

(** [o?.f] *)
Definition get_opt (o : value) (f : string) : value :=
  match o with
  | VObj props => assoc props f
  | _ => VUndef
  end.

(** [o.f] where [o] is known to be truthy, so the read cannot throw. *)
Definition field (o : value) (f : string) : value := get_opt o f.

Definition of_option (o : option string) : value :=
  match o with Some s => VStr s | None => VUndef end.

End JS.

#[global] Instance outcome_ret : MRet JS.outcome := @JS.Ok.
#[global] Instance outcome_bind : MBind JS.outcome := @JS.bind.
#[global] Instance outcome_fmap : FMap JS.outcome := @JS.fmap.

Infix "|||" := JS.or (at level 50, left associativity).

(** ** The retrieval engine: [src/sap-notes-api.ts] *)

Module Notes.
Import JS Regex.

Record SoftwareComponentVersion := {
  scv_component : string;
  scv_version : string;
  scv_supportPackage : value }.

(** [interface SapNoteDetail]. The fields are filled from parsed JSON, so
    at run time each holds whatever value the response carried; an absent
    optional field is [VUndef]. *)
Record SapNoteDetail := {
  id : value;
  title : value;
  summary : value;
  content : value;
  language : value;
  releaseDate : value;
  component : value;
  priority : value;
  category : value;
  url : value;
  cvssScore : value;
  cvssVector : value;
  affectedVersions : option (list SoftwareComponentVersion) }.

(** [`https://launchpad.support.sap.com/#/notes/${noteId}`] *)
Definition launchpad_url (noteId : string) : string :=
  "https://launchpad.support.sap.com/#/notes/" ++ noteId.

(** *** Patterns *)

(** Source pattern: "/^\d{6,8}$/" *)
Definition re_note_id : regex := seqs [Bol; Rep true 6 (Some 8) digit; Eol].

(** Source pattern: "\d+\.?\d*" *)
Definition number : regex := seqs [plus digit; opt (chr "."); star digit].

Definition space_or_colon : regex :=
  Chr (fun c => Str.is_space c || Ascii.eqb c ":").

(** The score pattern of [extractCvssFromContent], flag [i]:
    "CVSS(?:\s+Base\s+Score)?[\s:]+" followed by group 1, [number]. *)
Definition re_cvss_score : regex :=
  seqs [lit_i "CVSS";
        opt (seqs [plus space; lit_i "Base"; plus space; lit_i "Score"]);
        plus space_or_colon;
        Group number].

(** Source pattern: "/CVSS:3\.\d\/[A-Z:\/]+/i" *)
Definition re_cvss_vector : regex :=
  seqs [lit_i "CVSS:3."; digit; chr "/";
        plus (Chr (fun c => Str.is_upper c || Str.is_lower c
                            || Ascii.eqb c ":" || Ascii.eqb c "/"))].

(** Source pattern: "/^([A-Z0-9_]+)\s+(\d+)$/" *)
Definition re_component_version : regex :=
  seqs [Bol;
        Group (plus (Chr (fun c => Str.is_upper c || Str.is_digit c
                                   || Ascii.eqb c "_")));
        plus space;
        Group (plus digit);
        Eol].

(** The pattern of score strategies 1 and 2: group 1 is [number]. *)
Definition re_number : regex := Group number.

(** The pattern of score strategy 3, flag [i]:
    "CVSS\s*v?3\.0\s*Base Score\s*[:\s]+", group 1 [number], "\s*\/\s*10". *)
Definition re_base_score_of_10 : regex :=
  seqs [lit_i "CVSS"; star space; opt (chr_i "v"); lit "3.0"; star space;
        lit_i "Base Score"; star space; plus space_or_colon;
        Group number; star space; chr "/"; star space; lit "10"].

(** Source pattern: "/<title>(.*?)<\/title>/i" *)
Definition re_title : regex :=
  seqs [lit_i "<title>"; Group (lazy_star dot); lit_i "</title>"].

(** Source pattern: "/SAP\s*-?\s*/i" *)
Definition re_sap_prefix : regex :=
  seqs [lit_i "SAP"; star space; opt (chr "-"); star space].

(** Source pattern: "/<body[^>]*>(.*?)<\/body>/s" *)
Definition re_body : regex :=
  seqs [lit "<body"; star (Chr (fun c => negb (Ascii.eqb c ">"))); chr ">";
        Group (lazy_star any_char); lit "</body>"].

(** [s.match(r)?.[1]] as a value *)
Definition capture1 (r : regex) (s : string) : value :=
  match exec r s with
  | Some h => of_option (group h 1)
  | None => VUndef
  end.

(** *** Severity from text *)

(** [extractCvssFromContent]. The same two statements are written out in
    [mapToSapNoteDetail] and [parseRawNoteDetail]. [content.match] is a
    TypeError when the content is not a string. *)
Definition extractCvssFromContent (content : value) : outcome (value * value) :=
  match content with
  | VStr s =>
    let cvssScore := capture1 re_cvss_score s in
    let cvssVector :=
      match exec re_cvss_vector s with
      | Some h => VStr (whole s h)
      | None => VUndef
      end in
    Ok (cvssScore, cvssVector)
  | _ => Throw type_error
  end.

(** *** Severity from the launchpad page *)

Inductive tab_probe :=
| Hidden            (* not visible, or [isVisible] failed *)
| Clicked           (* visible, clicked, content awaited *)
| ClickFails.       (* visible, but the click or the wait threw *)

(** What [extractCvssFromPage] observes of the page it drives. *)
Record CvssPage := {
  page_url : string;
  nav_aborts : bool;
      (* [goto] failed and the wait in its handler threw as well *)
  tab : string -> tab_probe;
  body_has : option string;
      (* [body] text read when no tab was found; [catch] gives [""] *)
  score_text : option string;
  score_cell : option string;
  score_body : option string;
  metric_row : string -> option (list string)
      (* cell texts of the first visible row naming the metric; [None] when
         there is no such row or a query on it threw *) }.

(** The double quote, for selectors that contain one, and the line feed. *)
Definition dq : string := String "034" EmptyString.
Definition nl : string := String "010" EmptyString.

Definition has_text (sel txt : string) : string :=
  sel ++ ":has-text(" ++ dq ++ txt ++ dq ++ ")".

Definition cvssTabSelectors : list string :=
  ["text=CVSS";
   has_text ("[role=" ++ dq ++ "tab" ++ dq ++ "]") "CVSS";
   has_text "button" "CVSS";
   has_text "a" "CVSS";
   has_text ".sapMITBText" "CVSS";
   has_text ".sapMITBFilter" "CVSS";
   has_text ("div[role=" ++ dq ++ "tab" ++ dq ++ "]") "CVSS";
   has_text ".sapUiIconTabHeaderText" "CVSS"].

(** The selector loop: the first selector that is visible and whose click
    and wait go through ends the loop with [cvssTabFound = true]. *)
Fixpoint find_tab (p : CvssPage) (selectors : list string) : bool :=
  match selectors with
  | [] => false
  | selector :: rest =>
    match tab p selector with
    | Clicked => true
    | Hidden | ClickFails => find_tab p rest
    end
  end.

(** [if (text) { match = text.match(r); return match ? match[1] : null }
    return null] *)
Definition number_in (r : regex) (text : option string) : option string :=
  match text with
  | Some t =>
    if truthy (VStr t)
    then match exec r t with Some h => group h 1 | None => None end
    else None
  | None => None
  end.

Definition scoreStrategies (p : CvssPage) : list (option string) :=
  [number_in re_number (score_text p);
   number_in re_number (score_cell p);
   number_in re_base_score_of_10 (score_body p)].

(** [for (const strategy of scoreStrategies) { score = await strategy();
    if (score) { cvssScore = score; break } }] *)
Fixpoint first_score (strategies : list (option string)) : option string :=
  match strategies with
  | [] => None
  | Some score :: rest =>
    if truthy (VStr score) then Some score else first_score rest
  | None :: rest => first_score rest
  end.

Record metric := {
  key : string;
  name : string;
  map : list (string * string) }.

Definition m_AV : metric :=
  {| key := "AV"; name := "Attack Vector";
     map := [("Network", "N"); ("Adjacent", "A"); ("Local", "L"); ("Physical", "P")] |}.
Definition m_AC : metric :=
  {| key := "AC"; name := "Attack Complexity";
     map := [("Low", "L"); ("High", "H")] |}.
Definition m_PR : metric :=
  {| key := "PR"; name := "Privileges Required";
     map := [("None", "N"); ("Low", "L"); ("High", "H")] |}.
Definition m_UI : metric :=
  {| key := "UI"; name := "User Interaction";
     map := [("None", "N"); ("Required", "R")] |}.
Definition m_S : metric :=
  {| key := "S"; name := "Scope";
     map := [("Unchanged", "U"); ("Changed", "C")] |}.
Definition m_C : metric :=
  {| key := "C"; name := "Confidentiality";
     map := [("None", "N"); ("Low", "L"); ("High", "H")] |}.
Definition m_I : metric :=
  {| key := "I"; name := "Integrity";
     map := [("None", "N"); ("Low", "L"); ("High", "H")] |}.
Definition m_A : metric :=
  {| key := "A"; name := "Availability";
     map := [("None", "N"); ("Low", "L"); ("High", "H")] |}.

Definition metrics : list metric :=
  [m_AV; m_AC; m_PR; m_UI; m_S; m_C; m_I; m_A].

(** The body of the loop over [metrics] for one metric: the short form the
    row's second cell maps to, if the row is there and a long form occurs
    in the cell. *)
Definition resolve (p : CvssPage) (m : metric) : option string :=
  match metric_row p (name m) with
  | Some cells =>
    if (2 <=? length cells)%nat then
      match cells !! 1%nat with
      | Some cell =>
        let value := Str.trim cell in
        snd <$> List.find (fun entry => Str.includes value (fst entry)) (map m)
      | None => None
      end
    else None
  | None => None
  end.

(** The loop over [metrics], given what each metric resolves to. *)
Definition collect (resolved : metric -> option string) : gmap string string :=
  foldl (fun vc m =>
           match resolved m with
           | Some shortForm => <[key m := shortForm]> vc
           | None => vc
           end) ∅ metrics.

(** [vectorComponents] after the loop. *)
Definition vectorComponents (p : CvssPage) : gmap string string :=
  collect (resolve p).

(** [`${vectorComponents.K}`] *)
Definition shown (vc : gmap string string) (k : string) : string :=
  default "undefined" (vc !! k).

(** The vector string with all eight codes in place. *)
Definition full_vector (av ac pr ui s c i a : string) : string :=
  "CVSS:3.0/AV:" ++ av ++ "/AC:" ++ ac ++ "/PR:" ++ pr ++ "/UI:" ++ ui
  ++ "/S:" ++ s ++ "/C:" ++ c ++ "/I:" ++ i ++ "/A:" ++ a.

Definition vector_string (vc : gmap string string) : string :=
  "CVSS:3.0/AV:" ++ shown vc "AV" ++ "/AC:" ++ shown vc "AC"
  ++ "/PR:" ++ shown vc "PR" ++ "/UI:" ++ shown vc "UI"
  ++ "/S:" ++ shown vc "S" ++ "/C:" ++ shown vc "C"
  ++ "/I:" ++ shown vc "I" ++ "/A:" ++ shown vc "A".

(** [extractCvssFromPage]: the pair [{ cvssScore, cvssVector }]. The
    function catches everything it throws and then returns the pair of
    [undefined]. *)
Definition extractCvssFromPage (p : CvssPage) (noteId : string) : value * value :=
  if negb (Str.includes (page_url p) "launchpad.support.sap.com/#/notes")
     && nav_aborts p
  then (VUndef, VUndef)
  else
    let cvssTabFound := find_tab p cvssTabSelectors in
    let hasCvssText :=
      match body_has p with
      | Some bodyText => truthy (VStr bodyText) && Str.includes bodyText "CVSS"
      | None => false
      end in
    if negb cvssTabFound && negb hasCvssText
    then (VUndef, VUndef)
    else
      let cvssScore := of_option (first_score (scoreStrategies p)) in
      let vc := vectorComponents p in
      let cvssVector :=
        if (8 <=? size vc)%nat then VStr (vector_string vc) else VUndef in
      (cvssScore, cvssVector).

(** [enhanceWithCvssFromTab] *)
Definition enhanceWithCvssFromTab (noteDetail : SapNoteDetail) (p : CvssPage)
    (noteId : string) : SapNoteDetail :=
  if truthy (cvssScore noteDetail) && truthy (cvssVector noteDetail)
  then noteDetail
  else
    let cvssData := extractCvssFromPage p noteId in
    if truthy (fst cvssData) || truthy (snd cvssData)
    then {| id := id noteDetail;
            title := title noteDetail;
            summary := summary noteDetail;
            content := content noteDetail;
            language := language noteDetail;
            releaseDate := releaseDate noteDetail;
            component := component noteDetail;
            priority := priority noteDetail;
            category := category noteDetail;
            url := url noteDetail;
            cvssScore := fst cvssData;
            cvssVector := snd cvssData;
            affectedVersions := affectedVersions noteDetail |}
    else noteDetail.

(** *** Affected component versions *)

(** The loop of [extractSoftwareComponents] over [SupportPackage.Items].
    The whole loop sits in one [try]: a TypeError on an item ends it and
    the rows pushed so far are returned. *)
Fixpoint scan_items (items : list value) (versions : list SoftwareComponentVersion)
    : list SoftwareComponentVersion :=
  match items with
  | [] => versions
  | item :: rest =>
    match get item "SoftwareComponentVersion" with
    | Throw _ => versions
    | Ok cv =>
      match cv ||| VStr "" with
      | VStr componentVersion =>
        match exec re_component_version componentVersion with
        | Some h =>
          scan_items rest
            (versions ++ [ {| scv_component := default "" (group h 1);
                              scv_version := default "" (group h 2);
                              scv_supportPackage :=
                                field item "SupportPackage" ||| VStr "" |} ])
        | None => scan_items rest versions
        end
      | _ => versions
      end
    end
  end.

(** [extractSoftwareComponents], on a truthy [sapNote]. *)
Definition extractSoftwareComponents (sapNote : value)
    : list SoftwareComponentVersion :=
  match get_opt (field sapNote "SupportPackage") "Items" with
  | VArr items => scan_items items []
  | _ => []
  end.

(** *** The browser-rendered fetch *)

(** What the in-page script of [getNoteWithPlaywright] finds: for each of
    its three [querySelector] calls, the element's [textContent] if there
    is an element. *)
Record Dom := {
  titleElement : option (option string);
  contentElement : option (option string);
  summaryElement : option (option string) }.

Record NoteData := {
  nd_title : string;
  nd_summary : string;
  nd_content : string;
  found : bool }.

(** [element.textContent?.trim() || ''] *)
Definition text_of (textContent : option string) : string :=
  match textContent with
  | Some t => Str.trim t
  | None => ""
  end.

Definition present {A} (o : option A) : bool :=
  match o with Some _ => true | None => false end.

(** The function passed to [page.evaluate]. *)
Definition scrape (d : Dom) : NoteData :=
  let t := match titleElement d with Some e => text_of e | None => "" end in
  let c := match contentElement d with Some e => text_of e | None => "" end in
  let s := match summaryElement d with Some e => text_of e | None => "" end in
  {| nd_title := t;
     nd_summary := s;
     nd_content := c;
     found := present (titleElement d) || present (contentElement d)
              || present (summaryElement d)
              || truthy (VStr t) || truthy (VStr c) || truthy (VStr s) |}.

(** What [getNoteWithPlaywright] observes of the browser it launches for
    one note. *)
Record Session := {
  setup : outcome unit;
      (* [chromium.launch], [newContext], the cookies, [newPage] *)
  goto : outcome (option (bool * nat));
      (* [page.goto(rawUrl)]: [null], or [ok()] and [status()] *)
  loaded : outcome string;
      (* the wait, then [page.content()], [title()], [url()] *)
  bodyText : outcome (option string);
      (* [page.locator('body').textContent()] *)
  dom : outcome Dom;
      (* [page.evaluate]: what the script's queries find *)
  launchpad : CvssPage }.

(** [Response] of the Fetch API, as far as the code reads it. *)
Record Response := {
  status : nat;
  text : outcome string }.

Definition ok (r : Response) : bool :=
  (200 <=? status r)%nat && (status r <=? 299)%nat.

(** Everything outside the program: [JSON.parse], the network and the
    browser. *)
Record Env := {
  JSON_parse : string -> outcome value;
  fetch : string -> string -> outcome Response;   (* URL, cookie header *)
  browse : string -> string -> Session            (* note id, token *) }.

Section Retrieval.
Variable env : Env.

(** The record built from [jsonData.Response.SAPNote], enhanced from the
    tab when a severity field is still missing. The source holds this
    block twice, word for word: for the body text and for the HTML body. *)
Definition note_from_envelope (sapNote : value) (page : CvssPage)
    (noteId : string) : outcome SapNoteDetail :=
  let header := field sapNote "Header" ||| VObj [] in
  let content := get_opt (field sapNote "LongText") "value"
                 ||| VStr "No content available" in
  let cvss := field sapNote "CVSS" in
  let score0 :=
    if truthy cvss then get_opt (field cvss "CVSS_Score") "value" else VUndef in
  let vector0 :=
    if truthy cvss then get_opt (field cvss "CVSS_Vector") "vectorValue" else VUndef in
  sv ← (if negb (truthy score0) || negb (truthy vector0)
        then extracted ← extractCvssFromContent content;
             mret (score0 ||| fst extracted, vector0 ||| snd extracted)
        else mret (score0, vector0));
  let affected := extractSoftwareComponents sapNote in
  let noteDetail :=
    {| id := get_opt (field header "Number") "value" ||| VStr noteId;
       title := get_opt (field sapNote "Title") "value"
                ||| VStr ("SAP Note " ++ noteId);
       summary := get_opt (field header "Type") "value"
                  ||| VStr "SAP Knowledge Base Article";
       content := content;
       language := get_opt (field header "Language") "value" ||| VStr "EN";
       releaseDate := get_opt (field header "ReleasedOn") "value"
                      ||| VStr "Unknown";
       component := get_opt (field header "SAPComponentKeyText") "value"
                    ||| get_opt (field header "SAPComponentKey") "value";
       priority := get_opt (field header "Priority") "value";
       category := get_opt (field header "Category") "value";
       url := VStr (launchpad_url noteId);
       cvssScore := fst sv;
       cvssVector := snd sv;
       affectedVersions :=
         if (0 <? length affected)%nat then Some affected else None |} in
  mret (if negb (truthy (fst sv)) || negb (truthy (snd sv))
        then enhanceWithCvssFromTab noteDetail page noteId
        else noteDetail).

(** The generic record of the first attempt (JSON in the body text). *)
Definition note_from_body_json (jsonData : value) (page : CvssPage)
    (noteId : string) : outcome SapNoteDetail :=
  let content := field jsonData "Content" ||| field jsonData "content"
                 ||| field jsonData "Text" ||| field jsonData "LongText"
                 ||| field jsonData "Html" ||| field jsonData "Description"
                 ||| VStr "Raw note data retrieved successfully" in
  sv ← extractCvssFromContent content;
  mret (enhanceWithCvssFromTab
    {| id := field jsonData "SapNote" ||| field jsonData "id" ||| VStr noteId;
       title := field jsonData "Title" ||| field jsonData "title"
                ||| field jsonData "ShortText" ||| VStr ("SAP Note " ++ noteId);
       summary := field jsonData "Summary" ||| field jsonData "summary"
                  ||| field jsonData "Abstract" ||| field jsonData "Description"
                  ||| VStr "Note content extracted via Playwright";
       content := content;
       language := field jsonData "Language" ||| VStr "EN";
       releaseDate := field jsonData "ReleaseDate"
                      ||| field jsonData "CreationDate" ||| VStr "Unknown";
       component := field jsonData "Component";
       priority := field jsonData "Priority";
       category := field jsonData "Category" ||| field jsonData "Type";
       url := VStr (launchpad_url noteId);
       cvssScore := fst sv;
       cvssVector := snd sv;
       affectedVersions := None |} page noteId).

(** The generic record of the second attempt (JSON in the HTML body). *)
Definition note_from_html_json (jsonData : value) (page : CvssPage)
    (noteId : string) : outcome SapNoteDetail :=
  let content := field jsonData "Content" ||| field jsonData "content"
                 ||| field jsonData "Text" ||| field jsonData "LongText"
                 ||| field jsonData "Html" ||| VStr "Note content available" in
  sv ← extractCvssFromContent content;
  mret (enhanceWithCvssFromTab
    {| id := field jsonData "SapNote" ||| field jsonData "id" ||| VStr noteId;
       title := field jsonData "Title" ||| field jsonData "title"
                ||| field jsonData "ShortText" ||| VStr ("SAP Note " ++ noteId);
       summary := field jsonData "Summary" ||| field jsonData "summary"
                  ||| field jsonData "Abstract"
                  ||| VStr "Note extracted via Playwright";
       content := content;
       language := field jsonData "Language" ||| VStr "EN";
       releaseDate := field jsonData "ReleaseDate"
                      ||| field jsonData "CreationDate" ||| VStr "Unknown";
       component := field jsonData "Component";
       priority := field jsonData "Priority";
       category := field jsonData "Category" ||| field jsonData "Type";
       url := VStr (launchpad_url noteId);
       cvssScore := fst sv;
       cvssVector := snd sv;
       affectedVersions := None |} page noteId).

(** [if (text.startsWith('{') && text.endsWith('}')) { jsonData =
    JSON.parse(text); ... return ... }]: [Ok None] when the block is left
    without a [return]. *)
Definition note_from_json_text (text : string)
    (generic : value -> CvssPage -> string -> outcome SapNoteDetail)
    (page : CvssPage) (noteId : string) : outcome (option SapNoteDetail) :=
  if Str.startsWith text "{" && Str.endsWith text "}" then
    jsonData ← JSON_parse env text;
    response ← get jsonData "Response";
    if truthy response && truthy (field response "SAPNote")
    then Some <$> note_from_envelope (field response "SAPNote") page noteId
    else Some <$> generic jsonData page noteId
  else mret None.

(** The record of the third attempt, from the page's elements. *)
Definition note_from_dom (noteData : NoteData) (page : CvssPage)
    (noteId : string) : outcome SapNoteDetail :=
  let content := VStr (nd_content noteData)
                 ||| VStr "Note content extracted via browser automation" in
  sv ← extractCvssFromContent content;
  mret (enhanceWithCvssFromTab
    {| id := VStr noteId;
       title := VStr (nd_title noteData) ||| VStr ("SAP Note " ++ noteId);
       summary := VStr (nd_summary noteData) ||| VStr "Extracted via Playwright";
       content := content;
       language := VStr "EN";
       releaseDate := VStr "Unknown";
       component := VUndef;
       priority := VUndef;
       category := VUndef;
       url := VStr (launchpad_url noteId);
       cvssScore := fst sv;
       cvssVector := snd sv;
       affectedVersions := None |} page noteId).

(** A [try] block that either returns from the function ([Ok (Some _)]) or
    is left, by its end or by its [catch], for what follows. *)
Definition returned {A} (attempt : outcome (option A)) : option A :=
  match attempt with
  | Ok (Some a) => Some a
  | Ok None | Throw _ => None
  end.

(** [getNoteWithPlaywright] *)
Definition getNoteWithPlaywright (noteId token : string)
    : outcome (option SapNoteDetail) :=
  let s := browse env noteId token in
  let page := launchpad s in
  catch
   (_ ← setup s;
    response ← goto s;
    match response with
    | Some (true, _) =>
      content ← loaded s;
      let attempt1 :=
        bt ← bodyText s;
        match bt with
        | Some t =>
          if truthy (VStr t)
          then note_from_json_text (Str.trim t) note_from_body_json page noteId
          else mret None
        | None => mret None
        end in
      match returned attempt1 with
      | Some note => mret (Some note)
      | None =>
        let attempt2 :=
          match exec re_body content with
          | Some jsonMatch =>
            match group jsonMatch 1 with
            | Some inner =>
              if truthy (VStr inner)
              then note_from_json_text (Str.trim inner) note_from_html_json
                     page noteId
              else mret None
            | None => mret None
            end
          | None => mret None
          end in
        match returned attempt2 with
        | Some note => mret (Some note)
        | None =>
          d ← dom s;
          let noteData := scrape d in
          if found noteData
          then Some <$> note_from_dom noteData page noteId
          else mret None
        end
      end
    | Some (false, st) =>
      Throw ("HTTP " ++ pretty st ++ ": Failed to load page")
    | None => Throw "HTTP undefined: Failed to load page"
    end)
   (fun errorMessage => Throw ("Playwright extraction failed: " ++ errorMessage)).

(** *** The HTTP fallbacks *)

Definition baseUrl : string := "https://launchpad.support.sap.com".
Definition rawNotesUrl : string := "https://me.sap.com/backend/raw/sapnotes".

(** [`HTTP ${response.status}: ${errorText.substring(0, 200)}`] *)
Definition http_error (r : Response) (errorText : string) : string :=
  "HTTP " ++ pretty (status r) ++ ": " ++ Str.take 200 errorText.

(** [makeRequest] *)
Definition makeRequest (endpoint token : string) : outcome Response :=
  response ← fetch env (baseUrl ++ endpoint) token;
  if negb (ok response) && negb (status response =? 404)%nat
  then errorText ← text response; Throw (http_error response errorText)
  else mret response.

(** [makeRawRequest] *)
Definition makeRawRequest (endpoint token : string) : outcome Response :=
  response ← fetch env (rawNotesUrl ++ endpoint) token;
  if negb (ok response) && negb (status response =? 404)%nat
     && negb (status response =? 302)%nat && negb (status response =? 301)%nat
  then errorText ← text response; Throw (http_error response errorText)
  else mret response.

(** A severity field read directly from the item overrides the one found
    in the content. *)
Definition direct_or (direct fromContent : value) : value :=
  if truthy direct then direct else fromContent.

(** [mapToSapNoteDetail], on a truthy [item]. *)
Definition mapToSapNoteDetail (item : value) (noteId : string)
    : outcome SapNoteDetail :=
  let contentStr := field item "Content" ||| field item "content"
                    ||| field item "Text" ||| field item "summary"
                    ||| VStr "" in
  sv ← extractCvssFromContent contentStr;
  mret
    {| id := field item "SapNote" ||| field item "Id" ||| field item "id"
             ||| VStr noteId;
       title := field item "Title" ||| field item "title"
                ||| VStr "Unknown Title";
       summary := field item "Summary" ||| field item "summary"
                  ||| field item "Description" ||| VStr "No summary available";
       content := contentStr ||| VStr "Content not available";
       language := field item "Language" ||| field item "language" ||| VStr "EN";
       releaseDate := field item "ReleaseDate" ||| field item "releaseDate"
                      ||| field item "CreationDate" ||| VStr "Unknown";
       component := field item "Component" ||| field item "component";
       priority := field item "Priority" ||| field item "priority";
       category := field item "Category" ||| field item "category";
       url := VStr (launchpad_url noteId);
       cvssScore :=
         direct_or (field item "CvssScore" ||| field item "cvssScore"
                    ||| field item "CVSSScore") (fst sv);
       cvssVector :=
         direct_or (field item "CvssVector" ||| field item "cvssVector"
                    ||| field item "CVSSVector") (snd sv);
       affectedVersions := None |}.

(** [parseHtmlForNoteDetail]: never [null]. *)
Definition parseHtmlForNoteDetail (html noteId : string) : SapNoteDetail :=
  let title :=
    match exec re_title html with
    | Some titleMatch =>
      Str.trim (remove_first re_sap_prefix (default "" (group titleMatch 1)))
    | None => "SAP Note " ++ noteId
    end in
  let cvssScore := capture1 re_cvss_score html in
  let cvssVector :=
    match exec re_cvss_vector html with
    | Some h => VStr (whole html h)
    | None => VUndef
    end in
  {| id := VStr noteId;
     title := VStr title;
     summary := VStr "SAP Note details available at the provided URL";
     content := VStr "Please visit the URL for complete note content";
     language := VStr "EN";
     releaseDate := VStr "Unknown";
     component := VUndef;
     priority := VUndef;
     category := VUndef;
     url := VStr (launchpad_url noteId);
     cvssScore := cvssScore;
     cvssVector := cvssVector;
     affectedVersions := None |}.

(** [parseNoteResponse] *)
Definition parseNoteResponse (response : Response) (noteId : string)
    : outcome (option SapNoteDetail) :=
  responseText ← text response;
  let attempt :=
    jsonData ← JSON_parse env responseText;
    d ← get jsonData "d";
    if truthy d then Some <$> mapToSapNoteDetail d noteId else mret None in
  match returned attempt with
  | Some note => mret (Some note)
  | None => mret (Some (parseHtmlForNoteDetail responseText noteId))
  end.

(** The record [parseRawNoteDetail] builds from a JSON body that carries
    an identifier. *)
Definition note_from_raw_json (jsonData : value) (noteId : string)
    : outcome SapNoteDetail :=
  let content := field jsonData "Content" ||| field jsonData "content"
                 ||| field jsonData "Text" ||| field jsonData "LongText"
                 ||| field jsonData "Html"
                 ||| VStr "Note content available at URL" in
  sv ← extractCvssFromContent content;
  mret
    {| id := field jsonData "SapNote" ||| field jsonData "id"
             ||| field jsonData "noteId" ||| VStr noteId;
       title := field jsonData "Title" ||| field jsonData "title"
                ||| field jsonData "ShortText"
                ||| VStr ("SAP Note " ++ noteId);
       summary := field jsonData "Summary" ||| field jsonData "summary"
                  ||| field jsonData "Abstract" ||| field jsonData "abstract"
                  ||| VStr "SAP Note details";
       content := content;
       language := field jsonData "Language" ||| field jsonData "language"
                   ||| VStr "EN";
       releaseDate := field jsonData "ReleaseDate"
                      ||| field jsonData "releaseDate"
                      ||| field jsonData "CreationDate" ||| VStr "Unknown";
       component := field jsonData "Component" ||| field jsonData "component";
       priority := field jsonData "Priority" ||| field jsonData "priority";
       category := field jsonData "Category" ||| field jsonData "category"
                   ||| field jsonData "Type";
       url := VStr (launchpad_url noteId);
       cvssScore :=
         direct_or (field jsonData "CvssScore" ||| field jsonData "cvssScore"
                    ||| field jsonData "CVSSScore") (fst sv);
       cvssVector :=
         direct_or (field jsonData "CvssVector" ||| field jsonData "cvssVector"
                    ||| field jsonData "CVSSVector") (snd sv);
       affectedVersions := None |}.

(** The record [parseRawNoteDetail] returns for a redirect page. *)
Definition redirect_stub (noteId : string) : SapNoteDetail :=
  {| id := VStr noteId;
     title := VStr ("SAP Note " ++ noteId);
     summary := VStr "Note found via raw API - full content requires browser access";
     content := VStr (
       "This SAP Note exists but its content requires browser navigation to access."
       ++ nl ++ nl ++ "To view the complete note content:" ++ nl
       ++ "1. Visit: https://launchpad.support.sap.com/#/notes/" ++ noteId ++ nl
       ++ "2. Or access through: https://me.sap.com with your SAP credentials"
       ++ nl ++ nl
       ++ "The note was successfully located but content extraction requires additional authentication steps.");
     language := VStr "EN";
     releaseDate := VStr "Unknown";
     component := VUndef;
     priority := VUndef;
     category := VUndef;
     url := VStr (launchpad_url noteId);
     cvssScore := VUndef;
     cvssVector := VUndef;
     affectedVersions := None |}.

(** [parseRawNoteDetail] *)
Definition parseRawNoteDetail (response : Response) (noteId : string)
    : outcome (option SapNoteDetail) :=
  responseText ← text response;
  let attempt :=
    jsonData ← JSON_parse env responseText;
    if truthy jsonData
       && truthy (field jsonData "SapNote" ||| field jsonData "id"
                  ||| field jsonData "noteId")
    then Some <$> note_from_raw_json jsonData noteId
    else mret None in
  match returned attempt with
  | Some note => mret (Some note)
  | None =>
    if (Str.includes responseText "fragmentAfterLogin"
        || Str.includes responseText "document.cookie")
       && truthy (VStr noteId) && test re_note_id noteId
    then mret (Some (redirect_stub noteId))
    else mret (Some (parseHtmlForNoteDetail responseText noteId))
  end.

Definition fallbackEndpoints (noteId : string) : list string :=
  ["/services/odata/svt/snogwscorr/Notes('" ++ noteId ++ "')?$format=json";
   "/services/odata/svt/snogwscorr/KnowledgeBaseEntries?$filter=SapNote eq '"
     ++ noteId ++ "'&$format=json";
   "/support/notes/" ++ noteId].

(** The body of the [try] in the loop of [getNote] over the fallback
    endpoints. *)
Definition endpoint_attempt (endpoint noteId token : string)
    : outcome (option SapNoteDetail) :=
  response ← makeRequest endpoint token;
  parseNoteResponse response noteId.

(** The loop of [getNote] over the fallback endpoints. *)
Fixpoint try_endpoints (endpoints : list string) (noteId token : string)
    : option SapNoteDetail :=
  match endpoints with
  | [] => None
  | endpoint :: rest =>
    match returned (endpoint_attempt endpoint noteId token) with
    | Some note => Some note
    | None => try_endpoints rest noteId token
    end
  end.

(** The second strategy of [getNote]: the raw endpoint over plain HTTP. *)
Definition raw_attempt (noteId token : string) : outcome (option SapNoteDetail) :=
  rawResponse ← makeRawRequest ("/Detail?q=" ++ noteId ++ "&t=E&isVTEnabled=false") token;
  if ok rawResponse then parseRawNoteDetail rawResponse noteId else mret None.

(** A strategy that yields no data: it throws, or it comes back without
    a record. *)
Definition yields_nothing {A} (attempt : outcome (option A)) : Prop :=
  returned attempt = None.

(** [getNote] *)
Definition getNote (noteId token : string) : outcome (option SapNoteDetail) :=
  catch
    (match returned (getNoteWithPlaywright noteId token) with
     | Some note => mret (Some note)
     | None =>
       match returned (raw_attempt noteId token) with
       | Some note => mret (Some note)
       | None => mret (try_endpoints (fallbackEndpoints noteId) noteId token)
       end
     end)
    (fun errorMessage =>
       Throw ("Failed to get SAP Note " ++ noteId ++ ": " ++ errorMessage)).

(** Where a record that [getNote] returns was built: one case per
    [return] of the cascade that hands out a record. *)
Inductive origin (noteId : string) (note : SapNoteDetail) : Prop :=
| of_envelope text jsonData response page :
    JSON_parse env text = Ok jsonData ->
    get jsonData "Response" = Ok response ->
    note_from_envelope (field response "SAPNote") page noteId = Ok note ->
    origin noteId note
| of_body_json text jsonData page :
    JSON_parse env text = Ok jsonData ->
    note_from_body_json jsonData page noteId = Ok note ->
    origin noteId note
| of_html_json text jsonData page :
    JSON_parse env text = Ok jsonData ->
    note_from_html_json jsonData page noteId = Ok note ->
    origin noteId note
| of_dom noteData page :
    note_from_dom noteData page noteId = Ok note ->
    origin noteId note
| of_raw_json text jsonData :
    JSON_parse env text = Ok jsonData ->
    note_from_raw_json jsonData noteId = Ok note ->
    origin noteId note
| of_redirect :
    note = redirect_stub noteId ->
    origin noteId note
| of_html html :
    note = parseHtmlForNoteDetail html noteId ->
    origin noteId note
| of_odata text jsonData d :
    JSON_parse env text = Ok jsonData ->
    get jsonData "d" = Ok d ->
    mapToSapNoteDetail d noteId = Ok note ->
    origin noteId note.

(** [o.a.b.c] with every step read as [?.] *)
Definition path (o : value) (names : list string) : value :=
  foldl get_opt o names.

End Retrieval.
End Notes.

(** ** Search: [searchNotes] of [src/sap-notes-api.ts] *)

Module Search.
Import JS Regex.

(** [interface SapNoteResult] *)
Record SapNoteResult := {
  id : value;
  title : value;
  summary : value;
  language : value;
  releaseDate : value;
  component : value;
  url : value }.

(** [interface SapNoteSearchResponse] *)
Record SapNoteSearchResponse := {
  results : list SapNoteResult;
  totalResults : value;
  query : string }.

(** A non-negative integer as a JavaScript number. *)
Definition js_nat (n : nat) : value :=
  match n with
  | O => VNum (S754_zero false)
  | S _ => VNum (S754_finite false (Pos.of_nat n) 0)
  end.

(** The two strategies of [searchNotes] that the fallback to a direct fetch
    sits between, by their outcome: the Coveo search in the inner [try]
    block, and [searchViaInternalAPI]. *)
Record Strategies := {
  coveo : string -> string -> nat -> outcome SapNoteSearchResponse;
  searchViaInternalAPI : string -> string -> nat -> outcome (list SapNoteResult) }.

Section Cascade.
Variable env : Notes.Env.
Variable strategies : Strategies.

(** [helpfulMessage], the text thrown when every search method has
    failed. The wrench sign of the source is written in UTF-8. *)
Definition helpfulMessage (errorMessage : string) : string :=
  "Search temporarily unavailable: Coveo search engine failed (" ++ errorMessage
  ++ ") and fallback search methods found no results." ++ Notes.nl ++ Notes.nl
  ++ "🔧 WORKAROUNDS:" ++ Notes.nl
  ++ "1. If you have a specific SAP Note ID (e.g., 2744792), use sap_note_get(id="
  ++ Notes.dq ++ "2744792" ++ Notes.dq ++ ") - this works perfectly!" ++ Notes.nl
  ++ "2. Try searching directly on https://me.sap.com/notes" ++ Notes.nl
  ++ "3. Search may work better outside containerized environments"
  ++ Notes.nl ++ Notes.nl
  ++ "Note: Individual note retrieval (sap_note_get) is fully functional and can access complete SAP Note content.".

(** Fallback 1: the query read as a note id. [Ok None] when the block is
    left without a [return]. *)
Definition direct_note (query token : string)
    : outcome (option SapNoteSearchResponse) :=
  if test Notes.re_note_id (Str.trim query) then
    let noteId := Str.trim query in
    note ← Notes.getNote env noteId token;
    match note with
    | Some note =>
      mret (Some
        {| results := [ {| id := VStr noteId;
                           title := Notes.title note;
                           summary := Notes.summary note;
                           component := Notes.component note;
                           releaseDate := Notes.releaseDate note;
                           language := Notes.language note;
                           url := Notes.url note |} ];
           totalResults := js_nat 1;
           query := query |})
    | None => mret None
    end
  else mret None.

(** Fallback 2. *)
Definition internal_search (query token : string) (maxResults : nat)
    : outcome (option SapNoteSearchResponse) :=
  fallbackResults ← searchViaInternalAPI strategies query token maxResults;
  if (0 <? length fallbackResults)%nat
  then mret (Some {| results := fallbackResults;
                     totalResults := js_nat (length fallbackResults);
                     query := query |})
  else mret None.

(** [searchNotes] *)
Definition searchNotes (query token : string) (maxResults : nat)
    : outcome SapNoteSearchResponse :=
  catch
    (catch (coveo strategies query token maxResults)
       (fun errorMessage =>
          match Notes.returned (direct_note query token) with
          | Some response => mret response
          | None =>
            match Notes.returned (internal_search query token maxResults) with
            | Some response => mret response
            | None => Throw (helpfulMessage errorMessage)
            end
          end))
    (fun errorMessage => Throw ("SAP Notes search failed: " ++ errorMessage)).

End Cascade.
End Search.

(** ** The authenticator: [src/auth.ts] *)

Module Auth.
Import JS.

Local Open Scope Z_scope.

(** A cookie of the browser context. Only its name and value are read. *)
Record Cookie := {
  cookie_name : string;
  cookie_value : string }.

(** The record [saveCachedToken] writes and [loadCachedToken] reads. *)
Record CachedToken := {
  access_token : string;
  cookies : list Cookie;
  cached_expiresAt : Z }.

(** [interface AuthState] *)
Record AuthState := {
  token : option string;
  expiresAt : option Z;
  isAuthenticated : bool }.

(** [{ isAuthenticated: false }] *)
Definition signed_out : AuthState :=
  {| token := None; expiresAt := None; isAuthenticated := false |}.

Definition bufferMs : Z := 5 * 60 * 1000.

Definition nonempty (s : string) : bool := truthy (VStr s).

(** [isTokenValid], at time [now] *)
Definition isTokenValid (a : AuthState) (now : Z) : bool :=
  match token a, expiresAt a with
  | Some t, Some e => nonempty t && negb (e =? 0) && (now <? e - bufferMs)
  | _, _ => false
  end.

(** [isTokenValidFromCache], at time [now] *)
Definition isTokenValidFromCache (c : CachedToken) (now : Z) : bool :=
  nonempty (access_token c) && negb (cached_expiresAt c =? 0)
  && (now <? cached_expiresAt c - bufferMs).

(** *** Browser launch with retries *)

Inductive launch_result :=
| Launched
| LaunchError (errorMsg : string).

Inductive action :=
| Launch (attempt : nat)
| Sleep (delayMs : Z).

Definition maxRetries : nat := 3.

Definition resource_exhausted (errorMsg : string) : bool :=
  Str.includes errorMsg "pthread_create"
  || Str.includes errorMsg "Resource temporarily unavailable".

(** The [for] loop of [authenticate] from [attempt] on, [remaining] being
    the iterations left. [launch n] is what the [n]-th call of
    [browserLauncher.launch] answers. The result is what the loop did, in
    order, and whether a browser is there at its end. *)
Fixpoint launch_from (remaining attempt : nat) (launch : nat -> launch_result)
    : list action * outcome unit :=
  match remaining with
  | O => ([], Throw "Failed to launch browser after 3 attempts")
  | S remaining' =>
    match launch attempt with
    | Launched => ([Launch attempt], Ok tt)
    | LaunchError errorMsg =>
      if resource_exhausted errorMsg && (attempt <? maxRetries)%nat then
        let rest := launch_from remaining' (S attempt) launch in
        (Launch attempt :: Sleep (2 ^ Z.of_nat attempt * 1000) :: fst rest,
         snd rest)
      else if (maxRetries <=? attempt)%nat then
        ([Launch attempt], Throw errorMsg)
      else
        let rest := launch_from remaining' (S attempt) launch in
        (Launch attempt :: Sleep 1000 :: fst rest, snd rest)
    end
  end.

Definition launch_loop (launch : nat -> launch_result)
    : list action * outcome unit :=
  launch_from maxRetries 1 launch.

(** The pause the loop makes after a failed attempt that is not the last
    one: [Math.pow(2, attempt) * 1000] or [1000]. *)
Definition pause (attempt : nat) (errorMsg : string) : Z :=
  if resource_exhausted errorMsg then 2 ^ Z.of_nat attempt * 1000 else 1000.

Definition is_launch (a : action) : bool :=
  match a with Launch _ => true | Sleep _ => false end.

Definition launches (acts : list action) : nat :=
  length (filter (fun a => is_launch a) acts).

(** *** [ensureAuthenticated] under interleaving

    The program is single-threaded: a call runs until its next [await]
    and is resumed from the microtask queue once the promise it awaits is
    settled. The login itself (certificate check, browser, navigation,
    cookies) runs outside and finishes with a result at some later time;
    between its start and that moment it is in flight. *)

Inductive error :=
| AuthenticationTimeoutError
| CertificateLoadError
| BrowserNotFoundError
| AuthenticationError (cause : string)
| NoTokenReceived.    (* [Error('Authentication failed - no token received')] *)

(** How the part of [authenticate] after the cache check ends. *)
Inductive login_result :=
| LoggedIn (allCookies : list Cookie) (cacheWritten : bool)
| TimedOut
| CertificateUnreadable
| NoBrowser
| Failed (cause : string).

Inductive settlement :=
| Pending
| Fulfilled
| Rejected (e : error).

Record promise := {
  settled : settlement;
  waiters : list nat }.

(** Where a call of [ensureAuthenticated] stands. *)
Inductive pc :=
| AwaitGuard (p : nat)      (* [await this.authPromise] of the guard *)
| AwaitOwn (p : nat)        (* [await this.authPromise] after starting it *)
| Returned (tok : string)
| Thrown (e : error).

Record State := {
  authState : AuthState;
  authPromise : option nat;
  promises : list promise;
  calls : list pc;
  microtasks : list nat;
  cache : option CachedToken;
  flows : nat    (* login flows started so far *) }.

Definition initial (disk : option CachedToken) : State :=
  {| authState := signed_out; authPromise := None; promises := [];
     calls := []; microtasks := []; cache := disk; flows := 0 |}.

Inductive event :=
| Call (now : Z)
    (* somebody calls [ensureAuthenticated()] *)
| Tick (now : Z)
    (* the first microtask runs *)
| LoginDone (p : nat) (r : login_result) (now : Z)
    (* the login behind promise [p] finishes *)
| Invalidate.
    (* somebody calls [invalidateAuth()] *)

Section Authenticator.
Variable maxJwtAgeH : Z.

(** [allCookies.map(c => `${c.name}=${c.value}`).join('; ')] *)
Fixpoint cookieString (allCookies : list Cookie) : string :=
  match allCookies with
  | [] => ""
  | [c] => cookie_name c ++ "=" ++ cookie_value c
  | c :: rest => cookie_name c ++ "=" ++ cookie_value c ++ "; " ++ cookieString rest
  end.

(** Field updates of the state. *)
Definition with_authState (a : AuthState) (st : State) : State :=
  {| authState := a; authPromise := authPromise st; promises := promises st;
     calls := calls st; microtasks := microtasks st; cache := cache st;
     flows := flows st |}.

Definition with_authPromise (ap : option nat) (st : State) : State :=
  {| authState := authState st; authPromise := ap; promises := promises st;
     calls := calls st; microtasks := microtasks st; cache := cache st;
     flows := flows st |}.

Definition with_promises (ps : list promise) (st : State) : State :=
  {| authState := authState st; authPromise := authPromise st; promises := ps;
     calls := calls st; microtasks := microtasks st; cache := cache st;
     flows := flows st |}.

Definition with_calls (cs : list pc) (st : State) : State :=
  {| authState := authState st; authPromise := authPromise st;
     promises := promises st;
     calls := cs; microtasks := microtasks st; cache := cache st;
     flows := flows st |}.

Definition with_microtasks (ms : list nat) (st : State) : State :=
  {| authState := authState st; authPromise := authPromise st;
     promises := promises st;
     calls := calls st; microtasks := ms; cache := cache st;
     flows := flows st |}.

Definition with_cache (c : option CachedToken) (st : State) : State :=
  {| authState := authState st; authPromise := authPromise st;
     promises := promises st;
     calls := calls st; microtasks := microtasks st; cache := c;
     flows := flows st |}.

Definition with_flows (n : nat) (st : State) : State :=
  {| authState := authState st; authPromise := authPromise st;
     promises := promises st;
     calls := calls st; microtasks := microtasks st; cache := cache st;
     flows := n |}.

(** Call [i] is now at [c]. *)
Definition set_pc (i : nat) (c : pc) (st : State) : State :=
  with_calls (<[i := c]> (calls st)) st.

(** [await p] by call [i]: the call is resumed through the microtask
    queue, at once if [p] is settled already, else when [p] is settled,
    after the calls that awaited [p] before it. *)
Definition await (i p : nat) (st : State) : option State :=
  pr ← promises st !! p;
  match settled pr with
  | Pending =>
    Some (with_promises
            (<[p := {| settled := Pending; waiters := waiters pr ++ [i] |}]>
               (promises st)) st)
  | _ => Some (with_microtasks (microtasks st ++ [i]) st)
  end.

(** [invalidateAuth] *)
Definition invalidateAuth (st : State) : State :=
  with_authState signed_out st.

(** [loadCachedToken()] and the test on it at the head of [authenticate] *)
Definition usable_cache (st : State) (now : Z) : option CachedToken :=
  match cache st with
  | Some c => if isTokenValidFromCache c now then Some c else None
  | None => None
  end.

(** [authenticate()], up to its first [await]: the state it leaves and the
    promise it returns. A usable cached token is adopted and the promise
    is fulfilled, without any login. Otherwise the login flow starts; its
    promise is pending until [authenticate_done]. *)
Definition authenticate (now : Z) (st : State) : State * nat :=
  let p := length (promises st) in
  match usable_cache st now with
  | Some c =>
    (with_promises (promises st ++ [ {| settled := Fulfilled; waiters := [] |} ])
       (with_authState {| token := Some (access_token c);
                          expiresAt := Some (cached_expiresAt c);
                          isAuthenticated := true |} st),
     p)
  | None =>
    (with_flows (S (flows st))
       (with_promises (promises st ++ [ {| settled := Pending; waiters := [] |} ])
          st),
     p)
  end.

(** The rejection of [authenticate]'s promise: the three named errors are
    thrown again, anything else is wrapped. *)
Definition rejection (r : login_result) : option error :=
  match r with
  | LoggedIn _ _ => None
  | TimedOut => Some AuthenticationTimeoutError
  | CertificateUnreadable => Some CertificateLoadError
  | NoBrowser => Some BrowserNotFoundError
  | Failed cause => Some (AuthenticationError cause)
  end.

(** The rest of [authenticate]: the login behind promise [p] finishes with
    [r] at time [now]. On success the state and the cache file are
    written; on failure the state is reset. The browser is closed and the
    promise is settled; the calls awaiting it are queued in the order in
    which they began to wait. A login finishes between two turns of the
    event loop, when no microtask is left. *)
Definition authenticate_done (p : nat) (r : login_result) (now : Z)
    (st : State) : option State :=
  match microtasks st with
  | [] =>
    pr ← promises st !! p;
    match settled pr with
    | Pending =>
      let settle (s : settlement) (st : State) : State :=
        with_microtasks (waiters pr)
          (with_promises (<[p := {| settled := s; waiters := [] |}]> (promises st))
             st) in
      match r, rejection r with
      | LoggedIn allCookies cacheWritten, _ =>
        let cookieString := cookieString allCookies in
        let expiresAt := now + maxJwtAgeH * 60 * 60 * 1000 in
        let st1 :=
          with_authState {| token := Some cookieString;
                            expiresAt := Some expiresAt;
                            isAuthenticated := true |} st in
        let st2 :=
          if cacheWritten
          then with_cache (Some {| access_token := cookieString;
                                   cookies := allCookies;
                                   cached_expiresAt := expiresAt |}) st1
          else st1 in
        Some (settle Fulfilled st2)
      | _, Some e => Some (settle (Rejected e) (with_authState signed_out st))
      | _, None => None
      end
    | _ => None
    end
  | _ :: _ => None
  end.

(** [ensureAuthenticated] after the guard, for call [i]: the validity
    check, and the start of a login if it fails. *)
Definition ensureAuthenticated_check (i : nat) (now : Z) (st : State)
    : option State :=
  if isTokenValid (authState st) now then
    Some (set_pc i (Returned (default "" (token (authState st)))) st)
  else
    let '(st1, p) := authenticate now st in
    await i p (set_pc i (AwaitOwn p) (with_authPromise (Some p) st1)).

(** [ensureAuthenticated()], from its call to its first [await] or to its
    return. The call gets the next index. *)
Definition ensureAuthenticated (now : Z) (st : State) : option State :=
  let i := length (calls st) in
  match authPromise st with
  | Some p => await i p (with_calls (calls st ++ [AwaitGuard p]) st)
  | None =>
    ensureAuthenticated_check i now (with_calls (calls st ++ [AwaitGuard 0]) st)
  end.

(** The first microtask: the call it belongs to goes on after its
    [await], which throws if the promise was rejected. After the guard
    comes the validity check. After the call's own login come
    [this.authPromise = null] and the test of the token. *)
Definition resume (now : Z) (st : State) : option State :=
  match microtasks st with
  | [] => None
  | i :: rest =>
    let st1 := with_microtasks rest st in
    c ← calls st !! i;
    match c with
    | AwaitGuard p =>
      pr ← promises st !! p;
      match settled pr with
      | Pending => None
      | Rejected e => Some (set_pc i (Thrown e) st1)
      | Fulfilled => ensureAuthenticated_check i now st1
      end
    | AwaitOwn p =>
      pr ← promises st !! p;
      match settled pr with
      | Pending => None
      | Rejected e => Some (set_pc i (Thrown e) st1)
      | Fulfilled =>
        let st2 := with_authPromise None st1 in
        match token (authState st) with
        | Some t =>
          if nonempty t
          then Some (set_pc i (Returned t) st2)
          else Some (set_pc i (Thrown NoTokenReceived) st2)
        | None => Some (set_pc i (Thrown NoTokenReceived) st2)
        end
      end
    | Returned _ | Thrown _ => None
    end
  end.

Definition step (ev : event) (st : State) : option State :=
  match ev with
  | Call now => ensureAuthenticated now st
  | Tick now => resume now st
  | LoginDone p r now => authenticate_done p r now st
  | Invalidate => Some (invalidateAuth st)
  end.

(** A schedule, event by event; [None] if an event cannot happen where
    the schedule puts it. *)
Fixpoint run (evs : list event) (st : State) : option State :=
  match evs with
  | [] => Some st
  | ev :: rest => st' ← step ev st; run rest st'
  end.

End Authenticator.

(** The login flows in flight: the promises of [authenticate] not yet
    settled. *)
Definition is_pending (pr : promise) : bool :=
  match settled pr with Pending => true | _ => false end.

Definition in_flight (st : State) : nat :=
  length (filter (fun pr => is_pending pr) (promises st)).

End Auth.

(** ** Concrete runs

    Environments and schedules on which the properties below are
    exercised. *)

Module Scenario.
Import JS.

(** A JSON string literal or member name. *)
Definition q (s : string) : string := Notes.dq ++ s ++ Notes.dq.

(** A launchpad page that shows nothing about severity. *)
Definition plain_page : Notes.CvssPage :=
  {| Notes.page_url := "https://me.sap.com/backend/raw/sapnotes/Detail";
     Notes.nav_aborts := false;
     Notes.tab := fun _ => Notes.Hidden;
     Notes.body_has := Some "SAP Note";
     Notes.score_text := None;
     Notes.score_cell := None;
     Notes.score_body := Some "SAP Note";
     Notes.metric_row := fun _ => None |}.

(** A launchpad page whose severity tab shows the table of the eight
    metrics and no base score. *)
Definition table_page : Notes.CvssPage :=
  {| Notes.page_url := "https://me.sap.com/backend/raw/sapnotes/Detail";
     Notes.nav_aborts := false;
     Notes.tab := fun selector =>
       if String.eqb selector "text=CVSS" then Notes.Clicked else Notes.Hidden;
     Notes.body_has := None;
     Notes.score_text := None;
     Notes.score_cell := None;
     Notes.score_body := Some "Attack Vector Network";
     Notes.metric_row := fun name =>
       if String.eqb name "Attack Vector" then Some [name; "Network"]
       else if String.eqb name "Attack Complexity" then Some [name; "Low"]
       else if String.eqb name "Privileges Required" then Some [name; "None"]
       else if String.eqb name "User Interaction" then Some [name; "None"]
       else if String.eqb name "Scope" then Some [name; "Unchanged"]
       else if String.eqb name "Confidentiality" then Some [name; "High"]
       else if String.eqb name "Integrity" then Some [name; "High"]
       else if String.eqb name "Availability" then Some [name; "High"]
       else None |}.

(** The same page with the Availability row missing. *)
Definition seven_rows_page : Notes.CvssPage :=
  {| Notes.page_url := Notes.page_url table_page;
     Notes.nav_aborts := false;
     Notes.tab := Notes.tab table_page;
     Notes.body_has := None;
     Notes.score_text := Some "Base Score: 9.8";
     Notes.score_cell := None;
     Notes.score_body := None;
     Notes.metric_row := fun name =>
       if String.eqb name "Availability" then None
       else Notes.metric_row table_page name |}.

(** A browser session in which the raw endpoint answers [body] and the
    launchpad shows [page]. *)
Definition session (body : string) (page : Notes.CvssPage) : Notes.Session :=
  {| Notes.setup := Ok tt;
     Notes.goto := Ok (Some (true, 200%nat));
     Notes.loaded := Ok ("<html><head></head><body>" ++ body ++ "</body></html>");
     Notes.bodyText := Ok (Some body);
     Notes.dom := Ok {| Notes.titleElement := None;
                        Notes.contentElement := None;
                        Notes.summaryElement := None |};
     Notes.launchpad := page |}.

(** [JSON.parse] on the one document of a scenario. *)
Definition parse_only (doc : string) (parsed : value) (s : string)
    : outcome value :=
  if String.eqb s doc then Ok parsed else Throw "SyntaxError".

(** The raw endpoint answers the knowledge-article envelope, with the
    note number in its ten-digit form. *)
Definition padded_text : string :=
  "{" ++ q "Response" ++ ":{" ++ q "SAPNote" ++ ":{" ++ q "Header" ++ ":{"
  ++ q "Number" ++ ":{" ++ q "value" ++ ":" ++ q "0002744792" ++ "}}}}}".

Definition padded_json : value :=
  VObj [("Response",
    VObj [("SAPNote",
      VObj [("Header",
        VObj [("Number", VObj [("value", VStr "0002744792")])])])])].

Definition env_padded : Notes.Env :=
  {| Notes.JSON_parse := parse_only padded_text padded_json;
     Notes.fetch := fun _ _ => Throw "fetch failed";
     Notes.browse := fun _ _ => session padded_text plain_page |}.

(** The raw endpoint answers an envelope that carries the score and no
    vector; the launchpad shows the metric table and no score. *)
Definition scored_text : string :=
  "{" ++ q "Response" ++ ":{" ++ q "SAPNote" ++ ":{" ++ q "CVSS" ++ ":{"
  ++ q "CVSS_Score" ++ ":{" ++ q "value" ++ ":" ++ q "9.8" ++ "}}}}}".

Definition scored_json : value :=
  VObj [("Response",
    VObj [("SAPNote",
      VObj [("CVSS",
        VObj [("CVSS_Score", VObj [("value", VStr "9.8")])])])])].

Definition env_scored : Notes.Env :=
  {| Notes.JSON_parse := parse_only scored_text scored_json;
     Notes.fetch := fun _ _ => Throw "fetch failed";
     Notes.browse := fun _ _ => session scored_text table_page |}.

(** No browser can be launched and the network is down. *)
Definition env_offline : Notes.Env :=
  {| Notes.JSON_parse := fun _ => Throw "SyntaxError";
     Notes.fetch := fun _ _ => Throw "fetch failed";
     Notes.browse := fun _ _ =>
       {| Notes.setup := Throw "browserType.launch: Executable doesn't exist";
          Notes.goto := Throw "no page";
          Notes.loaded := Throw "no page";
          Notes.bodyText := Throw "no page";
          Notes.dom := Throw "no page";
          Notes.launchpad := plain_page |} |}.

(** The Coveo search is down, and so is the internal search. *)
Definition coveo_down : Search.Strategies :=
  {| Search.coveo := fun _ _ _ => Throw "Coveo token extraction failed";
     Search.searchViaInternalAPI := fun _ _ _ => Ok [] |}.

Import Auth.
Local Open Scope Z_scope.

(** Three callers while nobody is signed in; the login ends well but the
    browser context holds no cookie. *)
Definition three_callers : list event :=
  [Call 0; Call 0; Call 0;
   LoginDone 0 (LoggedIn [] true) 20000;
   Tick 20000; Tick 20000; Tick 20000].

(** One caller, a login that times out, and a second call later on. *)
Definition retry_after_timeout : list event :=
  [Call 0; LoginDone 0 TimedOut 30000; Tick 30000;
   Call 60000; Tick 60000].

(** One caller signs in, the session is invalidated, the next call. *)
Definition call_after_invalidate : list event :=
  [Call 0;
   LoginDone 0 (LoggedIn [ {| cookie_name := "JSESSIONID";
                               cookie_value := "abc" |} ] true) 20000;
   Tick 20000;
   Invalidate;
   Call 60000; Tick 60000].

(** Every launch fails because the executable is missing. *)
Definition no_executable (attempt : nat) : launch_result :=
  LaunchError "Executable doesn't exist at /ms-playwright/chromium/chrome".

(** The first two launches run out of threads, the third succeeds. *)
Definition busy_twice (attempt : nat) : launch_result :=
  if (attempt <? 3)%nat
  then LaunchError "pthread_create: Resource temporarily unavailable"
  else Launched.

End Scenario.

(** ** What a pattern can match

    The matcher of [Regex] read as a relation: [matches r pos s pos' s' caps]
    says that [r], started at position [pos] with [s] left of the subject,
    can end at position [pos'] with [s'] left, having closed the groups
    [caps] on the way. *)

Module RegexSpec.
Import Regex.

Inductive matches : regex -> nat -> string -> nat -> string -> list string -> Prop :=
| m_eps pos s :
    matches Eps pos s pos s []
| m_chr p c t pos :
    p c = true ->
    matches (Chr p) pos (String c t) (S pos) t []
| m_seq r1 r2 pos s pos1 s1 caps1 pos2 s2 caps2 :
    matches r1 pos s pos1 s1 caps1 ->
    matches r2 pos1 s1 pos2 s2 caps2 ->
    matches (Seq r1 r2) pos s pos2 s2 (caps1 ++ caps2)%list
| m_alt_l r1 r2 pos s pos' s' caps :
    matches r1 pos s pos' s' caps ->
    matches (Alt r1 r2) pos s pos' s' caps
| m_alt_r r1 r2 pos s pos' s' caps :
    matches r2 pos s pos' s' caps ->
    matches (Alt r1 r2) pos s pos' s' caps
| m_rep_stop greedy hi r pos s :
    matches (Rep greedy 0 hi r) pos s pos s []
| m_rep_more greedy lo hi r pos s pos1 s1 caps1 pos2 s2 caps2 :
    (lo = 0 -> hi <> Some 0) ->
    matches r pos s pos1 s1 caps1 ->
    matches (Rep greedy (Nat.pred lo) (dec_hi hi) r) pos1 s1 pos2 s2 caps2 ->
    matches (Rep greedy lo hi r) pos s pos2 s2 (caps1 ++ caps2)%list
| m_group r pos s pos' s' caps :
    matches r pos s pos' s' caps ->
    matches (Group r) pos s pos' s' (caps ++ [Str.take (pos' - pos) s])%list
| m_bol s :
    matches Bol 0 s 0 s []
| m_eol pos :
    matches Eol pos "" pos "" [].

(** Every code unit of the string satisfies the predicate. *)
Fixpoint all (p : ascii -> bool) (s : string) : bool :=
  match s with
  | EmptyString => true
  | String c t => p c && all p t
  end.

(** The numerals of the source's "\d+\.?\d*": digits, then at most one dot
    followed by further digits. *)
Definition numeral (w : string) : Prop :=
  exists whole_part dot fraction,
    w = whole_part ++ dot ++ fraction /\
    whole_part <> "" /\ all Str.is_digit whole_part = true /\
    (dot = "" \/ dot = ".") /\
    all Str.is_digit fraction = true.

(** The pattern has no capturing group. *)
Fixpoint groupless (r : regex) : bool :=
  match r with
  | Eps | Chr _ | Bol | Eol => true
  | Seq r1 r2 | Alt r1 r2 => groupless r1 && groupless r2
  | Rep _ _ _ r' => groupless r'
  | Group _ => false
  end.

(** [String.prototype.toLowerCase], on ASCII letters. *)
Fixpoint lowercase (s : string) : string :=
  match s with
  | EmptyString => EmptyString
  | String c t => String (Str.lower c) (lowercase t)
  end.

(** The class of the source's "[A-Z:\/]" under the [i] flag. *)
Definition vector_char (c : ascii) : bool :=
  Str.is_upper c || Str.is_lower c || Ascii.eqb c ":" || Ascii.eqb c "/".

(** The strings of the source's vector pattern: "CVSS:3." in any case, a
    digit, a slash, and a non-empty run of letters, colons and slashes. *)
Definition vector_like (v : string) : Prop :=
  exists head d body,
    v = head ++ String d (String "/" body) /\
    lowercase head = "cvss:3." /\
    Str.is_digit d = true /\
    body <> "" /\ all vector_char body = true.

(** The class of the source's "[A-Z0-9_]". *)
Definition component_char (c : ascii) : bool :=
  Str.is_upper c || Str.is_digit c || Ascii.eqb c "_".

End RegexSpec.

(** ** Further runs *)

Module NotesSpec.
Import JS Notes.

(** A fallback request that gives [getNote] nothing to parse: the network
    failed, or the answer has an error status other than 404, or its body
    cannot be read. *)
Definition request_fails (env : Env) (endpoint token : string) : Prop :=
  match fetch env (baseUrl ++ endpoint) token with
  | Throw _ => True
  | Ok r =>
    (ok r = false /\ status r <> 404%nat) \/ exists e, text r = Throw e
  end.

(** The fields every record of [getNote] has a text in. *)
Definition filled (note : SapNoteDetail) : Prop :=
  truthy (summary note) = true /\
  truthy (content note) = true /\
  truthy (language note) = true /\
  truthy (releaseDate note) = true /\
  truthy (url note) = true.

(** A record with all of these, an id for a non-empty request, and a
    title. *)
Definition recorded (noteId : string) (note : SapNoteDetail) : Prop :=
  filled note /\
  (noteId <> "" -> truthy (id note) = true) /\
  truthy (title note) = true.

(** The items of [sapNote.SupportPackage.Items], when that is an
    array. *)
Definition support_items (sapNote : value) : list value :=
  match get_opt (get_opt sapNote "SupportPackage") "Items" with
  | VArr items => items
  | _ => []
  end.

(** A launchpad page that cannot be opened: the tab extraction finds
    neither a score nor a vector there. *)
Definition no_page : CvssPage :=
  {| page_url := "";
     nav_aborts := true;
     tab := fun _ => Hidden;
     body_has := None;
     score_text := None;
     score_cell := None;
     score_body := None;
     metric_row := fun _ => None |}.

(** The same world with the launchpad page out of reach. What [getNote]
    returns there is the record as the parse of the response built it,
    before any enhancement from the tab. *)
Definition without_tab (env : Env) : Env :=
  {| JSON_parse := JSON_parse env;
     fetch := fetch env;
     browse := fun noteId token =>
       let s := browse env noteId token in
       {| setup := setup s; goto := goto s; loaded := loaded s;
          bodyText := bodyText s; dom := dom s; launchpad := no_page |} |}.

End NotesSpec.

Module Cases.
Import JS.

(** A response body of the flat JSON kind whose text names a score and a
    vector. *)
Definition advisory_content : value :=
  VStr "Security note. CVSS Base Score: 9.8 Vector CVSS:3.0/AV:N/AC:L/PR:N/UI:N/S:U/C:H/I:H/A:H.".

(** A knowledge-article object with two support-package rows, one of them
    not of the component-and-number form. *)
Definition two_rows_note : value :=
  VObj [("SupportPackage",
    VObj [("Items",
      VArr [ VObj [("SoftwareComponentVersion", VStr "S4CORE 102");
                   ("SupportPackage", VStr "SAPK-10205INS4CORE")];
             VObj [("SoftwareComponentVersion", VStr "see note text")] ])])].

(** The network answers every request with a 404 page. *)
Definition not_found_page : Notes.Response :=
  {| Notes.status := 404;
     Notes.text := Ok "<html><head><title>SAP - Not Found</title></head></html>" |}.

Definition env_404 : Notes.Env :=
  {| Notes.JSON_parse := fun _ => Throw "SyntaxError";
     Notes.fetch := fun _ _ => Ok not_found_page;
     Notes.browse := Notes.browse Scenario.env_offline |}.

(** The network answers every request with a server error. *)
Definition env_500 : Notes.Env :=
  {| Notes.JSON_parse := fun _ => Throw "SyntaxError";
     Notes.fetch := fun _ _ =>
       Ok {| Notes.status := 500; Notes.text := Ok "Internal Server Error" |};
     Notes.browse := Notes.browse Scenario.env_offline |}.

(** The internal search finds one note. *)
Definition internal_hit : Search.SapNoteResult :=
  {| Search.id := VStr "1234567";
     Search.title := VStr "A note";
     Search.summary := VStr "No summary available";
     Search.language := VStr "EN";
     Search.releaseDate := VStr "2024-01-01";
     Search.component := VUndef;
     Search.url := VStr "https://launchpad.support.sap.com/#/notes/1234567" |}.

Definition coveo_down_internal_up : Search.Strategies :=
  {| Search.coveo := fun _ _ _ => Throw "Coveo API returned 401";
     Search.searchViaInternalAPI := fun _ _ _ => Ok [internal_hit] |}.

(** The response carries a vector with seven of the eight metrics and no
    score; the launchpad tab shows seven rows of the metric table and no
    score. *)
Definition partial_vector : string :=
  "CVSS:3.0/AV:N/AC:L/PR:N/UI:N/S:U/C:H/I:H".

Definition partial_text : string :=
  "{" ++ Scenario.q "Response" ++ ":{" ++ Scenario.q "SAPNote" ++ ":{"
  ++ Scenario.q "CVSS" ++ ":{" ++ Scenario.q "CVSS_Vector" ++ ":{"
  ++ Scenario.q "vectorValue" ++ ":" ++ Scenario.q partial_vector ++ "}}}}}".

Definition partial_json : value :=
  VObj [("Response",
    VObj [("SAPNote",
      VObj [("CVSS",
        VObj [("CVSS_Vector",
          VObj [("vectorValue", VStr partial_vector)])])])])].

Definition seven_rows_no_score : Notes.CvssPage :=
  {| Notes.page_url := Notes.page_url Scenario.table_page;
     Notes.nav_aborts := false;
     Notes.tab := Notes.tab Scenario.table_page;
     Notes.body_has := None;
     Notes.score_text := None;
     Notes.score_cell := None;
     Notes.score_body := None;
     Notes.metric_row := Notes.metric_row Scenario.seven_rows_page |}.

Definition env_partial : Notes.Env :=
  {| Notes.JSON_parse := Scenario.parse_only partial_text partial_json;
     Notes.fetch := fun _ _ => Throw "fetch failed";
     Notes.browse := fun _ _ =>
       Scenario.session partial_text seven_rows_no_score |}.

End Cases.


Module AuthSpec.
Import JS Auth.
Local Open Scope Z_scope.

(** A call that has returned has returned a token that is not empty. *)
Definition honest (c : pc) : Prop :=
  match c with
  | Returned tok => tok <> ""
  | _ => True
  end.

(** The time the launch loop has slept. *)
Fixpoint slept (acts : list action) : Z :=
  match acts with
  | [] => 0
  | Launch _ :: rest => slept rest
  | Sleep delayMs :: rest => delayMs + slept rest
  end.

(** Callers one after the other: each calls and is resumed before the
    next one calls. *)
Fixpoint one_by_one (times : list (Z * Z)) : list event :=
  match times with
  | [] => []
  | (now, now') :: rest => Call now :: Tick now' :: one_by_one rest
  end.

(** The calls that are past the guard of [ensureAuthenticated]. *)
Definition past_guard (c : pc) : bool :=
  match c with
  | AwaitGuard _ => false
  | AwaitOwn _ | Returned _ | Thrown _ => true
  end.

Fixpoint count_past (cs : list pc) : nat :=
  match cs with
  | [] => 0
  | c :: rest => (if past_guard c then 1 else 0) + count_past rest
  end.

End AuthSpec.

(** ** Cookie strings: [src/sap-notes-api.ts] *)

Module Cookies.
Import JS.

(** [s.split(sep)], for a separator of one code unit. *)
Fixpoint split (sep : ascii) (s : string) : list string :=
  match s with
  | EmptyString => [EmptyString]
  | String c t =>
    if Ascii.eqb c sep then EmptyString :: split sep t
    else match split sep t with
         | piece :: rest => String c piece :: rest
         | [] => [String c EmptyString]
         end
  end.

(** [s.indexOf(c)], [-1] when [c] does not occur. *)
Fixpoint indexOf (s : string) (c : ascii) : Z :=
  match s with
  | EmptyString => (-1)%Z
  | String x t =>
    if Ascii.eqb x c then 0%Z
    else let i := indexOf t c in if (i <? 0)%Z then (-1)%Z else (i + 1)%Z
  end.

(** [s.substring(0, b)] and [s.substring(a)]; a negative index counts
    as 0. *)
Definition substring_to (s : string) (b : Z) : string :=
  Str.take (Z.to_nat b) s.

Definition substring_from (s : string) (a : Z) : string :=
  Str.drop (Z.to_nat a) s.

(** [s.slice(1, -1)] *)
Definition slice_inner (s : string) : string :=
  Str.take (String.length s - 2) (Str.drop 1 s).

(** The entries [parseCookiesFromToken] builds. *)
Record BrowserCookie := {
  name : string;
  value : string;
  domain : string;
  path : string }.

Definition attributeNames : list string :=
  ["path"; "domain"; "secure"; "httponly"; "samesite"; "max-age"; "expires"].

(** [attributeNames.includes(name.toLowerCase())]. No attribute name has
    a letter that a code unit outside ASCII lowers to, so lowering the
    ASCII letters decides the test. *)
Definition is_attribute (name : string) : bool :=
  existsb (String.eqb (RegexSpec.lowercase name)) attributeNames.

(** [value.startsWith('"') && value.endsWith('"')] *)
Definition quoted (value : string) : bool :=
  Str.startsWith value Notes.dq && Str.endsWith value Notes.dq.

(** One turn of the loop of [parseCookiesFromToken]. *)
Definition parse_pair (cookies : list BrowserCookie) (pair : string)
    : list BrowserCookie :=
  let trimmed := Str.trim pair in
  if truthy (VStr trimmed) && Str.includes trimmed "=" then
    let equalIndex := indexOf trimmed "=" in
    let name := Str.trim (substring_to trimmed equalIndex) in
    let value := Str.trim (substring_from trimmed (equalIndex + 1)) in
    let value := if quoted value then slice_inner value else value in
    if truthy (VStr name) && truthy (VStr value)
       && (0 <? String.length name)%nat && (0 <? String.length value)%nat
    then
      if negb (is_attribute name) then
        (cookies ++ [ {| name := name; value := value;
                         domain := ".sap.com"; path := "/" |} ])%list
      else cookies
    else cookies
  else cookies.

(** [parseCookiesFromToken]. Nothing in its [try] block throws on a
    string, so its [catch] is never entered. *)
Definition parseCookiesFromToken (token : string) : list BrowserCookie :=
  fold_left parse_pair (split ";" token) [].

(** [formatCookiesForAPI]; [getCachedCookies] is what the cache file
    gives when it is asked. The cached cookies are joined as the
    authenticator joins them. *)
Definition formatCookiesForAPI (getCachedCookies : outcome (list Auth.Cookie))
    (sapToken : string) : string :=
  if Str.includes sapToken "=" then sapToken
  else
    match getCachedCookies with
    | Ok cookies =>
      if (0 <? length cookies)%nat then Auth.cookieString cookies
      else sapToken
    | Throw _ => sapToken
    end.

(** The code unit does not occur in the string. *)
Definition lacks (c : ascii) (s : string) : Prop :=
  RegexSpec.all (fun x => negb (Ascii.eqb x c)) s = true.

(** A cookie whose name and value survive being joined and parsed
    again. *)
Definition plain (c : Auth.Cookie) : Prop :=
  Auth.cookie_name c <> "" /\ Auth.cookie_value c <> "" /\
  Str.trim (Auth.cookie_name c) = Auth.cookie_name c /\
  Str.trim (Auth.cookie_value c) = Auth.cookie_value c /\
  lacks "=" (Auth.cookie_name c) /\ lacks ";" (Auth.cookie_name c) /\
  lacks ";" (Auth.cookie_value c) /\
  quoted (Auth.cookie_value c) = false /\
  is_attribute (Auth.cookie_name c) = false.

(** The browser cookie of a cookie of the authenticator. *)
Definition of_cookie (c : Auth.Cookie) : BrowserCookie :=
  {| name := Auth.cookie_name c; value := Auth.cookie_value c;
     domain := ".sap.com"; path := "/" |}.

End Cookies.

(** ** Coveo results: [parseCoveoResponse] *)

Module Coveo.
Import JS Regex.

(** What the runtime does for the two conversions the parser asks of it:
    [new Date(v).toISOString()], which throws a RangeError on an invalid
    date, and the conversion of a value that is not a string to a string
    in a template literal. *)
Record Runtime := {
  toISOString : value -> outcome string;
  toText : value -> outcome string }.

(** Source pattern: "/\d{6,8}/" *)
Definition re_note_number : regex := Rep true 6 (Some 8) digit.

Definition is_array (v : value) : bool :=
  match v with VArr _ => true | _ => false end.

(** [a[0]] of an array *)
Definition first_item (v : value) : value :=
  match v with
  | VArr (x :: _) => x
  | _ => VUndef
  end.

(** The elements a [for ... of] loop over an array visits. *)
Definition elements (v : value) : list value :=
  match v with
  | VArr items => items
  | _ => []
  end.

(** [v?.match(re)?.[0]]: calling [match] on a value that is neither
    nullish nor a string is a TypeError. *)
Definition match0 (v : value) : outcome value :=
  match v with
  | VUndef | VNull => Ok VUndef
  | VStr s =>
    Ok (match exec re_note_number s with
        | Some h => VStr (whole s h)
        | None => VUndef
        end)
  | _ => Throw type_error
  end.

(** [v?.substring(0, 60)], for what it throws. *)
Definition substring_call (v : value) : outcome unit :=
  match v with
  | VUndef | VNull | VStr _ => Ok tt
  | _ => Throw type_error
  end.

(** [a || b], where [b] is evaluated only when [a] is falsy. *)
Definition or_else (a : value) (b : outcome value) : outcome value :=
  if truthy a then Ok a else b.

Section Parser.
Variable rt : Runtime.

(** A value inside a template literal. *)
Definition show (v : value) : outcome string :=
  match v with
  | VStr s => Ok s
  | _ => toText rt v
  end.

(** The body of the loop, up to [results.push(result)]. *)
Definition parse_item (item : value) : outcome Search.SapNoteResult :=
  raw ← get item "raw";
  noteId ← or_else (get_opt raw "mh_id")
             (fromPermanentId ← match0 (get_opt raw "permanentid");
              or_else fromPermanentId
                (fromTitle ← match0 (get_opt item "title");
                 mret (fromTitle ||| VStr "unknown")));
  let languageArray :=
    get_opt raw "language" ||| get_opt raw "syslanguage" ||| VArr [] in
  let language :=
    if is_array languageArray then first_item languageArray
    else languageArray ||| VStr "EN" in
  let componentArray :=
    get_opt raw "mh_app_component"
    ||| get_opt raw "mh_all_hierarchical_component" ||| VArr [] in
  let component :=
    if is_array componentArray then first_item componentArray
    else componentArray in
  releaseDate ←
    (if truthy (get_opt raw "date")
     then iso ← toISOString rt (get_opt raw "date");
          mret (VStr (hd "" (Cookies.split "T" iso)))
     else mret (VStr "Unknown"));
  url ← or_else (get_opt raw "mh_alt_url" ||| get_opt item "clickUri")
          (shown ← show noteId;
           mret (VStr ("https://launchpad.support.sap.com/#/notes/" ++ shown)));
  let result :=
    {| Search.id := noteId;
       Search.title := get_opt item "title" ||| VStr "Unknown Title";
       Search.summary :=
         get_opt item "excerpt" ||| get_opt raw "mh_description"
         ||| VStr "No summary available";
       Search.language := language;
       Search.releaseDate := releaseDate;
       Search.component := component;
       Search.url := url |} in
  (* the debug line before the push *)
  _ ← show noteId;
  _ ← substring_call (get_opt item "title");
  mret result.

(** The loop: an item whose body throws is skipped. *)
Fixpoint parse_items (items : list value) (results : list Search.SapNoteResult)
    : list Search.SapNoteResult :=
  match items with
  | [] => results
  | item :: rest =>
    parse_items rest
      (match parse_item item with
       | Ok result => (results ++ [result])%list
       | Throw _ => results
       end)
  end.

(** [parseCoveoResponse] *)
Definition parseCoveoResponse (data : value)
    : outcome (list Search.SapNoteResult) :=
  results ← get data "results";
  if negb (truthy results) || negb (is_array results) then mret []
  else mret (parse_items (elements results) []).

End Parser.

(** The items of [data.results]. *)
Definition items_of (data : value) : list value :=
  elements (get_opt data "results").

(** A run of six to eight digits. *)
Definition note_number (g : string) : Prop :=
  RegexSpec.all Str.is_digit g = true /\
  (6 <= String.length g <= 8)%nat.

(** What every parsed result looks like, [item] being the item it was
    made from. *)
Definition result_shape (item : value) (r : Search.SapNoteResult) : Prop :=
  (exists t, Search.title r = VStr t /\ t <> "") /\
  truthy (Search.id r) = true /\
  truthy (Search.summary r) = true /\
  truthy (Search.url r) = true /\
  (exists d, Search.releaseDate r = VStr d) /\
  ((Search.id r = get_opt (get_opt item "raw") "mh_id")
   \/ (exists g, Search.id r = VStr g /\ note_number g)
   \/ Search.id r = VStr "unknown").

(** A response with two items: one with an id of its own, one whose
    title is a number. *)
Definition sample_runtime : Runtime :=
  {| toISOString := fun _ => Ok "2024-03-05T00:00:00.000Z";
     toText := fun _ => Ok "0" |}.

Definition sample_data : value :=
  VObj [("results",
    VArr [ VObj [("title", VStr "Memory leak in kernel");
                 ("raw", VObj [("mh_id", VStr "2744792");
                               ("date", VStr "1709596800000")])];
           VObj [("title", VNum (S754_finite false 7 0));
                 ("raw", VObj [("mh_id", VStr "1234567")])] ])].

End Coveo.

(** ** Health check and internal search: [src/sap-notes-api.ts] *)

Module Client.
Import JS.

(** What the internal search needs of the runtime besides the network:
    [encodeURIComponent], which throws a URIError on a malformed string,
    the [JSON.stringify] of the knowledge-search request, and
    [parseInternalSearchResponse], whose whole body sits in a [try] that
    answers [[]] when anything in it throws. *)
Record Runtime := {
  encodeURIComponent : string -> outcome string;
  knowledgeSearchRequest : string -> string;
  parseInternalSearchResponse :
    Notes.Response -> string -> list Search.SapNoteResult }.

Section Env.
Variable env : Notes.Env.
Variable rt : Runtime.

(** [healthCheck] *)
Definition healthCheck (token : string) : outcome bool :=
  catch
    (response ← Notes.makeRequest env
                   "/services/odata/svt/snogwscorr/$metadata" token;
     mret (Notes.ok response))
    (fun _ => mret false).

(** The loop of [searchViaInternalAPI] over its endpoints. *)
Fixpoint search_endpoints (searchEndpoints : list string)
    (query token : string) (maxResults : nat) : list Search.SapNoteResult :=
  match searchEndpoints with
  | [] => []
  | endpoint :: rest =>
    match Notes.makeRequest env endpoint token with
    | Ok response =>
      if Notes.ok response then
        let results := parseInternalSearchResponse rt response query in
        if (0 <? length results)%nat
        then take maxResults results
        else search_endpoints rest query token maxResults
      else search_endpoints rest query token maxResults
    | Throw _ => search_endpoints rest query token maxResults
    end
  end.

(** [searchViaInternalAPI] *)
Definition searchViaInternalAPI (query token : string) (maxResults : nat)
    : outcome (list Search.SapNoteResult) :=
  knowledge ← encodeURIComponent rt (knowledgeSearchRequest rt query);
  simplified ← encodeURIComponent rt query;
  backend ← encodeURIComponent rt query;
  let searchEndpoints :=
    [ "/knowledge/search/" ++ knowledge;
      "/support/search?q=" ++ simplified ++ "&type=note&format=json";
      "/backend/raw/sapnotes/Search?q=" ++ backend ++ "&t=E&maxResults="
        ++ pretty maxResults ] in
  mret (search_endpoints searchEndpoints query token maxResults).

(** [searchNotes] with this internal search behind its second fallback. *)
Definition strategies
    (coveo : string -> string -> nat -> outcome Search.SapNoteSearchResponse)
    : Search.Strategies :=
  {| Search.coveo := coveo;
     Search.searchViaInternalAPI := searchViaInternalAPI |}.

End Env.

(** A runtime where the encoding is the identity and every body parses
    into the same three hits. *)
Definition three_hits : list Search.SapNoteResult :=
  [Cases.internal_hit; Cases.internal_hit; Cases.internal_hit].

Definition sample_runtime : Runtime :=
  {| encodeURIComponent := fun s => Ok s;
     knowledgeSearchRequest := fun q => q;
     parseInternalSearchResponse := fun _ _ => three_hits |}.

(** The network answers every request with an empty page, status 200. *)
Definition env_200 : Notes.Env :=
  {| Notes.JSON_parse := fun _ => Throw "SyntaxError";
     Notes.fetch := fun _ _ => Ok {| Notes.status := 200; Notes.text := Ok "" |};
     Notes.browse := Notes.browse Scenario.env_offline |}.

End Client.

(** ** The two tools: [src/mcp-server.ts], [src/http-mcp-server.ts]

    Both servers register the same two handlers. *)

Module Tools.
Import JS.

(** [interface ToolResult], with the structured content the handlers add.
    A result without [isError] is [isError := false]. *)
Record ToolResult (S : Type) := {
  text : string;
  structuredContent : option S;
  isError : bool }.
Arguments text {S} _.
Arguments structuredContent {S} _.
Arguments isError {S} _.

(** The [output] of [sap_note_get]. [affectedVersions] is [null] or the
    list. *)
Record NoteOutput := {
  id : value;
  title : value;
  summary : value;
  component : value;
  priority : value;
  category : value;
  releaseDate : value;
  language : value;
  url : value;
  content : value;
  cvssScore : value;
  cvssVector : value;
  affectedVersions : option (list Notes.SoftwareComponentVersion) }.

(** The [output] of [sap_note_search]. *)
Record SearchOutput := {
  totalResults : value;
  query : string;
  results : list Search.SapNoteResult }.

(** "→" *)
Definition arrow : string :=
  String "226" (String "134" (String "146" EmptyString)).

(** [v || null] *)
Definition or_null (v : value) : value := v ||| VNull.

Section Handlers.
Variable env : Notes.Env.
Variable strategies : Search.Strategies.

(** The conversion of a value that is not a string to a string inside a
    template literal. *)
Variable toText : value -> outcome string.

Definition show (v : value) : outcome string :=
  match v with
  | VStr s => Ok s
  | _ => toText v
  end.

(** The lines of the affected versions. *)
Fixpoint version_lines (versions : list Notes.SoftwareComponentVersion)
    (resultText : string) : outcome string :=
  match versions with
  | [] => mret resultText
  | version :: rest =>
    supportPackage ← show (Notes.scv_supportPackage version);
    version_lines rest
      (resultText ++ "  - " ++ Notes.scv_component version ++ " "
       ++ Notes.scv_version version ++ " " ++ arrow ++ " " ++ supportPackage
       ++ Notes.nl)
  end.

(** The display text of [sap_note_get]. *)
Definition note_text (output : NoteOutput) : outcome string :=
  id' ← show (id output);
  let resultText :=
    "**SAP Note " ++ id' ++ " - Detailed Information**" ++ Notes.nl ++ Notes.nl in
  title' ← show (title output);
  let resultText := resultText ++ "**Title:** " ++ title' ++ Notes.nl in
  summary' ← show (summary output);
  let resultText := resultText ++ "**Summary:** " ++ summary' ++ Notes.nl in
  component' ← show (component output ||| VStr "Not specified");
  let resultText := resultText ++ "**Component:** " ++ component' ++ Notes.nl in
  priority' ← show (priority output ||| VStr "Not specified");
  let resultText := resultText ++ "**Priority:** " ++ priority' ++ Notes.nl in
  category' ← show (category output ||| VStr "Not specified");
  let resultText := resultText ++ "**Category:** " ++ category' ++ Notes.nl in
  releaseDate' ← show (releaseDate output);
  let resultText :=
    resultText ++ "**Release Date:** " ++ releaseDate' ++ Notes.nl in
  language' ← show (language output);
  let resultText := resultText ++ "**Language:** " ++ language' ++ Notes.nl in
  resultText ←
    (if truthy (cvssScore output)
     then cvssScore' ← show (cvssScore output);
          mret (resultText ++ "**CVSS Score:** " ++ cvssScore' ++ Notes.nl)
     else mret resultText);
  resultText ←
    (if truthy (cvssVector output)
     then cvssVector' ← show (cvssVector output);
          mret (resultText ++ "**CVSS Vector:** " ++ cvssVector' ++ Notes.nl)
     else mret resultText);
  resultText ←
    match affectedVersions output with
    | Some versions =>
      if (0 <? length versions)%nat
      then version_lines versions
             (resultText ++ "**Affected Versions (" ++ pretty (length versions)
              ++ "):**" ++ Notes.nl)
      else mret resultText
    | None => mret resultText
    end;
  url' ← show (url output);
  let resultText :=
    resultText ++ "**URL:** " ++ url' ++ Notes.nl ++ Notes.nl in
  content' ← show (content output);
  mret (resultText ++ "**Content:**" ++ Notes.nl ++ content'
        ++ Notes.nl ++ Notes.nl).

(** The handler of [sap_note_get]. [ensureAuthenticated] is how the call
    of the authenticator ends. *)
Definition sap_note_get (ensureAuthenticated : outcome string) (id : string)
    : outcome (ToolResult NoteOutput) :=
  catch
    (token ← ensureAuthenticated;
     noteDetail ← Notes.getNote env id token;
     match noteDetail with
     | None =>
       mret {| text := "SAP Note " ++ id ++ " not found or not accessible.";
               structuredContent := None;
               isError := true |}
     | Some noteDetail =>
       let output :=
         {| id := Notes.id noteDetail;
            title := Notes.title noteDetail;
            summary := Notes.summary noteDetail;
            component := or_null (Notes.component noteDetail);
            priority := or_null (Notes.priority noteDetail);
            category := or_null (Notes.category noteDetail);
            releaseDate := Notes.releaseDate noteDetail;
            language := Notes.language noteDetail;
            url := Notes.url noteDetail;
            content := Notes.content noteDetail;
            cvssScore := or_null (Notes.cvssScore noteDetail);
            cvssVector := or_null (Notes.cvssVector noteDetail);
            affectedVersions := Notes.affectedVersions noteDetail |} in
       resultText ← note_text output;
       mret {| text := resultText;
               structuredContent := Some output;
               isError := false |}
     end)
    (fun errorMessage =>
       mret {| text := "Failed to retrieve SAP Note " ++ id ++ ": "
                       ++ errorMessage;
               structuredContent := None;
               isError := true |}).

(** The lines of the results of a search. *)
Fixpoint result_lines (notes : list Search.SapNoteResult) (resultText : string)
    : outcome string :=
  match notes with
  | [] => mret resultText
  | note :: rest =>
    id' ← show (Search.id note);
    title' ← show (Search.title note);
    summary' ← show (Search.summary note);
    component' ← show (Search.component note ||| VStr "Not specified");
    releaseDate' ← show (Search.releaseDate note);
    language' ← show (Search.language note);
    url' ← show (Search.url note);
    result_lines rest
      (resultText
       ++ "**SAP Note " ++ id' ++ "**" ++ Notes.nl
       ++ "Title: " ++ title' ++ Notes.nl
       ++ "Summary: " ++ summary' ++ Notes.nl
       ++ "Component: " ++ component' ++ Notes.nl
       ++ "Release Date: " ++ releaseDate' ++ Notes.nl
       ++ "Language: " ++ language' ++ Notes.nl
       ++ "URL: " ++ url' ++ Notes.nl ++ Notes.nl)
  end.

(** The handler of [sap_note_search]. *)
Definition sap_note_search (ensureAuthenticated : outcome string) (q : string)
    : outcome (ToolResult SearchOutput) :=
  catch
    (token ← ensureAuthenticated;
     searchResponse ← Search.searchNotes env strategies q token 10;
     let output :=
       {| totalResults := Search.totalResults searchResponse;
          query := Search.query searchResponse;
          results :=
            map (fun note =>
                   {| Search.id := Search.id note;
                      Search.title := Search.title note;
                      Search.summary := Search.summary note;
                      Search.component := or_null (Search.component note);
                      Search.releaseDate := Search.releaseDate note;
                      Search.language := Search.language note;
                      Search.url := Search.url note |})
                (Search.results searchResponse) |} in
     totalResults' ← show (totalResults output);
     resultText ←
       result_lines (results output)
         ("Found " ++ totalResults' ++ " SAP Note(s) for query: " ++ Notes.dq
          ++ query output ++ Notes.dq ++ Notes.nl ++ Notes.nl);
     mret {| text := resultText;
             structuredContent := Some output;
             isError := false |})
    (fun errorMessage =>
       mret {| text := "Search failed: " ++ errorMessage;
               structuredContent := None;
               isError := true |}).

End Handlers.

(** A field that is [null] or truthy. *)
Definition null_or_truthy (v : value) : Prop :=
  v = VNull \/ truthy v = true.

(** A runtime that prints every value that is not a string as the word
    null. *)
Definition plain_text (v : value) : outcome string := Ok "null".

End Tools.

(** ** The Coveo token and the browser kept for it: [src/sap-notes-api.ts] *)

Module Tokens.
Import JS.
Local Open Scope Z_scope.

(** The fields of the client that [getCoveoTokenWithPlaywright] and
    [cleanup] read and write. A browser is known by the number of the
    launch that made it; [closed] lists the browsers closed so far. *)
Record Browsers := {
  browser : option nat;
  browserContext : option nat;
  browserLastUsed : Z;
  launches : nat;
  closed : list nat }.

Definition fresh : Browsers :=
  {| browser := None; browserContext := None; browserLastUsed := 0;
     launches := 0; closed := [] |}.

Definition BROWSER_IDLE_TIMEOUT : Z := 5 * 60 * 1000.

(** What one call of [getCoveoTokenWithPlaywright] meets outside the
    program. *)
Record Attempt := {
  isConnected : bool;          (* of the browser that is held *)
  launch : outcome unit;       (* [chromium.launch] *)
  newContext : outcome unit;   (* [browser.newContext] *)
  addCookies : outcome unit;
      (* the cookies: the filters over the cached ones, [addCookies] *)
  newPage : outcome unit;      (* [newPage], and the test of its result *)
  redirectedToLogin : bool;
      (* a response or the page's own URL is a login page *)
  extract : outcome value
      (* the rest of the [try] block: the last value of [coveoToken] *) }.

(** [await this.browser.close().catch(() => {}); this.browser = null;
    this.browserContext = null], under [if (this.browser)]. *)
Definition close (st : Browsers) : Browsers :=
  match browser st with
  | Some b =>
    {| browser := None; browserContext := None;
       browserLastUsed := browserLastUsed st; launches := launches st;
       closed := (closed st ++ [b])%list |}
  | None => st
  end.

Definition with_browser (b : nat) (st : Browsers) : Browsers :=
  {| browser := Some b; browserContext := browserContext st;
     browserLastUsed := browserLastUsed st; launches := S (launches st);
     closed := closed st |}.

Definition with_context (b : nat) (st : Browsers) : Browsers :=
  {| browser := browser st; browserContext := Some b;
     browserLastUsed := browserLastUsed st; launches := launches st;
     closed := closed st |}.

Definition with_lastUsed (now : Z) (st : Browsers) : Browsers :=
  {| browser := browser st; browserContext := browserContext st;
     browserLastUsed := now; launches := launches st;
     closed := closed st |}.

(** The [try] block, with the state it leaves. *)
Definition attempt (now : Z) (a : Attempt) (st : Browsers)
    : Browsers * outcome value :=
  let st :=
    if Notes.present (browser st)
       && (BROWSER_IDLE_TIMEOUT <? now - browserLastUsed st)
    then close st else st in
  let '(st, ready) :=
    if negb (Notes.present (browser st)) || negb (isConnected a) then
      match launch a with
      | Throw e => (st, Throw e)
      | Ok _ =>
        let b := launches st in
        let st := with_browser b st in
        match newContext a with
        | Throw e => (st, Throw e)
        | Ok _ =>
          let st := with_context b st in
          match addCookies a with
          | Throw e => (st, Throw e)
          | Ok _ => (st, Ok tt)
          end
        end
      end
    else (st, Ok tt) in
  match ready with
  | Throw e => (st, Throw e)
  | Ok _ =>
    let st := with_lastUsed now st in
    match browserContext st with
    | None => (st, Throw type_error)
    | Some _ =>
      match newPage a with
      | Throw e => (st, Throw e)
      | Ok _ =>
        if redirectedToLogin a then
          (st, Throw "Session expired - authentication required. Run test:auth to refresh credentials.")
        else
          match extract a with
          | Throw e => (st, Throw e)
          | Ok coveoToken =>
            if truthy coveoToken then (st, Ok coveoToken)
            else (st, Throw "Unable to extract Coveo token from SAP search page")
          end
      end
    end
  end.

(** [getCoveoTokenWithPlaywright], called at time [now]. *)
Definition getCoveoTokenWithPlaywright (now : Z) (a : Attempt) (st : Browsers)
    : Browsers * outcome value :=
  match attempt now a st with
  | (st, Ok coveoToken) => (st, Ok coveoToken)
  | (st, Throw message) =>
    if Str.includes message "Session expired"
    then (close st, Throw "SESSION_EXPIRED")
    else (st, Throw ("Failed to get Coveo bearer token: " ++ message))
  end.

(** [cleanup] *)
Definition cleanup (st : Browsers) : Browsers := close st.

(** A response as [getCoveoTokenDirect] reads it. *)
Record DirectResponse := {
  d_ok : bool;
  d_statusLine : string;     (* [`${status} ${statusText}`] *)
  d_errorBody : string;
      (* [text()], or "Could not read error body" when that throws *)
  d_json : outcome value }.

(** The network as [getCoveoTokenDirect] uses it: URL and cookie
    header. *)
Record Direct := {
  request : string -> string -> outcome DirectResponse }.

Definition appUrl : string :=
  "https://me.sap.com/backend/raw/core/Applications/coveo".
Definition tokenUrl : string :=
  "https://me.sap.com/backend/raw/coveo/CoveoToken".

(** [getCoveoTokenDirect]; its [catch] throws again what it caught. *)
Definition getCoveoTokenDirect (d : Direct)
    (getCachedCookies : outcome (list Auth.Cookie)) (sapToken : string)
    : outcome value :=
  let formattedCookies :=
    Cookies.formatCookiesForAPI getCachedCookies sapToken in
  appResponse ← request d appUrl formattedCookies;
  if negb (d_ok appResponse) then
    Throw ("Coveo app initialization failed: " ++ d_statusLine appResponse
           ++ ". Response: " ++ Str.take 100 (d_errorBody appResponse))
  else
    appData ← d_json appResponse;
    tokenResponse ← request d tokenUrl formattedCookies;
    if negb (d_ok tokenResponse) then
      Throw ("Coveo token request failed: " ++ d_statusLine tokenResponse)
    else
      tokenData ← d_json tokenResponse;
      token ← get tokenData "token";
      if negb (truthy token) then Throw "Token not found in response"
      else mret token.

(** [getCoveoToken], called at time [now]: the direct way first, the
    browser when that throws. *)
Definition getCoveoToken (d : Direct)
    (getCachedCookies : outcome (list Auth.Cookie)) (now : Z) (a : Attempt)
    (sapToken : string) (st : Browsers) : Browsers * outcome value :=
  match getCoveoTokenDirect d getCachedCookies sapToken with
  | Ok token => (st, Ok token)
  | Throw _ => getCoveoTokenWithPlaywright now a st
  end.

(** The browser a state holds was launched, and not closed since. *)
Definition well_formed (st : Browsers) : Prop :=
  (forall b, browser st = Some b -> (b < launches st)%nat /\ b ∉ closed st) /\
  (forall b, b ∈ closed st -> (b < launches st)%nat) /\
  (browser st = None -> browserContext st = None).


Definition good_visit : Attempt :=
  {| isConnected := true; launch := Ok tt; newContext := Ok tt;
     addCookies := Ok tt; newPage := Ok tt; redirectedToLogin := false;
     extract := Ok (VStr "xx-coveo-token") |}.

Definition no_direct : Direct :=
  {| request := fun _ _ => Throw "fetch failed" |}.

End Tokens.
(** * Properties *)

(** ** The exception monad *)

Section OutcomeFacts.
Import JS.
Context {A B : Type}.

Lemma bind_Ok (m : outcome A) (k : A -> outcome B) (b : B) :
  m ≫= k = Ok b -> exists a, m = Ok a /\ k a = Ok b.
Proof.
  destruct m as [a|e]; simpl; intros H; [eauto | discriminate].
Qed.

Lemma fmap_Ok (f : A -> B) (m : outcome A) (b : B) :
  f <$> m = Ok b -> exists a, m = Ok a /\ b = f a.
Proof.
  destruct m as [a|e]; simpl; intros H; [|discriminate].
  injection H as <-. eauto.
Qed.

Lemma fmap_Some_Ok (m : outcome A) (a : A) :
  Some <$> m = Ok (Some a) -> m = Ok a.
Proof.
  destruct m as [x|e]; simpl; intros H; [|discriminate].
  now injection H as ->.
Qed.

Lemma returned_Some (m : outcome (option A)) (a : A) :
  Notes.returned m = Some a -> m = Ok (Some a).
Proof.
  destruct m as [[x|]|e]; simpl; intros H; try discriminate.
  now injection H as ->.
Qed.

End OutcomeFacts.

Ltac invert_outcome :=
  repeat match goal with
  | H : _ ≫= _ = JS.Ok _ |- _ =>
      apply bind_Ok in H; destruct H as (? & ? & H)
  | H : Some <$> _ = JS.Ok (Some _) |- _ => apply fmap_Some_Ok in H
  | H : mret _ = JS.Ok _ |- _ => injection H as H
  | H : JS.Ok _ = JS.Ok _ |- _ => injection H as H
  | H : Some _ = Some _ |- _ => injection H as H
  | H : JS.Throw _ = JS.Ok _ |- _ => discriminate H
  | H : None = Some _ |- _ => discriminate H
  | H : Notes.returned _ = Some _ |- _ => apply returned_Some in H
  end.

(** ** Where the records of [getNote] come from *)

Section Provenance.
Import JS Notes.
Variable env : Env.

Lemma json_text_origin text generic page noteId note :
  note_from_json_text env text generic page noteId = Ok (Some note) ->
  (exists jsonData response,
      JSON_parse env text = Ok jsonData /\
      get jsonData "Response" = Ok response /\
      note_from_envelope (field response "SAPNote") page noteId = Ok note)
  \/ (exists jsonData,
      JSON_parse env text = Ok jsonData /\
      generic jsonData page noteId = Ok note).
Proof.
  unfold note_from_json_text.
  destruct (_ && _); [|discriminate].
  intros H. invert_outcome.
  destruct (_ && _); invert_outcome; subst; eauto 8.
Qed.

Lemma getNoteWithPlaywright_origin noteId token note :
  getNoteWithPlaywright env noteId token = Ok (Some note) ->
  origin env noteId note.
Proof.
  unfold getNoteWithPlaywright, catch.
  set (s := browse env noteId token).
  match goal with |- match ?m with _ => _ end = _ -> _ =>
    destruct m as [r|] eqn:E; [|discriminate]
  end.
  intros [= ->].
  apply bind_Ok in E as ([] & _ & E).
  apply bind_Ok in E as (response & _ & E).
  destruct response as [[[] st]|]; try discriminate.
  apply bind_Ok in E as (content & _ & E).
  match type of E with context [returned ?m] =>
    destruct (returned m) as [n1|] eqn:E1
  end.
  { injection E as <-. invert_outcome.
    destruct x as [t|]; [|discriminate].
    destruct (truthy (VStr t)); [|discriminate].
    apply json_text_origin in E1 as [(j & r & ? & ? & ?)|(j & ? & ?)].
    - eapply of_envelope; eauto.
    - eapply of_body_json; eauto. }
  clear E1.
  match type of E with context [returned ?m] =>
    destruct (returned m) as [n2|] eqn:E2
  end.
  { injection E as <-. invert_outcome.
    destruct (Regex.exec re_body content) as [h|]; [|discriminate].
    destruct (Regex.group h 1) as [inner|]; [|discriminate].
    destruct (truthy (VStr inner)); [|discriminate].
    apply json_text_origin in E2 as [(j & r & ? & ? & ?)|(j & ? & ?)].
    - eapply of_envelope; eauto.
    - eapply of_html_json; eauto. }
  clear E2.
  apply bind_Ok in E as (d & _ & E).
  destruct (found (scrape d)); [|discriminate].
  invert_outcome. eapply of_dom; eauto.
Qed.

Lemma parseRawNoteDetail_origin response noteId note :
  parseRawNoteDetail env response noteId = Ok (Some note) ->
  origin env noteId note.
Proof.
  unfold parseRawNoteDetail. intros H.
  apply bind_Ok in H as (responseText & _ & H).
  match type of H with context [returned ?m] =>
    destruct (returned m) as [n|] eqn:E
  end.
  - injection H as <-. invert_outcome.
    destruct (_ && _); invert_outcome.
    eapply of_raw_json; eauto.
  - destruct (_ && _); injection H as <-.
    + now apply of_redirect.
    + now eapply of_html.
Qed.

Lemma parseNoteResponse_origin response noteId note :
  parseNoteResponse env response noteId = Ok (Some note) ->
  origin env noteId note.
Proof.
  unfold parseNoteResponse. intros H.
  apply bind_Ok in H as (responseText & _ & H).
  match type of H with context [returned ?m] =>
    destruct (returned m) as [n|] eqn:E
  end.
  - injection H as <-. invert_outcome.
    destruct (truthy _); invert_outcome.
    eapply of_odata; eauto.
  - injection H as <-. now eapply of_html.
Qed.

Lemma try_endpoints_origin endpoints noteId token note :
  try_endpoints env endpoints noteId token = Some note ->
  origin env noteId note.
Proof.
  induction endpoints as [|endpoint rest IH]; simpl; [discriminate|].
  destruct (returned _) as [n|] eqn:E; [|exact IH].
  intros [= <-]. invert_outcome.
  unfold endpoint_attempt in E. invert_outcome.
  eapply parseNoteResponse_origin; eauto.
Qed.

Lemma getNote_origin noteId token note :
  getNote env noteId token = Ok (Some note) ->
  origin env noteId note.
Proof.
  unfold getNote, catch.
  destruct (returned (getNoteWithPlaywright _ _ _)) as [n|] eqn:E1.
  { intros [= <-]. invert_outcome.
    eapply getNoteWithPlaywright_origin; eauto. }
  destruct (returned (raw_attempt _ _ _)) as [n|] eqn:E2.
  { intros [= <-]. invert_outcome.
    unfold raw_attempt in E2. invert_outcome.
    destruct (ok _); [|discriminate].
    eapply parseRawNoteDetail_origin; eauto. }
  intros H.
  assert (H' : try_endpoints env (fallbackEndpoints noteId) noteId token
               = Some note) by (unfold mret, outcome_ret in H; congruence).
  eapply try_endpoints_origin; exact H'.
Qed.

(** [getNote] catches what its strategies throw. *)
Lemma getNote_total noteId token :
  exists r, getNote env noteId token = Ok r.
Proof.
  unfold getNote, catch.
  destruct (returned (getNoteWithPlaywright _ _ _)); [eexists; reflexivity|].
  destruct (returned (raw_attempt _ _ _)); eexists; reflexivity.
Qed.

(** *** What the builders put into [url] and [id] *)

Lemma enhance_url noteDetail page noteId :
  url (enhanceWithCvssFromTab noteDetail page noteId) = url noteDetail.
Proof.
  unfold enhanceWithCvssFromTab.
  destruct (_ && _); [reflexivity|]. destruct (_ || _); reflexivity.
Qed.

Lemma enhance_id noteDetail page noteId :
  id (enhanceWithCvssFromTab noteDetail page noteId) = id noteDetail.
Proof.
  unfold enhanceWithCvssFromTab.
  destruct (_ && _); [reflexivity|]. destruct (_ || _); reflexivity.
Qed.

Lemma envelope_fields sapNote page noteId note :
  note_from_envelope sapNote page noteId = Ok note ->
  url note = VStr (launchpad_url noteId) /\
  id note = path sapNote ["Header"; "Number"; "value"] ||| VStr noteId.
Proof.
  unfold note_from_envelope. intros H.
  apply bind_Ok in H as (sv & _ & H).
  injection H as <-.
  assert (Hid : get_opt (field (field sapNote "Header" ||| VObj []) "Number") "value"
                ||| VStr noteId
                = path sapNote ["Header"; "Number"; "value"] ||| VStr noteId).
  { unfold path, field, or; simpl.
    destruct (truthy (get_opt sapNote "Header")) eqn:T; [reflexivity|].
    destruct (get_opt sapNote "Header") as [| | | | |l|props]; try reflexivity;
      discriminate. }
  destruct (_ || _); rewrite ?enhance_url, ?enhance_id; simpl; auto.
Qed.

Lemma body_json_fields jsonData page noteId note :
  note_from_body_json jsonData page noteId = Ok note ->
  url note = VStr (launchpad_url noteId) /\
  id note = field jsonData "SapNote" ||| field jsonData "id" ||| VStr noteId.
Proof.
  unfold note_from_body_json. intros H.
  apply bind_Ok in H as (sv & _ & H). injection H as <-.
  rewrite enhance_url, enhance_id. auto.
Qed.

Lemma html_json_fields jsonData page noteId note :
  note_from_html_json jsonData page noteId = Ok note ->
  url note = VStr (launchpad_url noteId) /\
  id note = field jsonData "SapNote" ||| field jsonData "id" ||| VStr noteId.
Proof.
  unfold note_from_html_json. intros H.
  apply bind_Ok in H as (sv & _ & H). injection H as <-.
  rewrite enhance_url, enhance_id. auto.
Qed.

Lemma dom_fields noteData page noteId note :
  note_from_dom noteData page noteId = Ok note ->
  url note = VStr (launchpad_url noteId) /\ id note = VStr noteId.
Proof.
  unfold note_from_dom. intros H.
  apply bind_Ok in H as (sv & _ & H). injection H as <-.
  rewrite enhance_url, enhance_id. auto.
Qed.

Lemma raw_json_fields jsonData noteId note :
  note_from_raw_json jsonData noteId = Ok note ->
  url note = VStr (launchpad_url noteId) /\
  id note = field jsonData "SapNote" ||| field jsonData "id"
            ||| field jsonData "noteId" ||| VStr noteId.
Proof.
  unfold note_from_raw_json. intros H.
  apply bind_Ok in H as (sv & _ & H). injection H as <-. auto.
Qed.

Lemma odata_fields item noteId note :
  mapToSapNoteDetail item noteId = Ok note ->
  url note = VStr (launchpad_url noteId) /\
  id note = field item "SapNote" ||| field item "Id" ||| field item "id"
            ||| VStr noteId.
Proof.
  unfold mapToSapNoteDetail. intros H.
  apply bind_Ok in H as (sv & _ & H). injection H as <-. auto.
Qed.

Lemma get_Ok o f v : get o f = Ok v -> v = get_opt o f.
Proof. destruct o; simpl; intros [= <-] || discriminate; reflexivity. Qed.

Lemma origin_url noteId note :
  origin env noteId note -> url note = VStr (launchpad_url noteId).
Proof.
  intros [text j r page _ _ H|text j page _ H|text j page _ H|nd page H
         |text j _ H| -> | html -> |text j d _ _ H].
  - now apply envelope_fields in H.
  - now apply body_json_fields in H.
  - now apply html_json_fields in H.
  - now apply dom_fields in H.
  - now apply raw_json_fields in H.
  - reflexivity.
  - reflexivity.
  - now apply odata_fields in H.
Qed.

(** The first truthy operand of a chain of [||], or its last operand. *)
Lemma or_cases a b : a ||| b = b \/ (a ||| b = a /\ truthy a = true).
Proof. unfold or. destruct (truthy a); auto. Qed.

End Provenance.
(** ** The fetch cascade *)

Section Fetch.
Import JS Notes.

(** C10. Every record that [getNote] returns has the launchpad address of
    the requested identifier in its [url] field, whichever strategy built
    the record and whatever identifier the response carried. *)
Theorem fetch_url_is_for_requested_id (env : Env) (noteId token : string)
    (note : SapNoteDetail) :
  getNote env noteId token = Ok (Some note) ->
  url note = VStr ("https://launchpad.support.sap.com/#/notes/" ++ noteId).
Proof.
  intros H. apply getNote_origin in H. now apply origin_url in H.
Qed.

Lemma fetch_url_is_for_requested_id_witness :
  exists note,
    getNote Scenario.env_padded "2744792" "JSESSIONID=abc" = Ok (Some note) /\
    url note = VStr "https://launchpad.support.sap.com/#/notes/2744792".
Proof.
  eexists. split; [vm_compute; reflexivity|].
  apply (fetch_url_is_for_requested_id Scenario.env_padded "2744792"
           "JSESSIONID=abc").
  vm_compute; reflexivity.
Defined.

(** C1 fails on the code. Note 2744792 is requested; the response the
    browser session shows carries the number in its ten-digit form, and
    the record comes back with that number as its [id], next to a [url]
    made from the identifier that was requested. *)
Theorem fetch_id_taken_from_response :
  exists note,
    getNote Scenario.env_padded "2744792" "JSESSIONID=abc" = Ok (Some note) /\
    id note = VStr "0002744792" /\
    id note <> VStr "2744792" /\
    url note = VStr "https://launchpad.support.sap.com/#/notes/2744792".
Proof.
  eexists. split; [vm_compute; reflexivity|].
  split; [reflexivity|]. split; [discriminate|reflexivity].
Qed.

(** C7. If the browser-rendered fetch, the raw HTTP request and each of
    the fallback endpoints yield no data, [getNote] returns [null]; it
    does not throw. *)
Theorem fetch_nothing_is_null (env : Env) (noteId token : string) :
  yields_nothing (getNoteWithPlaywright env noteId token) ->
  yields_nothing (raw_attempt env noteId token) ->
  (forall endpoint, endpoint ∈ fallbackEndpoints noteId ->
     yields_nothing (endpoint_attempt env endpoint noteId token)) ->
  getNote env noteId token = Ok None.
Proof.
  unfold yields_nothing, getNote, catch. intros -> -> H.
  assert (E : forall endpoints,
             (forall endpoint, endpoint ∈ endpoints ->
                returned (endpoint_attempt env endpoint noteId token) = None) ->
             try_endpoints env endpoints noteId token = None).
  { induction endpoints as [|e rest IH]; simpl; [reflexivity|].
    intros Hall. rewrite (Hall e) by apply list_elem_of_here.
    apply IH. intros e' He'. apply Hall. now apply list_elem_of_further. }
  rewrite (E _ H). reflexivity.
Qed.

Lemma fetch_nothing_is_null_witness :
  getNote Scenario.env_offline "9999999" "JSESSIONID=abc" = Ok None.
Proof.
  apply fetch_nothing_is_null.
  - reflexivity.
  - reflexivity.
  - intros endpoint _. reflexivity.
Defined.

End Fetch.

(** ** Search falling back to a direct fetch *)

Section SearchFallback.
Import JS.


Lemma append_cons (c : ascii) (s t : string) :
  String c s ++ t = String c (s ++ t).
Proof. reflexivity. Qed.

Lemma append_empty_l (t : string) : "" ++ t = t.
Proof. reflexivity. Qed.

Lemma append_empty_r (s : string) : s ++ "" = s.
Proof.
  induction s as [|c s IH]; [reflexivity|].
  now rewrite append_cons, IH.
Qed.

Lemma append_assoc (a b c : string) : (a ++ b) ++ c = a ++ (b ++ c).
Proof.
  induction a as [|x a IH]; [reflexivity|].
  now rewrite !append_cons, IH.
Qed.

Lemma rev_append (a b : string) : Str.rev (a ++ b) = Str.rev b ++ Str.rev a.
Proof.
  induction a as [|x a IH].
  - now rewrite append_empty_l, append_empty_r.
  - rewrite append_cons. simpl. now rewrite IH, append_assoc.
Qed.

Lemma rev_involutive (s : string) : Str.rev (Str.rev s) = s.
Proof.
  induction s as [|c s IH]; simpl; [reflexivity|].
  rewrite rev_append, IH. reflexivity.
Qed.









End SearchFallback.

(** ** Severity read from the launchpad tab *)

Section TabSeverity.
Import JS Notes.

(** What a metric resolves to is one of the short forms of its table. *)
Lemma resolve_code (p : CvssPage) (m : metric) (code : string) :
  resolve p m = Some code -> code ∈ (snd <$> map m).
Proof.
  unfold resolve.
  destruct (metric_row p (name m)) as [cells|]; [|discriminate].
  destruct (2 <=? length cells)%nat; [|discriminate].
  destruct (cells !! 1%nat) as [cell|]; [|discriminate].
  destruct (List.find _ (map m)) as [entry|] eqn:F; [|discriminate].
  intros [= <-]. apply List.find_some in F as [Hin _].
  apply list_elem_of_fmap. exists entry. split; [reflexivity|].
  now apply list_elem_of_In.
Qed.

(** Eight keys in [vectorComponents] means that every metric resolved,
    and then the string built from it has every code in place. *)
Lemma collect_full (resolved : metric -> option string) :
  (8 <=? size (collect resolved))%nat = true ->
  exists av ac pr ui s c i a,
    List.map resolved metrics
      = [Some av; Some ac; Some pr; Some ui; Some s; Some c; Some i; Some a] /\
    vector_string (collect resolved) = full_vector av ac pr ui s c i a.
Proof.
  unfold collect, metrics. cbn [foldl List.map].
  destruct (resolved m_AV) as [av|], (resolved m_AC) as [ac|],
           (resolved m_PR) as [pr|], (resolved m_UI) as [ui|],
           (resolved m_S) as [s|], (resolved m_C) as [c|],
           (resolved m_I) as [i|], (resolved m_A) as [a|];
    intros H; vm_compute in H; try discriminate H.
  exists av, ac, pr, ui, s, c, i, a. split; [reflexivity|].
  vm_compute. reflexivity.
Qed.

(** The vector that [extractCvssFromPage] hands out is either absent or
    the full string with the code of each of the eight metrics, every
    code taken from that metric's table; it is absent as soon as one
    metric did not resolve. *)
Lemma extracted_vector_full_or_absent (p : CvssPage) (noteId : string) :
  let vector := snd (extractCvssFromPage p noteId) in
  (vector = VUndef \/
   exists av ac pr ui s c i a,
     List.map (resolve p) metrics
       = [Some av; Some ac; Some pr; Some ui; Some s; Some c; Some i; Some a] /\
     Forall2 (fun m code => code ∈ (snd <$> map m)) metrics
       [av; ac; pr; ui; s; c; i; a] /\
     vector = VStr (full_vector av ac pr ui s c i a)) /\
  (Exists (fun m => resolve p m = None) metrics -> vector = VUndef).
Proof.
  cbv zeta.
  assert (Main :
    snd (extractCvssFromPage p noteId) = VUndef \/
    exists av ac pr ui s c i a,
      List.map (resolve p) metrics
        = [Some av; Some ac; Some pr; Some ui; Some s; Some c; Some i; Some a] /\
      snd (extractCvssFromPage p noteId)
        = VStr (full_vector av ac pr ui s c i a)).
  { unfold extractCvssFromPage.
    destruct (_ && nav_aborts p); [now left|].
    destruct (_ && _); [now left|].
    cbn [snd]. unfold vectorComponents.
    destruct (8 <=? size (collect (resolve p)))%nat eqn:E; [|now left].
    right. apply collect_full in E as (av & ac & pr & ui & s & c & i & a & E & V).
    exists av, ac, pr, ui, s, c, i, a. now rewrite V. }
  split.
  - destruct Main as [U|(av & ac & pr & ui & s & c & i & a & E & V)]; [now left|].
    right. exists av, ac, pr, ui, s, c, i, a. split; [exact E|]. split; [|exact V].
    unfold metrics in *. cbn [List.map] in E.
    injection E as E1 E2 E3 E4 E5 E6 E7 E8.
    repeat (apply List.Forall2_cons; [eapply resolve_code; eassumption|]).
    apply List.Forall2_nil.
  - intros Hex.
    destruct Main as [U|(av & ac & pr & ui & s & c & i & a & E & _)]; [exact U|].
    exfalso. apply List.Exists_exists in Hex as (m & Hin & Hm).
    apply (List.in_map (resolve p)) in Hin. rewrite E, Hm in Hin.
    cbn in Hin. intuition discriminate.
Qed.

(** *** The record before and after the enhancement *)

(** [enhanceWithCvssFromTab] leaves the record alone or sets its vector
    to the one the tab extraction hands out. *)
Lemma enhance_vector (noteDetail : SapNoteDetail) (p : CvssPage)
    (noteId : string) :
  enhanceWithCvssFromTab noteDetail p noteId = noteDetail \/
  cvssVector (enhanceWithCvssFromTab noteDetail p noteId)
  = snd (extractCvssFromPage p noteId).
Proof.
  unfold enhanceWithCvssFromTab.
  destruct (_ && _); [now left|]. destruct (_ || _); [now right|now left].
Qed.

Lemma enhance_no_page (noteDetail : SapNoteDetail) (noteId : string) :
  enhanceWithCvssFromTab noteDetail NotesSpec.no_page noteId = noteDetail.
Proof.
  unfold enhanceWithCvssFromTab. now destruct (_ && _).
Qed.

Section BeforeAndAfter.
Variable env : Env.
Variable page : CvssPage.
Variable noteId : string.

Let enhance (noteDetail : SapNoteDetail) : SapNoteDetail :=
  enhanceWithCvssFromTab noteDetail page noteId.

Lemma body_json_enhanced (jsonData : value) :
  note_from_body_json jsonData page noteId
  = enhance <$> note_from_body_json jsonData NotesSpec.no_page noteId.
Proof.
  unfold note_from_body_json.
  destruct (extractCvssFromContent _) as [sv|e]; cbn; [|reflexivity].
  now rewrite enhance_no_page.
Qed.

Lemma html_json_enhanced (jsonData : value) :
  note_from_html_json jsonData page noteId
  = enhance <$> note_from_html_json jsonData NotesSpec.no_page noteId.
Proof.
  unfold note_from_html_json.
  destruct (extractCvssFromContent _) as [sv|e]; cbn; [|reflexivity].
  now rewrite enhance_no_page.
Qed.

Lemma dom_enhanced (noteData : NoteData) :
  note_from_dom noteData page noteId
  = enhance <$> note_from_dom noteData NotesSpec.no_page noteId.
Proof.
  unfold note_from_dom.
  destruct (extractCvssFromContent _) as [sv|e]; cbn; [|reflexivity].
  now rewrite enhance_no_page.
Qed.

Lemma envelope_enhanced (sapNote : value) :
  note_from_envelope sapNote page noteId
  = enhance <$> note_from_envelope sapNote NotesSpec.no_page noteId.
Proof.
  unfold note_from_envelope.
  match goal with
  | |- context [mbind _ ?m] => destruct m as [sv|e]
  end; cbn; [|reflexivity].
  rewrite enhance_no_page.
  destruct (negb (truthy (fst sv)) || negb (truthy (snd sv))) eqn:C;
    [reflexivity|].
  apply orb_false_elim in C as [C1 C2].
  apply negb_false_iff in C1, C2.
  unfold enhance, enhanceWithCvssFromTab. cbn [cvssScore cvssVector].
  now rewrite C1, C2.
Qed.

Lemma json_text_enhanced (text : string)
    (generic : value -> CvssPage -> string -> outcome SapNoteDetail) :
  (forall jsonData,
     generic jsonData page noteId
     = enhance <$> generic jsonData NotesSpec.no_page noteId) ->
  note_from_json_text env text generic page noteId
  = option_map enhance
      <$> note_from_json_text (NotesSpec.without_tab env) text generic
            NotesSpec.no_page noteId.
Proof.
  intros G. unfold note_from_json_text. cbn [JSON_parse NotesSpec.without_tab].
  destruct (_ && _); [|reflexivity].
  destruct (JSON_parse env text) as [jsonData|e]; cbn; [|reflexivity].
  destruct (get jsonData "Response") as [response|e]; cbn; [|reflexivity].
  destruct (_ && _).
  - rewrite envelope_enhanced.
    now destruct (note_from_envelope _ NotesSpec.no_page noteId).
  - rewrite G. now destruct (generic jsonData NotesSpec.no_page noteId).
Qed.

End BeforeAndAfter.

(** The browser-rendered fetch returns the record that it returns with
    the launchpad page out of reach, enhanced from the page. *)
Ltac mstep :=
  cbn [mbind outcome_bind JS.bind JS.catch fmap outcome_fmap JS.fmap
       returned option_map mret outcome_ret].

Lemma playwright_enhanced (env : Env) (noteId token : string) :
  getNoteWithPlaywright env noteId token
  = option_map (fun noteDetail =>
            enhanceWithCvssFromTab noteDetail
              (launchpad (browse env noteId token)) noteId)
      <$> getNoteWithPlaywright (NotesSpec.without_tab env) noteId token.
Proof.
  unfold getNoteWithPlaywright.
  cbn [browse NotesSpec.without_tab setup goto loaded bodyText dom launchpad].
  set (s := browse env noteId token). set (page := launchpad s).
  destruct (setup s) as [[]|e]; mstep; [|reflexivity].
  destruct (goto s) as [[[[|] st]|]|e]; mstep; try reflexivity.
  destruct (loaded s) as [content|e]; mstep; [|reflexivity].
  assert (Last :
    catch
      (d ← dom s;
       (if found (scrape d)
        then Some <$> note_from_dom (scrape d) page noteId
        else mret None))
      (fun errorMessage =>
         Throw ("Playwright extraction failed: " ++ errorMessage))
    = option_map (fun noteDetail => enhanceWithCvssFromTab noteDetail page noteId)
        <$> catch
              (d ← dom s;
               (if found (scrape d)
                then Some <$> note_from_dom (scrape d) NotesSpec.no_page noteId
                else mret None))
              (fun errorMessage =>
                 Throw ("Playwright extraction failed: " ++ errorMessage))).
  { destruct (dom s) as [d|e]; mstep; [|reflexivity].
    destruct (found (scrape d)); [|reflexivity].
    rewrite dom_enhanced.
    now destruct (note_from_dom (scrape d) NotesSpec.no_page noteId). }
  assert (Second :
    forall o : outcome (option SapNoteDetail),
      catch
        (match returned
                 (option_map (fun noteDetail =>
                          enhanceWithCvssFromTab noteDetail page noteId) <$> o)
         with
         | Some note => mret (Some note)
         | None =>
           d ← dom s;
           (if found (scrape d)
            then Some <$> note_from_dom (scrape d) page noteId
            else mret None)
         end)
        (fun errorMessage =>
           Throw ("Playwright extraction failed: " ++ errorMessage))
      = option_map (fun noteDetail => enhanceWithCvssFromTab noteDetail page noteId)
          <$> catch
                (match returned o with
                 | Some note => mret (Some note)
                 | None =>
                   d ← dom s;
                   (if found (scrape d)
                    then Some <$> note_from_dom (scrape d) NotesSpec.no_page
                                    noteId
                    else mret None)
                 end)
                (fun errorMessage =>
                   Throw ("Playwright extraction failed: " ++ errorMessage))).
  { intros [[n|]|e]; mstep; try reflexivity; exact Last. }
  assert (First :
    forall o o2 : outcome (option SapNoteDetail),
      catch
        (match returned
                 (option_map (fun noteDetail =>
                          enhanceWithCvssFromTab noteDetail page noteId) <$> o)
         with
         | Some note => mret (Some note)
         | None =>
           match returned
                   (option_map (fun noteDetail =>
                            enhanceWithCvssFromTab noteDetail page noteId)
                      <$> o2)
           with
           | Some note => mret (Some note)
           | None =>
             d ← dom s;
             (if found (scrape d)
              then Some <$> note_from_dom (scrape d) page noteId
              else mret None)
           end
         end)
        (fun errorMessage =>
           Throw ("Playwright extraction failed: " ++ errorMessage))
      = option_map (fun noteDetail => enhanceWithCvssFromTab noteDetail page noteId)
          <$> catch
                (match returned o with
                 | Some note => mret (Some note)
                 | None =>
                   match returned o2 with
                   | Some note => mret (Some note)
                   | None =>
                     d ← dom s;
                     (if found (scrape d)
                      then Some <$> note_from_dom (scrape d) NotesSpec.no_page
                                      noteId
                      else mret None)
                   end
                 end)
                (fun errorMessage =>
                   Throw ("Playwright extraction failed: " ++ errorMessage))).
  { intros [[n|]|e] o2; mstep; try reflexivity; apply Second. }
  set (f := fun noteDetail =>
              enhanceWithCvssFromTab noteDetail page noteId) in *.
  assert (A1 :
    (bt ← bodyText s;
     match bt with
     | Some t =>
       if truthy (VStr t)
       then note_from_json_text env (Str.trim t) note_from_body_json page noteId
       else mret None
     | None => mret None
     end)
    = option_map f
        <$> (bt ← bodyText s;
             match bt with
             | Some t =>
               if truthy (VStr t)
               then note_from_json_text (NotesSpec.without_tab env)
                      (Str.trim t) note_from_body_json NotesSpec.no_page noteId
               else mret None
             | None => mret None
             end)).
  { destruct (bodyText s) as [[t|]|e]; mstep; try reflexivity.
    destruct (truthy (VStr t)); [|reflexivity].
    apply json_text_enhanced. intros j. apply body_json_enhanced. }
  assert (A2 :
    match Regex.exec re_body content with
    | Some jsonMatch =>
      match Regex.group jsonMatch 1 with
      | Some inner =>
        if truthy (VStr inner)
        then note_from_json_text env (Str.trim inner) note_from_html_json
               page noteId
        else mret None
      | None => mret None
      end
    | None => mret None
    end
    = option_map f
        <$> match Regex.exec re_body content with
            | Some jsonMatch =>
              match Regex.group jsonMatch 1 with
              | Some inner =>
                if truthy (VStr inner)
                then note_from_json_text (NotesSpec.without_tab env)
                       (Str.trim inner) note_from_html_json
                       NotesSpec.no_page noteId
                else mret None
              | None => mret None
              end
            | None => mret None
            end).
  { destruct (Regex.exec re_body content) as [jsonMatch|]; [|reflexivity].
    destruct (Regex.group jsonMatch 1) as [inner|]; [|reflexivity].
    destruct (truthy (VStr inner)); [|reflexivity].
    apply json_text_enhanced. intros j. apply html_json_enhanced. }
  rewrite A1, A2. apply First.
Qed.

(** [getNote] returns the record that it returns with the launchpad page
    out of reach, or that record enhanced from the page. *)
Lemma getNote_enhanced (env : Env) (noteId token : string)
    (note : SapNoteDetail) :
  getNote env noteId token = Ok (Some note) ->
  exists primary,
    getNote (NotesSpec.without_tab env) noteId token = Ok (Some primary) /\
    (note = primary \/
     note = enhanceWithCvssFromTab primary
              (launchpad (browse env noteId token)) noteId).
Proof.
  unfold getNote. rewrite playwright_enhanced.
  destruct (getNoteWithPlaywright (NotesSpec.without_tab env) noteId token)
    as [[n|]|e]; cbn.
  - intros [= <-]. eauto.
  - intros H. exists note. split; [exact H|now left].
  - intros H. exists note. split; [exact H|now left].
Qed.

(** C6, as stated, fails: the response carries a vector with seven of
    the eight metrics, the tab resolves seven metrics and shows no score,
    and the record comes back with the seven-metric vector. *)
Lemma fetch_returns_partial_vector :
  exists note,
    getNote Cases.env_partial "2744792" "JSESSIONID=abc" = Ok (Some note) /\
    Exists (fun m => resolve Cases.seven_rows_no_score m = None) metrics /\
    cvssVector note = VStr "CVSS:3.0/AV:N/AC:L/PR:N/UI:N/S:U/C:H/I:H" /\
    cvssVector note <> VUndef.
Proof.
  eexists. split; [vm_compute; reflexivity|].
  split; [|split; [reflexivity|discriminate]].
  apply List.Exists_exists. exists m_A. split; [|reflexivity].
  unfold metrics. cbn. tauto.
Qed.

(** C6, amended. The record [getNote] returns is the record the parse
    of the response built (what [getNote] returns with the launchpad page
    out of reach), or else its vector is what the tab extraction handed
    out: undefined, or the full string with the code of each of the
    eight metrics, every code from that metric's table. As soon as one
    metric did not resolve from the table, the record is the one the
    parse built, or its vector is undefined. *)
Theorem fetched_vector_parsed_or_full (env : Env) (noteId token : string)
    (note : SapNoteDetail) :
  getNote env noteId token = Ok (Some note) ->
  let page := launchpad (browse env noteId token) in
  exists primary,
    getNote (NotesSpec.without_tab env) noteId token = Ok (Some primary) /\
    (note = primary \/
     cvssVector note = VUndef \/
     exists av ac pr ui s c i a,
       List.map (resolve page) metrics
         = [Some av; Some ac; Some pr; Some ui; Some s; Some c; Some i; Some a] /\
       Forall2 (fun m code => code ∈ (snd <$> map m)) metrics
         [av; ac; pr; ui; s; c; i; a] /\
       cvssVector note = VStr (full_vector av ac pr ui s c i a)) /\
    (Exists (fun m => resolve page m = None) metrics ->
     note = primary \/ cvssVector note = VUndef).
Proof.
  intros H. cbv zeta.
  apply getNote_enhanced in H as (primary & P & [-> | ->]).
  - exists primary. split; [exact P|]. split; [now left|]. intros _. now left.
  - exists primary. split; [exact P|].
    set (page := launchpad (browse env noteId token)).
    destruct (extracted_vector_full_or_absent page noteId) as [Shape Absent].
    cbv zeta in Shape, Absent.
    destruct (enhance_vector primary page noteId) as [E|E].
    + rewrite E. split; [now left|]. intros _. now left.
    + rewrite E. split.
      * destruct Shape as [U|F]; [right; now left|right; now right].
      * intros Hex. right. now apply Absent.
Qed.

Lemma fetched_vector_parsed_or_full_witness :
  exists note primary,
    getNote Cases.env_partial "2744792" "JSESSIONID=abc" = Ok (Some note) /\
    getNote (NotesSpec.without_tab Cases.env_partial) "2744792" "JSESSIONID=abc"
      = Ok (Some primary) /\
    (note = primary \/ cvssVector note = VUndef).
Proof.
  eexists.
  destruct (fetched_vector_parsed_or_full Cases.env_partial "2744792"
              "JSESSIONID=abc" _ ltac:(vm_compute; reflexivity))
    as (primary & P & _ & A).
  exists primary. split; [vm_compute; reflexivity|]. split; [exact P|].
  apply A. apply List.Exists_exists. exists m_A. split; [|reflexivity].
  unfold metrics. cbn. tauto.
Defined.

(** C9 fails on the code. The response carries the score 9.8 and no
    vector; the launchpad tab shows the eight metrics and no score.
    [enhanceWithCvssFromTab] puts both tab fields into the record, and the
    score that was there is gone from what [getNote] returns. *)
Theorem enhancement_drops_present_score :
  (exists before,
     note_from_envelope
       (path Scenario.scored_json ["Response"; "SAPNote"])
       Scenario.plain_page "2744792" = Ok before /\
     cvssScore before = VStr "9.8" /\
     cvssVector before = VUndef /\
     cvssScore (enhanceWithCvssFromTab before Scenario.table_page "2744792")
       = VUndef) /\
  (exists note,
     getNote Scenario.env_scored "2744792" "JSESSIONID=abc" = Ok (Some note) /\
     cvssScore note = VUndef /\
     cvssVector note = VStr "CVSS:3.0/AV:N/AC:L/PR:N/UI:N/S:U/C:H/I:H/A:H").
Proof.
  split.
  - eexists. split; [vm_compute; reflexivity|].
    repeat split; vm_compute; reflexivity.
  - eexists. split; [vm_compute; reflexivity|].
    split; reflexivity.
Qed.

End TabSeverity.

(** ** Browser launch *)

Section LaunchRetries.
Import JS Auth.
Local Open Scope Z_scope.

(** C5, as stated, fails: a launch error that is not resource exhaustion
    is not fatal at once; the launch is tried three times, one second
    apart. *)
Lemma other_launch_error_is_retried :
  resource_exhausted
    "Executable doesn't exist at /ms-playwright/chromium/chrome" = false /\
  launch_loop Scenario.no_executable
    = ([Launch 1; Sleep 1000; Launch 2; Sleep 1000; Launch 3],
       Throw "Executable doesn't exist at /ms-playwright/chromium/chrome") /\
  launches (fst (launch_loop Scenario.no_executable)) = 3%nat.
Proof. repeat split; vm_compute; reflexivity. Qed.

(** C5, amended. The browser is launched at most three times. A failed
    attempt before the third is followed by a pause and the next attempt,
    whatever the error: the pause is 2^attempt seconds for a
    resource-exhaustion error and one second otherwise. The loop fails
    only with the error of a failed third attempt, after two failed ones. *)
Theorem launch_retry_policy (launch : nat -> launch_result) :
  let acts := fst (launch_loop launch) in
  (launches acts <= 3)%nat /\
  (forall n errorMsg,
     (n < 3)%nat -> Launch n ∈ acts -> launch n = LaunchError errorMsg ->
     exists before after,
       acts = (before ++ Launch n :: Sleep (pause n errorMsg)
                        :: Launch (S n) :: after)%list) /\
  (forall errorMsg,
     snd (launch_loop launch) = Throw errorMsg ->
     launch 3%nat = LaunchError errorMsg /\
     exists e1 e2,
       launch 1%nat = LaunchError e1 /\ launch 2%nat = LaunchError e2).
Proof.
  cbv zeta. unfold launch_loop, maxRetries, pause. cbn [launch_from].
  destruct (launch 1%nat) as [|e1] eqn:L1,
           (launch 2%nat) as [|e2] eqn:L2,
           (launch 3%nat) as [|e3] eqn:L3;
    try destruct (resource_exhausted e1) eqn:R1;
    try destruct (resource_exhausted e2) eqn:R2;
    try destruct (resource_exhausted e3) eqn:R3;
    cbn; (split; [vm_compute; lia|split]).
  all: try (intros errorMsg [= <-]; eauto 6).
  all: try (intros errorMsg D; discriminate D).
  all: intros n errorMsg Hn Hin Hl;
    repeat match goal with
    | H : _ ∈ (_ :: _) |- _ => apply elem_of_cons in H; destruct H as [H|H]
    | H : _ ∈ [] |- _ => apply elem_of_nil in H; destruct H
    | H : Launch _ = Launch _ |- _ => injection H as ->
    | H : Launch _ = Sleep _ |- _ => discriminate H
    end;
    try lia; try congruence.
  all: repeat match goal with
    | H1 : ?f ?k = LaunchError ?a, H2 : ?f ?k = LaunchError ?b |- _ =>
        rewrite H1 in H2; injection H2 as <-
    end.
  all: repeat match goal with
    | R : resource_exhausted ?e = _ |- context [resource_exhausted ?e] =>
        rewrite R
    end.
  all: first [ now exists [], [] | now eexists [], [_; _]
             | now eexists [_; _], [] | now eexists [_; _], [_; _]
             | now eexists [], [_] | now eexists [_; _], [_] | idtac ].
Qed.

Lemma launch_retry_policy_witness :
  exists before after,
    fst (launch_loop Scenario.busy_twice)
      = (before ++ Launch 2 :: Sleep 4000 :: Launch 3 :: after)%list.
Proof.
  destruct (launch_retry_policy Scenario.busy_twice) as (_ & H & _).
  apply (H 2%nat "pthread_create: Resource temporarily unavailable").
  - lia.
  - vm_compute. apply list_elem_of_further, list_elem_of_further,
      list_elem_of_here.
  - reflexivity.
Defined.

End LaunchRetries.

(** ** The single-flight guard *)

Section SingleFlight.
Import JS Auth.
Local Open Scope Z_scope.

(** Once the promise in [authPromise] is rejected, a call is resumed with
    that rejection and leaves everything as it was: no login is started,
    [authPromise] still holds the rejected promise. *)
Lemma rejected_login_sticks (maxJwtAgeH : Z) (st : State) (p : nat)
    (pr : promise) (e : error) (now now' : Z) :
  authPromise st = Some p ->
  promises st !! p = Some pr ->
  settled pr = Rejected e ->
  microtasks st = [] ->
  exists st',
    run maxJwtAgeH [Call now; Tick now'] st = Some st' /\
    calls st' = (calls st ++ [Thrown e])%list /\
    flows st' = flows st /\
    authPromise st' = Some p /\
    promises st' = promises st /\
    microtasks st' = [].
Proof.
  intros Ha Hp Hs Hm.
  unfold run, step, ensureAuthenticated, await. rewrite Ha. cbn.
  rewrite Hp. cbn. rewrite Hs. unfold resume. cbn. rewrite Hm. cbn.
  rewrite lookup_app_r by lia. rewrite Nat.sub_diag. cbn.
  rewrite Hp. cbn. rewrite Hs.
  eexists. split; [reflexivity|]. cbn.
  repeat split; try assumption.
  rewrite insert_app_r_alt by lia. rewrite Nat.sub_diag. reflexivity.
Qed.

(** After [invalidateAuth()], a call that finds a usable token in the
    cache file adopts it and returns it; no login is started. *)
Lemma invalidate_adopts_cache (maxJwtAgeH : Z) (st : State)
    (c : CachedToken) (now now' : Z) :
  authPromise st = None ->
  microtasks st = [] ->
  cache st = Some c ->
  isTokenValidFromCache c now = true ->
  exists st',
    run maxJwtAgeH [Invalidate; Call now; Tick now'] st = Some st' /\
    calls st' = (calls st ++ [Returned (access_token c)])%list /\
    flows st' = flows st /\
    in_flight st' = in_flight st.
Proof.
  intros Ha Hm Hc Hv.
  assert (Hn : nonempty (access_token c) = true).
  { unfold isTokenValidFromCache in Hv.
    apply andb_prop in Hv as [Hv _]. now apply andb_prop in Hv as [Hv _]. }
  unfold run, step, invalidateAuth, ensureAuthenticated. cbn.
  rewrite Ha. unfold ensureAuthenticated_check, authenticate, usable_cache. cbn.
  rewrite Hc, Hv. unfold await. cbn.
  rewrite lookup_app_r by lia. rewrite Nat.sub_diag. cbn.
  unfold resume. cbn. rewrite Hm. cbn.
  rewrite list_lookup_insert_eq by (rewrite length_app; cbn; lia). cbn.
  rewrite lookup_app_r by lia. rewrite Nat.sub_diag. cbn.
  unfold nonempty in Hn. cbn in Hn.
  destruct (access_token c) as [|ch tok]; [discriminate|].
  eexists. split; [reflexivity|]. cbn.
  repeat split.
  - rewrite list_insert_insert_eq.
    rewrite insert_app_r_alt by lia. rewrite Nat.sub_diag. reflexivity.
  - unfold in_flight. cbn. rewrite filter_app, length_app.
    change (filter (fun pr => is_pending pr)
              [ {| settled := Fulfilled; waiters := [] |} ]) with (@nil promise).
    cbn. lia.
Qed.

(** C2 fails on the code. Three calls come in while nobody is signed in;
    the first starts the login, the other two await it. The login ends
    without a usable credential (the context holds no cookie). The two
    waiting calls are resumed one after the other, each finds no valid
    token and each starts a login of its own: two logins are in flight. *)
Theorem two_logins_in_flight :
  exists st,
    run 12 Scenario.three_callers (initial None) = Some st /\
    calls st = [Thrown NoTokenReceived; AwaitOwn 1; AwaitOwn 2] /\
    in_flight st = 2%nat /\
    flows st = 3%nat.
Proof.
  eexists. split; [vm_compute; reflexivity|].
  repeat split; vm_compute; reflexivity.
Qed.

(** C3 fails on the code. The login times out; the call that started it
    throws before it resets [authPromise]. The next call awaits the same
    rejected promise and throws the same error; no login is started. *)
Theorem timeout_is_raised_again :
  exists st,
    run 12 Scenario.retry_after_timeout (initial None) = Some st /\
    calls st = [Thrown AuthenticationTimeoutError;
                Thrown AuthenticationTimeoutError] /\
    authPromise st = Some 0%nat /\
    flows st = 1%nat.
Proof.
  eexists. split; [vm_compute; reflexivity|].
  repeat split; vm_compute; reflexivity.
Qed.

(** C4 fails on the code. After a login and [invalidateAuth()], the next
    call finds the token of that login in the cache file, adopts it and
    returns it; no second login is started. *)
Theorem invalidate_then_cached_token :
  exists st,
    run 12 Scenario.call_after_invalidate (initial None) = Some st /\
    calls st = [Returned "JSESSIONID=abc"; Returned "JSESSIONID=abc"] /\
    in_flight st = 0%nat /\
    flows st = 1%nat.
Proof.
  eexists. split; [vm_compute; reflexivity|].
  repeat split; vm_compute; reflexivity.
Qed.

End SingleFlight.

(** ** The matcher finds only what the pattern allows *)

Section MatcherSound.
Import Regex RegexSpec.

Lemma rep_loop_sound {R} (r : regex)
    (step : nat -> string -> list string -> cont R -> option R) :
  (forall pos s caps k x,
      step pos s caps k = Some x ->
      exists pos' s' cs,
        matches r pos s pos' s' cs /\ k pos' s' (caps ++ cs)%list = Some x) ->
  forall greedy fuel lo hi pos s caps k x,
    rep_loop step greedy fuel lo hi pos s caps k = Some x ->
    exists pos' s' cs,
      matches (Rep greedy lo hi r) pos s pos' s' cs /\
      k pos' s' (caps ++ cs)%list = Some x.
Proof.
  intros Hstep greedy fuel.
  induction fuel as [|fuel IH]; intros lo hi pos s caps k x H; simpl in H.
  - destruct lo; [|discriminate].
    exists pos, s, []. rewrite app_nil_r. split; [constructor|exact H].
  - destruct lo as [|lo'].
    + assert (Again : forall y,
        step pos s caps
          (fun pos' s' caps' =>
             if (String.length s' <? String.length s)%nat
             then rep_loop step greedy fuel 0 (dec_hi hi) pos' s' caps' k
             else None) = Some y ->
        hi <> Some 0 ->
        exists pos' s' cs,
          matches (Rep greedy 0 hi r) pos s pos' s' cs /\
          k pos' s' (caps ++ cs)%list = Some y).
      { intros y Hy Hhi.
        apply Hstep in Hy as (pos1 & s1 & c1 & M1 & Hy).
        destruct (String.length s1 <? String.length s)%nat; [|discriminate].
        apply IH in Hy as (pos2 & s2 & c2 & M2 & Hy).
        exists pos2, s2, (c1 ++ c2)%list. split.
        - eapply m_rep_more; eauto.
        - now rewrite app_assoc. }
      assert (Stop : k pos s caps = Some x ->
        exists pos' s' cs,
          matches (Rep greedy 0 hi r) pos s pos' s' cs /\
          k pos' s' (caps ++ cs)%list = Some x).
      { intros Hk. exists pos, s, []. rewrite app_nil_r.
        split; [constructor|exact Hk]. }
      assert (Both :
        forall a b : option R,
          a = step pos s caps
                (fun pos' s' caps' =>
                   if (String.length s' <? String.length s)%nat
                   then rep_loop step greedy fuel 0 (dec_hi hi) pos' s' caps' k
                   else None) ->
          b = k pos s caps ->
          hi <> Some 0 ->
          (if greedy
           then match a with Some y => Some y | None => b end
           else match b with Some y => Some y | None => a end) = Some x ->
          exists pos' s' cs,
            matches (Rep greedy 0 hi r) pos s pos' s' cs /\
            k pos' s' (caps ++ cs)%list = Some x).
      { intros a b Ha Hb Hhi Hx.
        destruct greedy, a as [y|], b as [z|];
          try discriminate Hx; injection Hx as <-;
          first [ now apply Again | now apply Stop ]. }
      destruct hi as [[|h]|].
      * now apply Stop.
      * eapply Both; [reflexivity|reflexivity|discriminate|exact H].
      * eapply Both; [reflexivity|reflexivity|discriminate|exact H].
    + apply Hstep in H as (pos1 & s1 & c1 & M1 & H).
      apply IH in H as (pos2 & s2 & c2 & M2 & H).
      exists pos2, s2, (c1 ++ c2)%list. split.
      * eapply m_rep_more; eauto; discriminate.
      * now rewrite app_assoc.
Qed.

(** Whenever the matcher succeeds, the pattern matches up to the point
    where the continuation took over. *)
Lemma run_sound {R} (r : regex) :
  forall pos s caps (k : cont R) x,
    run r pos s caps k = Some x ->
    exists pos' s' cs,
      matches r pos s pos' s' cs /\ k pos' s' (caps ++ cs)%list = Some x.
Proof.
  induction r as [|p|r1 IH1 r2 IH2|r1 IH1 r2 IH2|greedy lo hi r IH|r IH| |];
    intros pos s caps k x H; simpl in H.
  - exists pos, s, []. rewrite app_nil_r. split; [constructor|exact H].
  - destruct s as [|c t]; [discriminate|].
    destruct (p c) eqn:E; [|discriminate].
    exists (S pos), t, []. rewrite app_nil_r. split; [now constructor|exact H].
  - apply IH1 in H as (pos1 & s1 & c1 & M1 & H).
    apply IH2 in H as (pos2 & s2 & c2 & M2 & H).
    exists pos2, s2, (c1 ++ c2)%list. split; [econstructor; eauto|].
    now rewrite app_assoc.
  - destruct (run r1 pos s caps k) as [y|] eqn:E.
    + injection H as <-.
      apply IH1 in E as (pos1 & s1 & c1 & M1 & E).
      exists pos1, s1, c1. split; [now apply m_alt_l|exact E].
    + apply IH2 in H as (pos1 & s1 & c1 & M1 & H).
      exists pos1, s1, c1. split; [now apply m_alt_r|exact H].
  - eapply rep_loop_sound; eauto.
  - apply IH in H as (pos1 & s1 & c1 & M1 & H).
    exists pos1, s1, (c1 ++ [Str.take (pos1 - pos) s])%list.
    split; [now constructor|]. now rewrite app_assoc.
  - destruct (pos =? 0)%nat eqn:E; [|discriminate].
    apply Nat.eqb_eq in E as ->.
    exists 0%nat, s, []. rewrite app_nil_r. split; [constructor|exact H].
  - destruct s; [|discriminate].
    exists pos, "", []. rewrite app_nil_r. split; [constructor|exact H].
Qed.

Lemma take_app_length (w t : string) :
  Str.take (String.length w) (w ++ t) = w.
Proof.
  induction w as [|c w IH].
  - now destruct t.
  - rewrite append_cons. simpl. now rewrite IH.
Qed.

Lemma drop_app_length (w t : string) :
  Str.drop (String.length w) (w ++ t) = t.
Proof.
  induction w as [|c w IH]; [reflexivity|].
  rewrite append_cons. simpl. now rewrite IH.
Qed.

Lemma take_drop (n : nat) (s : string) : Str.take n s ++ Str.drop n s = s.
Proof.
  revert s. induction n as [|n IH]; intros s; [reflexivity|].
  destruct s as [|c s]; [reflexivity|].
  simpl. rewrite append_cons. now rewrite IH.
Qed.

Lemma length_append (a b : string) :
  String.length (a ++ b) = (String.length a + String.length b)%nat.
Proof.
  induction a as [|c a IH]; [reflexivity|].
  rewrite append_cons. simpl. now rewrite IH.
Qed.

Lemma all_append (p : ascii -> bool) (a b : string) :
  all p (a ++ b) = all p a && all p b.
Proof.
  induction a as [|c a IH]; [reflexivity|].
  rewrite append_cons. simpl. now rewrite IH, andb_assoc.
Qed.

(** What a pattern matches is a piece of the subject, and the positions
    count its code units. *)
Lemma matches_consumed r pos s pos' s' cs :
  matches r pos s pos' s' cs ->
  exists w, s = w ++ s' /\ pos' = (pos + String.length w)%nat.
Proof.
  induction 1 as [pos s|p c t pos Hp
                 |r1 r2 pos s pos1 s1 c1 pos2 s2 c2 _ IH1 _ IH2
                 |r1 r2 pos s pos' s' cs _ IH|r1 r2 pos s pos' s' cs _ IH
                 |g hi r pos s
                 |g lo hi r pos s pos1 s1 c1 pos2 s2 c2 _ _ IH1 _ IH2
                 |r pos s pos' s' cs _ IH|s|pos].
  - exists "". split; [reflexivity|simpl; lia].
  - exists (String c ""). split; [reflexivity|simpl; lia].
  - destruct IH1 as (w1 & -> & ->), IH2 as (w2 & -> & ->).
    exists (w1 ++ w2). rewrite append_assoc, length_append. split; [reflexivity|lia].
  - exact IH.
  - exact IH.
  - exists "". split; [reflexivity|simpl; lia].
  - destruct IH1 as (w1 & -> & ->), IH2 as (w2 & -> & ->).
    exists (w1 ++ w2). rewrite append_assoc, length_append. split; [reflexivity|lia].
  - exact IH.
  - exists "". split; [reflexivity|simpl; lia].
  - exists "". split; [reflexivity|simpl; lia].
Qed.

(** A group captures exactly what its pattern consumed. *)
Lemma matches_group_inv r pos s pos' s' cs :
  matches (Group r) pos s pos' s' cs ->
  exists w inner,
    s = w ++ s' /\ pos' = (pos + String.length w)%nat /\
    matches r pos s pos' s' inner /\ cs = (inner ++ [w])%list.
Proof.
  intros H. inversion H as [| | | | | | |r' p0 s0 p1 s1 inner M| |]; subst.
  destruct (matches_consumed _ _ _ _ _ _ M) as (w & -> & ->).
  exists w, inner. repeat split; try assumption.
  replace (pos + String.length w - pos)%nat with (String.length w) by lia.
  now rewrite take_app_length.
Qed.

(** A quantified character class consumes a run of that class, within the
    bounds of the quantifier, and closes no group. *)
Lemma matches_class_run r pos s pos' s' cs :
  matches r pos s pos' s' cs ->
  forall greedy lo hi p,
    r = Rep greedy lo hi (Chr p) ->
    cs = [] /\
    exists w,
      s = w ++ s' /\ pos' = (pos + String.length w)%nat /\
      all p w = true /\ (lo <= String.length w)%nat /\
      (forall h, hi = Some h -> (String.length w <= Nat.max lo h)%nat).
Proof.
  induction 1 as [pos s|p c t pos Hp
                 |r1 r2 pos s pos1 s1 c1 pos2 s2 c2 _ _ _ _
                 |r1 r2 pos s pos' s' cs _ _|r1 r2 pos s pos' s' cs _ _
                 |g hi r pos s
                 |g lo hi r pos s pos1 s1 c1 pos2 s2 c2 Hhi M1 _ M2 IH2
                 |r pos s pos' s' cs _ _|s|pos];
    intros greedy lo' hi' p' E; try discriminate E.
  - injection E as -> <- -> ->. split; [reflexivity|].
    exists "". repeat split; simpl; try lia.
  - injection E as -> -> -> ->.
    inversion M1 as [|p0 c t pos0 Hp| | | | | | | |]; subst.
    destruct (IH2 _ _ _ _ eq_refl) as (-> & w & -> & -> & Hall & Hlo & Hbound).
    split; [reflexivity|].
    exists (String c w). rewrite append_cons. simpl. rewrite Hp, Hall.
    repeat split; try lia.
    intros h ->. 
    destruct lo' as [|lo'], h as [|h]; simpl in *.
    + now destruct Hhi.
    + specialize (Hbound h eq_refl). lia.
    + specialize (Hbound 0%nat eq_refl). lia.
    + specialize (Hbound h eq_refl). lia.
Qed.

(** [exec] answers a place where the pattern matches. *)
Lemma search_sound r fuel pos t h :
  search r fuel pos t = Some h ->
  exists n s',
    start h = (pos + n)%nat /\
    matches r (start h) (Str.drop n t) (stop h) s' (groups h).
Proof.
  revert pos t. induction fuel as [|fuel IH]; intros pos t; simpl.
  - destruct (run r pos t [] _) as [x|] eqn:E; [|discriminate].
    intros [= <-]. apply run_sound in E as (pos' & s' & cs & M & [= <-]).
    exists 0%nat, s'. simpl. split; [lia|exact M].
  - destruct (run r pos t [] _) as [x|] eqn:E.
    + intros [= <-]. apply run_sound in E as (pos' & s' & cs & M & [= <-]).
      exists 0%nat, s'. simpl. split; [lia|exact M].
    + destruct t as [|c t]; [discriminate|].
      intros H. apply IH in H as (n & s' & Hs & M).
      exists (S n), s'. simpl. split; [lia|exact M].
Qed.

Lemma exec_sound r s h :
  exec r s = Some h ->
  exists s',
    matches r (start h) (Str.drop (start h) s) (stop h) s' (groups h).
Proof.
  unfold exec. intros H. apply search_sound in H as (n & s' & Hs & M).
  simpl in Hs. subst n. now exists s'.
Qed.

(** [match[0]] is the piece of the subject between the two positions. *)
Lemma whole_consumed s h w s' :
  Str.drop (start h) s = w ++ s' ->
  stop h = (start h + String.length w)%nat ->
  whole s h = w /\ s = Str.take (start h) s ++ w ++ s'.
Proof.
  intros Hd Hs. unfold whole. rewrite Hd, Hs.
  replace (start h + String.length w - start h)%nat with (String.length w) by lia.
  rewrite take_app_length. split; [reflexivity|].
  rewrite <- Hd. symmetry. apply take_drop.
Qed.

End MatcherSound.

(** ** What the source's patterns capture *)

Section PatternShapes.
Import JS Regex RegexSpec Notes.

Lemma matches_groupless r pos s pos' s' cs :
  matches r pos s pos' s' cs -> groupless r = true -> cs = [].
Proof.
  induction 1 as [pos s|p c t pos Hp
                 |r1 r2 pos s pos1 s1 c1 pos2 s2 c2 _ IH1 _ IH2
                 |r1 r2 pos s pos' s' cs _ IH|r1 r2 pos s pos' s' cs _ IH
                 |g hi r pos s
                 |g lo hi r pos s pos1 s1 c1 pos2 s2 c2 _ _ IH1 _ IH2
                 |r pos s pos' s' cs _ IH|s|pos];
    simpl; intros G; try reflexivity; try discriminate G.
  - apply andb_prop in G as [G1 G2]. now rewrite IH1, IH2.
  - apply andb_prop in G as [G1 G2]. now apply IH.
  - apply andb_prop in G as [G1 G2]. now apply IH.
  - now rewrite IH1, IH2.
Qed.

Lemma matches_seq_inv r1 r2 pos s pos2 s2 cs :
  matches (Seq r1 r2) pos s pos2 s2 cs ->
  exists pos1 s1 c1 c2,
    matches r1 pos s pos1 s1 c1 /\ matches r2 pos1 s1 pos2 s2 c2 /\
    cs = (c1 ++ c2)%list.
Proof.
  intros H. inversion H; subst. eauto 8.
Qed.

Lemma matches_eps_inv pos s pos' s' cs :
  matches Eps pos s pos' s' cs -> pos' = pos /\ s' = s /\ cs = [].
Proof. intros H. inversion H; subst. auto. Qed.

Lemma matches_chr_inv p pos s pos' s' cs :
  matches (Chr p) pos s pos' s' cs ->
  exists c, s = String c s' /\ p c = true /\ pos' = S pos /\ cs = [].
Proof. intros H. inversion H; subst. eauto. Qed.

Lemma matches_bol_inv pos s pos' s' cs :
  matches Bol pos s pos' s' cs -> pos = 0%nat /\ pos' = 0%nat /\ s' = s /\ cs = [].
Proof. intros H. inversion H; subst. auto. Qed.

Lemma matches_eol_inv pos s pos' s' cs :
  matches Eol pos s pos' s' cs -> s = "" /\ s' = "" /\ pos' = pos /\ cs = [].
Proof. intros H. inversion H; subst. auto. Qed.

(** A literal under the [i] flag consumes the literal in some case. *)
Lemma matches_lit_i lit0 pos s pos' s' cs :
  matches (lit_i lit0) pos s pos' s' cs ->
  exists w, s = w ++ s' /\ pos' = (pos + String.length w)%nat /\
            lowercase w = lowercase lit0.
Proof.
  revert pos s cs. induction lit0 as [|c0 lit0 IH]; intros pos s cs H; simpl in H.
  - apply matches_eps_inv in H as (-> & -> & _).
    exists "". split; [reflexivity|]. split; [simpl; lia|reflexivity].
  - apply matches_seq_inv in H as (pos1 & s1 & c1 & c2 & M1 & M2 & _).
    apply matches_chr_inv in M1 as (c & -> & Hc & -> & _).
    apply IH in M2 as (w & -> & -> & Hw).
    exists (String c w). rewrite append_cons. split; [reflexivity|].
    split; [simpl; lia|]. simpl. rewrite Hw.
    apply Ascii.eqb_eq in Hc. now rewrite Hc.
Qed.

(** A literal consumes itself. *)
Lemma matches_lit lit0 pos s pos' s' cs :
  matches (lit lit0) pos s pos' s' cs ->
  s = lit0 ++ s' /\ pos' = (pos + String.length lit0)%nat.
Proof.
  revert pos s cs. induction lit0 as [|c0 lit0 IH]; intros pos s cs H; simpl in H.
  - apply matches_eps_inv in H as (-> & -> & _). split; [reflexivity|simpl; lia].
  - apply matches_seq_inv in H as (pos1 & s1 & c1 & c2 & M1 & M2 & _).
    apply matches_chr_inv in M1 as (c & -> & Hc & -> & _).
    apply IH in M2 as (-> & ->). apply Ascii.eqb_eq in Hc as <-.
    rewrite append_cons. split; [reflexivity|simpl; lia].
Qed.

(** The source's "\d+\.?\d*" consumes a numeral. *)
Lemma number_shape pos s pos' s' cs :
  matches number pos s pos' s' cs ->
  cs = [] /\
  exists w, s = w ++ s' /\ pos' = (pos + String.length w)%nat /\ numeral w.
Proof.
  intros H. split; [now apply (matches_groupless _ _ _ _ _ _ H)|].
  unfold number in H. cbn [seqs] in H.
  apply matches_seq_inv in H as (p1 & s1 & c1 & c1' & M1 & H & _).
  apply matches_seq_inv in H as (p2 & s2 & c2 & c2' & M2 & H & _).
  apply matches_seq_inv in H as (p3 & s3 & c3 & c3' & M3 & H & _).
  apply matches_eps_inv in H as (-> & -> & _).
  eapply matches_class_run in M1 as (_ & w1 & -> & -> & A1 & L1 & _);
    [|reflexivity].
  eapply matches_class_run in M2 as (_ & w2 & -> & -> & A2 & _ & B2);
    [|reflexivity].
  eapply matches_class_run in M3 as (_ & w3 & -> & -> & A3 & _ & _);
    [|reflexivity].
  exists (w1 ++ w2 ++ w3). rewrite !append_assoc, !length_append.
  split; [reflexivity|]. split; [lia|].
  exists w1, w2, w3. split; [reflexivity|].
  split; [destruct w1; [simpl in L1; lia|discriminate]|].
  split; [exact A1|]. split; [|exact A3].
  specialize (B2 1%nat eq_refl).
  destruct w2 as [|c [|c' w2]]; [now left| |simpl in B2; lia].
  right. cbn [all] in A2.
  rewrite andb_true_r in A2. apply Ascii.eqb_eq in A2. now rewrite <- A2.
Qed.

Lemma append_cancel_r (a b t : string) : a ++ t = b ++ t -> a = b.
Proof.
  intros E.
  assert (L : String.length a = String.length b).
  { apply (f_equal String.length) in E. rewrite !length_append in E. lia. }
  apply (f_equal (Str.take (String.length a))) in E.
  rewrite take_app_length in E. rewrite L in E.
  now rewrite take_app_length in E.
Qed.

(** The score pattern captures a numeral as its group 1. *)
Lemma score_capture (s : string) (h : hit) :
  exec re_cvss_score s = Some h ->
  exists g, group h 1 = Some g /\ numeral g.
Proof.
  intros H. apply exec_sound in H as (s' & M).
  unfold re_cvss_score in M. cbn [seqs] in M.
  apply matches_seq_inv in M as (p1 & s1 & c1 & c1' & M1 & M & Eg).
  apply matches_seq_inv in M as (p2 & s2 & c2 & c2' & M2 & M & ->).
  apply matches_seq_inv in M as (p3 & s3 & c3 & c3' & M3 & M & ->).
  apply matches_seq_inv in M as (p4 & s4 & c4 & c4' & M4 & M & ->).
  apply matches_eps_inv in M as (Ep & Es & ->). subst p4 s4.
  apply matches_groupless in M1; [|reflexivity].
  apply matches_groupless in M2; [|reflexivity].
  apply matches_groupless in M3; [|reflexivity].
  apply matches_group_inv in M4 as (w & inner & -> & -> & M4 & ->).
  apply number_shape in M4 as (-> & w' & E & _ & N).
  apply append_cancel_r in E. subst w'. subst c1 c2 c3. exists w. split; [|exact N].
  unfold group. rewrite Eg. reflexivity.
Qed.

(** The vector pattern matches a piece of the subject of the shape
    [vector_like]. *)
Lemma vector_capture (s : string) (h : hit) :
  exec re_cvss_vector s = Some h ->
  exists before after,
    s = before ++ whole s h ++ after /\ vector_like (whole s h).
Proof.
  intros H. apply exec_sound in H as (s' & M).
  unfold re_cvss_vector in M. cbn [seqs] in M.
  apply matches_seq_inv in M as (p1 & s1 & c1 & c1' & M1 & M & _).
  apply matches_seq_inv in M as (p2 & s2 & c2 & c2' & M2 & M & _).
  apply matches_seq_inv in M as (p3 & s3 & c3 & c3' & M3 & M & _).
  apply matches_seq_inv in M as (p4 & s4 & c4 & c4' & M4 & M & _).
  apply matches_eps_inv in M as (E1 & E2 & _).
  apply matches_lit_i in M1 as (w1 & D & -> & L1).
  apply matches_chr_inv in M2 as (d & -> & Hd & -> & _).
  apply matches_chr_inv in M3 as (sl & -> & Hsl & -> & _).
  eapply matches_class_run in M4 as (_ & body & -> & -> & A & L & _);
    [|reflexivity].
  apply Ascii.eqb_eq in Hsl as <-. subst s'.
  destruct (whole_consumed s h (w1 ++ String d (String "/" body)) s4)
    as [W S].
  { rewrite D. now rewrite append_assoc, !append_cons. }
  { rewrite E1, length_append. simpl. lia. }
  rewrite W. exists (Str.take (start h) s), s4. split; [exact S|].
  exists w1, d, body. repeat split; try assumption.
  destruct body; [simpl in L; lia|discriminate].
Qed.

(** The source's "^\d{6,8}$" accepts exactly the strings of six to eight
    digits. *)
Lemma note_id_only (s : string) :
  test re_note_id s = true ->
  Str.all_digits s = true /\ (6 <= String.length s <= 8)%nat.
Proof.
  unfold test. destruct (exec re_note_id s) as [h|] eqn:H; [|discriminate].
  intros _. apply exec_sound in H as (s' & M).
  unfold re_note_id in M. cbn [seqs] in M.
  apply matches_seq_inv in M as (p1 & s1 & c1 & c1' & M1 & M & _).
  apply matches_seq_inv in M as (p2 & s2 & c2 & c2' & M2 & M & _).
  apply matches_seq_inv in M as (p3 & s3 & c3 & c3' & M3 & M & _).
  apply matches_eps_inv in M as (_ & -> & _).
  apply matches_bol_inv in M1 as (S0 & -> & -> & _).
  rewrite S0 in M2. simpl in M2.
  eapply matches_class_run in M2 as (_ & w & -> & -> & A & L & B);
    [|reflexivity].
  apply matches_eol_inv in M3 as (E & _).
  rewrite E, append_empty_r.
  specialize (B 8%nat eq_refl). split; [|simpl in B; lia].
  clear -A. induction w as [|c w IH]; [reflexivity|].
  simpl in *. apply andb_prop in A as [-> A]. now apply IH.
Qed.

(** The component pattern takes the whole string apart into a component
    name, white space and a version number. *)
Lemma component_capture (s : string) (h : hit) :
  exec re_component_version s = Some h ->
  exists comp gap ver,
    s = comp ++ gap ++ ver /\
    group h 1 = Some comp /\ group h 2 = Some ver /\
    comp <> "" /\ all component_char comp = true /\
    gap <> "" /\ all Str.is_space gap = true /\
    ver <> "" /\ all Str.is_digit ver = true.
Proof.
  intros H. apply exec_sound in H as (s' & M).
  unfold re_component_version in M. cbn [seqs] in M.
  apply matches_seq_inv in M as (p1 & s1 & c1 & c1' & M1 & M & Eg).
  apply matches_seq_inv in M as (p2 & s2 & c2 & c2' & M2 & M & ->).
  apply matches_seq_inv in M as (p3 & s3 & c3 & c3' & M3 & M & ->).
  apply matches_seq_inv in M as (p4 & s4 & c4 & c4' & M4 & M & ->).
  apply matches_seq_inv in M as (p5 & s5 & c5 & c5' & M5 & M & ->).
  apply matches_eps_inv in M as (_ & -> & ->).
  apply matches_bol_inv in M1 as (S0 & -> & -> & ->).
  rewrite S0 in M2. simpl in M2.
  apply matches_group_inv in M2 as (comp & i2 & -> & -> & M2 & ->).
  eapply matches_class_run in M2 as (-> & comp' & E2 & _ & A2 & L2 & _);
    [|reflexivity].
  eapply matches_class_run in M3 as (-> & gap & -> & -> & A3 & L3 & _);
    [|reflexivity].
  apply matches_group_inv in M4 as (ver & i4 & -> & -> & M4 & ->).
  eapply matches_class_run in M4 as (-> & ver' & E4 & _ & A4 & L4 & _);
    [|reflexivity].
  apply matches_eol_inv in M5 as (-> & _).
  apply append_cancel_r in E2. apply append_cancel_r in E4.
  subst comp' ver'.
  exists comp, gap, ver. rewrite append_empty_r.
  split; [reflexivity|]. unfold group. rewrite Eg. cbn.
  repeat split; try assumption.
  - destruct comp; [simpl in L2; lia|discriminate].
  - destruct gap; [simpl in L3; lia|discriminate].
  - destruct ver; [simpl in L4; lia|discriminate].
Qed.

End PatternShapes.

(** ** More about the fetch cascade *)

Section FetchMore.
Import JS Regex RegexSpec Notes.

(** X1. [extractCvssFromContent] throws exactly when the content is
    not a string. On a string it returns a score and a vector: the score
    is undefined or a numeral, and the vector is undefined or a piece of
    the text that reads CVSS:3. in any case, a digit, a slash and a
    non-empty run of letters, colons and slashes. *)
Theorem content_severity_shape (content : value) :
  ((exists e, extractCvssFromContent content = Throw e) <->
   forall text, content <> VStr text) /\
  (forall text,
     content = VStr text ->
     exists score vector,
       extractCvssFromContent content = Ok (score, vector) /\
       (score = VUndef \/ exists g, score = VStr g /\ numeral g) /\
       (vector = VUndef \/
        exists v before after,
          vector = VStr v /\ text = before ++ v ++ after /\
          vector_like v)).
Proof.
  split.
  - destruct content as [| | | |s| |]; cbn;
      (split; [intros [e H]; try discriminate H; intros text; discriminate
              |intros H; try (eexists; reflexivity)]).
    now destruct (H s).
  - intros text ->. unfold extractCvssFromContent.
    eexists _, _. split; [reflexivity|]. split.
    + unfold capture1.
      destruct (exec re_cvss_score text) as [h|] eqn:E; [|now left].
      right. apply score_capture in E as (g & -> & N). now exists g.
    + destruct (exec re_cvss_vector text) as [h|] eqn:E; [|now left].
      right. apply vector_capture in E as (before & after & S & V).
      exists (whole text h), before, after. split; [reflexivity|].
      split; [exact S|exact V].
Qed.

Lemma content_severity_shape_witness :
  exists g v,
    extractCvssFromContent Cases.advisory_content = Ok (VStr g, VStr v) /\
    numeral g /\ vector_like v.
Proof.
  destruct (content_severity_shape Cases.advisory_content) as [_ H].
  destruct (H _ eq_refl) as (score & vector & E & S & V).
  vm_compute in E. injection E as <- <-.
  destruct S as [S|(g & [= <-] & N)]; [discriminate|].
  destruct V as [V|(v & _ & _ & [= <-] & _ & L)]; [discriminate|].
  eexists _, _. split; [vm_compute; reflexivity|]. split; assumption.
Defined.

Lemma scan_items_rows (items : list value)
    (versions : list SoftwareComponentVersion)
    (P : SoftwareComponentVersion -> Prop) :
  (forall h s item,
      item ∈ items ->
      get_opt item "SoftwareComponentVersion" = VStr s ->
      exec re_component_version s = Some h ->
      P {| scv_component := default "" (group h 1);
           scv_version := default "" (group h 2);
           scv_supportPackage := field item "SupportPackage" ||| VStr "" |}) ->
  Forall P versions ->
  Forall P (scan_items items versions) /\
  (length (scan_items items versions) <= length versions + length items)%nat.
Proof.
  revert versions.
  induction items as [|item rest IH]; intros versions HP Hv; simpl.
  - split; [exact Hv|lia].
  - assert (HP' : forall h s item0,
              item0 ∈ rest ->
              get_opt item0 "SoftwareComponentVersion" = VStr s ->
              exec re_component_version s = Some h ->
              P {| scv_component := default "" (group h 1);
                   scv_version := default "" (group h 2);
                   scv_supportPackage :=
                     field item0 "SupportPackage" ||| VStr "" |}).
    { intros h s item0 Hin. apply HP. now apply list_elem_of_further. }
    destruct (get item "SoftwareComponentVersion") as [cv|] eqn:G;
      [|split; [exact Hv|lia]].
    apply get_Ok in G. subst cv.
    destruct (get_opt item "SoftwareComponentVersion" ||| VStr "")
      as [| | | |s| |] eqn:O; try (split; [exact Hv|lia]).
    destruct (exec re_component_version s) as [h|] eqn:E.
    + assert (S : get_opt item "SoftwareComponentVersion" = VStr s).
      { destruct (or_cases (get_opt item "SoftwareComponentVersion") (VStr ""))
          as [O'|[O' _]]; rewrite O' in O; [|exact O].
        injection O as <-. apply component_capture in E
          as (comp & gap & ver & E & _ & _ & C & _).
        destruct comp; [congruence|discriminate E]. }
      destruct (IH (versions ++ [ {| scv_component := default "" (group h 1);
                                     scv_version := default "" (group h 2);
                                     scv_supportPackage :=
                                       field item "SupportPackage" ||| VStr "" |} ])%list
                  HP')
        as [F L].
      { apply Forall_app. split; [exact Hv|]. constructor; [|constructor].
        eapply HP; [apply list_elem_of_here|exact S|exact E]. }
      split; [exact F|]. rewrite length_app in L. simpl in L. lia.
    + destruct (IH versions HP' Hv) as [F L]. split; [exact F|lia].
Qed.

(** X2. Every row [extractSoftwareComponents] returns comes from an item
    of [SupportPackage.Items] whose [SoftwareComponentVersion] is the
    row's component, white space and the row's version. The component is
    a non-empty run of capitals, digits and underscores, the version a
    non-empty run of digits, and the support package is the item's
    [SupportPackage], or the empty string when that is falsy. There are
    never more rows than items. *)
Theorem software_component_rows (sapNote : value) :
  Forall (fun row =>
            exists item gap,
              item ∈ NotesSpec.support_items sapNote /\
              get_opt item "SoftwareComponentVersion"
                = VStr (scv_component row ++ gap ++ scv_version row) /\
              gap <> "" /\ all Str.is_space gap = true /\
              scv_component row <> "" /\
              all component_char (scv_component row) = true /\
              scv_version row <> "" /\
              all Str.is_digit (scv_version row) = true /\
              scv_supportPackage row
                = get_opt item "SupportPackage" ||| VStr "")
         (extractSoftwareComponents sapNote) /\
  (length (extractSoftwareComponents sapNote)
   <= length (NotesSpec.support_items sapNote))%nat.
Proof.
  unfold extractSoftwareComponents, NotesSpec.support_items, field.
  destruct (get_opt (get_opt sapNote "SupportPackage") "Items")
    as [| | | | |items|]; try (split; [constructor|simpl; lia]).
  destruct (scan_items_rows items []
    (fun row =>
       exists item gap,
         item ∈ items /\
         get_opt item "SoftwareComponentVersion"
           = VStr (scv_component row ++ gap ++ scv_version row) /\
         gap <> "" /\ all Str.is_space gap = true /\
         scv_component row <> "" /\
         all component_char (scv_component row) = true /\
         scv_version row <> "" /\
         all Str.is_digit (scv_version row) = true /\
         scv_supportPackage row
           = get_opt item "SupportPackage" ||| VStr "")) as [F L].
  - intros h s item Hin S E.
    apply component_capture in E
      as (comp & gap & ver & -> & -> & -> & C1 & C2 & G1 & G2 & V1 & V2).
    exists item, gap. cbn [scv_component scv_version scv_supportPackage default].
    repeat split; assumption.
  - constructor.
  - split; [exact F|simpl in L; lia].
Qed.

Lemma software_component_rows_witness :
  length (extractSoftwareComponents Cases.two_rows_note) = 1%nat /\
  Forall (fun row => scv_component row <> "" /\ scv_version row <> "")
         (extractSoftwareComponents Cases.two_rows_note).
Proof.
  split; [vm_compute; reflexivity|].
  destruct (software_component_rows Cases.two_rows_note) as [F _].
  eapply Forall_impl; [exact F|].
  intros row (item & gap & _ & _ & _ & _ & H1 & _ & H3 & _).
  split; assumption.
Defined.

Section Cascade.
Variable env : Env.

Lemma parseNoteResponse_some response noteId o :
  parseNoteResponse env response noteId = Ok o -> exists note, o = Some note.
Proof.
  unfold parseNoteResponse. intros H.
  apply bind_Ok in H as (responseText & _ & H).
  destruct (returned _); injection H as <-; eauto.
Qed.

Lemma parseRawNoteDetail_some response noteId o :
  parseRawNoteDetail env response noteId = Ok o -> exists note, o = Some note.
Proof.
  unfold parseRawNoteDetail. intros H.
  apply bind_Ok in H as (responseText & _ & H).
  destruct (returned _); [injection H as <-; eauto|].
  destruct (_ && _); injection H as <-; eauto.
Qed.

Lemma endpoint_nothing_iff endpoint noteId token :
  yields_nothing (endpoint_attempt env endpoint noteId token) <->
  NotesSpec.request_fails env endpoint token.
Proof.
  unfold yields_nothing, endpoint_attempt, NotesSpec.request_fails, makeRequest.
  destruct (fetch env (baseUrl ++ endpoint) token) as [r|e]; simpl;
    [|tauto].
  destruct (ok r) eqn:Hok; simpl.
  - destruct (parseNoteResponse env r noteId) as [o|e] eqn:P.
    + apply parseNoteResponse_some in P as P'. destruct P' as (n & ->).
      simpl. split; [discriminate|].
      intros [[D _]|[e He]]; [discriminate|].
      unfold parseNoteResponse in P. rewrite He in P. discriminate.
    + simpl. split; [|reflexivity]. intros _. right.
      unfold parseNoteResponse in P.
      destruct (text r) as [t|e']; [|eauto]. simpl in P.
      destruct (returned _); discriminate.
  - destruct (status r =? 404)%nat eqn:S; simpl.
    + apply Nat.eqb_eq in S.
      destruct (parseNoteResponse env r noteId) as [o|e] eqn:P.
      * apply parseNoteResponse_some in P as P'. destruct P' as (n & ->).
        simpl. split; [discriminate|].
        intros [[_ D]|[e He]]; [contradiction|].
        unfold parseNoteResponse in P. rewrite He in P. discriminate.
      * simpl. split; [|reflexivity]. intros _. right.
        unfold parseNoteResponse in P.
        destruct (text r) as [t|e']; [|eauto]. simpl in P.
        destruct (returned _); discriminate.
    + apply Nat.eqb_neq in S. split; [|intros _].
      * intros _. left. split; [reflexivity|exact S].
      * destruct (text r); reflexivity.
Qed.

Lemma try_endpoints_none_iff endpoints noteId token :
  try_endpoints env endpoints noteId token = None <->
  forall endpoint, endpoint ∈ endpoints ->
    NotesSpec.request_fails env endpoint token.
Proof.
  induction endpoints as [|e rest IH]; cbn [try_endpoints].
  - split; [|reflexivity]. intros _ endpoint Hin. now apply elem_of_nil in Hin.
  - destruct (returned (endpoint_attempt env e noteId token)) as [n|] eqn:R.
    + split; [discriminate|]. intros H.
      assert (F : NotesSpec.request_fails env e token)
        by (apply H, list_elem_of_here).
      apply endpoint_nothing_iff with (noteId := noteId) in F.
      unfold yields_nothing in F. congruence.
    + rewrite IH. split.
      * intros H endpoint Hin. apply elem_of_cons in Hin as [->|Hin].
        -- apply (endpoint_nothing_iff e noteId token). exact R.
        -- now apply H.
      * intros H endpoint Hin. apply H. now apply list_elem_of_further.
Qed.

(** X3. [getNote] returns [null] exactly when the browser fetch and the
    raw request yield nothing and every one of the three fallback requests
    fails: a fallback endpoint that answers at all, be it with 404, makes
    [getNote] return a record. *)
Theorem fetch_null_iff (noteId token : string) :
  getNote env noteId token = Ok None <->
  yields_nothing (getNoteWithPlaywright env noteId token) /\
  yields_nothing (raw_attempt env noteId token) /\
  forall endpoint, endpoint ∈ fallbackEndpoints noteId ->
    NotesSpec.request_fails env endpoint token.
Proof.
  rewrite <- try_endpoints_none_iff with (noteId := noteId).
  unfold getNote, catch, yields_nothing.
  destruct (returned (getNoteWithPlaywright _ _ _));
    [split; [discriminate|intros (D & _); discriminate D]|].
  destruct (returned (raw_attempt _ _ _));
    [split; [discriminate|intros (_ & D & _); discriminate D]|].
  unfold mret, outcome_ret. split.
  - intros H. repeat split. congruence.
  - intros (_ & _ & ->). reflexivity.
Qed.

End Cascade.

Lemma truthy_or_r (a b : value) : truthy b = true -> truthy (a ||| b) = true.
Proof. unfold or. now destruct (truthy a) eqn:T. Qed.

Lemma truthy_literal (c : ascii) (s t : string) :
  truthy (VStr (String c s ++ t)) = true.
Proof. now rewrite append_cons. Qed.

(** [enhanceWithCvssFromTab] touches the two severity fields only. *)
Lemma enhance_frame (noteDetail : SapNoteDetail) (page : CvssPage)
    (noteId : string) :
  let enhanced := enhanceWithCvssFromTab noteDetail page noteId in
  id enhanced = id noteDetail /\ title enhanced = title noteDetail /\
  summary enhanced = summary noteDetail /\
  content enhanced = content noteDetail /\
  language enhanced = language noteDetail /\
  releaseDate enhanced = releaseDate noteDetail /\
  component enhanced = component noteDetail /\
  priority enhanced = priority noteDetail /\
  category enhanced = category noteDetail /\
  url enhanced = url noteDetail /\
  affectedVersions enhanced = affectedVersions noteDetail.
Proof.
  cbv zeta. unfold enhanceWithCvssFromTab.
  destruct (_ && _); [repeat split|]. destruct (_ || _); repeat split.
Qed.

Ltac filled_fields :=
  repeat match goal with
  | |- _ /\ _ => split
  | |- truthy (_ ||| _) = true => apply truthy_or_r
  | |- truthy (VStr (String _ _ ++ _)) = true => apply truthy_literal
  | |- truthy (VStr (launchpad_url _)) = true =>
      unfold launchpad_url; apply truthy_literal
  | |- truthy (VStr (String _ _)) = true => reflexivity
  | |- _ <> _ -> truthy (_ ||| _) = true =>
      let H := fresh in intros H; apply truthy_or_r; revert H
  | |- _ <> _ -> truthy (VStr ?s) = true =>
      let H := fresh in intros H; destruct s; [now destruct H|reflexivity]
  end.

Lemma enhance_recorded noteId noteDetail page :
  NotesSpec.recorded noteId noteDetail ->
  NotesSpec.recorded noteId (enhanceWithCvssFromTab noteDetail page noteId).
Proof.
  unfold NotesSpec.recorded, NotesSpec.filled.
  destruct (enhance_frame noteDetail page noteId)
    as (-> & -> & -> & -> & -> & -> & _ & _ & _ & -> & _).
  tauto.
Qed.

Lemma envelope_recorded sapNote page noteId note :
  note_from_envelope sapNote page noteId = Ok note -> NotesSpec.recorded noteId note.
Proof.
  unfold note_from_envelope. intros H.
  apply bind_Ok in H as (sv & _ & H). injection H as <-.
  destruct (_ || _); [apply enhance_recorded|];
    unfold NotesSpec.recorded, NotesSpec.filled; cbn [id title summary content language
      releaseDate url]; filled_fields.
Qed.

Lemma body_json_recorded jsonData page noteId note :
  note_from_body_json jsonData page noteId = Ok note -> NotesSpec.recorded noteId note.
Proof.
  unfold note_from_body_json. intros H.
  apply bind_Ok in H as (sv & _ & H). injection H as <-.
  apply enhance_recorded.
  unfold NotesSpec.recorded, NotesSpec.filled; cbn [id title summary content language
    releaseDate url]; filled_fields.
Qed.

Lemma html_json_recorded jsonData page noteId note :
  note_from_html_json jsonData page noteId = Ok note -> NotesSpec.recorded noteId note.
Proof.
  unfold note_from_html_json. intros H.
  apply bind_Ok in H as (sv & _ & H). injection H as <-.
  apply enhance_recorded.
  unfold NotesSpec.recorded, NotesSpec.filled; cbn [id title summary content language
    releaseDate url]; filled_fields.
Qed.

Lemma dom_recorded noteData page noteId note :
  note_from_dom noteData page noteId = Ok note -> NotesSpec.recorded noteId note.
Proof.
  unfold note_from_dom. intros H.
  apply bind_Ok in H as (sv & _ & H). injection H as <-.
  apply enhance_recorded.
  unfold NotesSpec.recorded, NotesSpec.filled; cbn [id title summary content language
    releaseDate url]; filled_fields.
Qed.

Lemma raw_json_recorded jsonData noteId note :
  note_from_raw_json jsonData noteId = Ok note -> NotesSpec.recorded noteId note.
Proof.
  unfold note_from_raw_json. intros H.
  apply bind_Ok in H as (sv & _ & H). injection H as <-.
  unfold NotesSpec.recorded, NotesSpec.filled; cbn [id title summary content language
    releaseDate url]; filled_fields.
Qed.

Lemma odata_recorded item noteId note :
  mapToSapNoteDetail item noteId = Ok note -> NotesSpec.recorded noteId note.
Proof.
  unfold mapToSapNoteDetail. intros H.
  apply bind_Ok in H as (sv & _ & H). injection H as <-.
  unfold NotesSpec.recorded, NotesSpec.filled; cbn [id title summary content language
    releaseDate url]; filled_fields.
Qed.

Lemma getNote_filled (env : Env) (noteId token : string)
    (note : SapNoteDetail) :
  getNote env noteId token = Ok (Some note) ->
  NotesSpec.filled note /\
  (noteId <> "" -> truthy (id note) = true) /\
  (truthy (title note) = true \/
   exists html, note = parseHtmlForNoteDetail html noteId).
Proof.
  intros H. apply getNote_origin in H.
  destruct H as [text j r page _ _ H|text j page _ H|text j page _ H|nd page H
                |text j _ H| -> | html -> |text j d _ _ H].
  - apply envelope_recorded in H as (F & I & T). auto.
  - apply body_json_recorded in H as (F & I & T). auto.
  - apply html_json_recorded in H as (F & I & T). auto.
  - apply dom_recorded in H as (F & I & T). auto.
  - apply raw_json_recorded in H as (F & I & T). auto.
  - split; [|split; [|left]];
      unfold NotesSpec.filled, redirect_stub;
      cbn [id title summary content language releaseDate url]; filled_fields.
  - split; [|split; [|right; eauto]];
      unfold NotesSpec.filled, parseHtmlForNoteDetail;
      cbn [id title summary content language releaseDate url]; filled_fields.
  - apply odata_recorded in H as (F & I & T). auto.
Qed.


(** X4. Every record [getNote] returns has a non-empty summary, content,
    language, release date and url, and an id that is truthy whenever the
    requested identifier is not empty. Its title is truthy as well, unless
    the record was read off an HTML page by [parseHtmlForNoteDetail],
    whose title element may be empty. *)
Theorem fetched_record_is_filled (env : Env) (noteId token : string)
    (note : SapNoteDetail) :
  getNote env noteId token = Ok (Some note) ->
  NotesSpec.filled note /\
  (noteId <> "" -> truthy (id note) = true) /\
  (truthy (title note) = true \/
   exists html, note = parseHtmlForNoteDetail html noteId).
Proof. apply getNote_filled. Qed.

Lemma fetched_record_is_filled_witness :
  exists note,
    getNote Cases.env_404 "9999999" "JSESSIONID=abc" = Ok (Some note) /\
    NotesSpec.filled note /\ truthy (id note) = true.
Proof.
  eexists. split; [vm_compute; reflexivity|].
  destruct (fetched_record_is_filled Cases.env_404 "9999999" "JSESSIONID=abc"
              _ ltac:(vm_compute; reflexivity)) as (F & I & _).
  split; [exact F|]. apply I. discriminate.
Defined.

Lemma fetch_null_iff_witness :
  (exists note, getNote Cases.env_404 "9999999" "JSESSIONID=abc" = Ok (Some note))
  /\ getNote Cases.env_500 "9999999" "JSESSIONID=abc" = Ok None.
Proof.
  split.
  - destruct (getNote Cases.env_404 "9999999" "JSESSIONID=abc")
      as [[note|]|e] eqn:E.
    + now exists note.
    + apply (fetch_null_iff Cases.env_404) in E as (_ & _ & F).
      assert (Hin : "/support/notes/9999999" ∈ fallbackEndpoints "9999999")
        by (unfold fallbackEndpoints; set_solver).
      specialize (F _ Hin).
      unfold NotesSpec.request_fails in F. simpl in F.
      destruct F as [[_ D]|[e D]]; [now destruct D|discriminate D].
    + vm_compute in E. discriminate E.
  - apply (fetch_null_iff Cases.env_500). repeat split.
    intros endpoint _. unfold NotesSpec.request_fails. simpl.
    left. split; [reflexivity|discriminate].
Defined.

End FetchMore.

(** ** The search cascade, beyond its direct fetch *)

Section SearchMore.
Import JS.

Variable env : Notes.Env.
Variable strategies : Search.Strategies.

(** The direct fetch gives the cascade a response exactly when the
    trimmed query has the shape of a note id and [getNote] finds a
    record for it. *)
Lemma direct_note_returned (query token : string) :
  Notes.returned (Search.direct_note env query token) = None <->
  Regex.test Notes.re_note_id (Str.trim query) = false \/
  Notes.getNote env (Str.trim query) token = Ok None.
Proof.
  unfold Search.direct_note.
  destruct (Regex.test _ _) eqn:T.
  - destruct (getNote_total env (Str.trim query) token) as [r E].
    rewrite E. destruct r as [note|]; simpl.
    + split; [discriminate|]. intros [H|H]; discriminate.
    + split; auto.
  - simpl. split; auto.
Qed.

Lemma internal_search_returned (query token : string) (maxResults : nat) :
  Notes.returned (Search.internal_search strategies query token maxResults)
    = None <->
  (exists e, Search.searchViaInternalAPI strategies query token maxResults
             = Throw e) \/
  Search.searchViaInternalAPI strategies query token maxResults = Ok [].
Proof.
  unfold Search.internal_search.
  destruct (Search.searchViaInternalAPI _ _ _ _) as [[|r rs]|e]; simpl.
  - split; auto.
  - split; [discriminate|]. intros [[e H]|H]; discriminate.
  - split; eauto.
Qed.

(** X5. [searchNotes] throws in one case only: the Coveo search threw,
    the trimmed query is not a note id or its direct fetch returned
    [null], and the internal search threw or returned no result. The
    message is then "SAP Notes search failed: " followed by the helpful
    message made from the Coveo error: the sentence that names that
    error and, after it, the list of workarounds and the closing note;
    nothing of what the fallbacks threw is in it. *)
Theorem search_throws_iff (query token : string) (maxResults : nat)
    (msg : string) :
  Search.searchNotes env strategies query token maxResults = Throw msg <->
  exists errorMessage,
    Search.coveo strategies query token maxResults = Throw errorMessage /\
    (Regex.test Notes.re_note_id (Str.trim query) = false \/
     Notes.getNote env (Str.trim query) token = Ok None) /\
    ((exists e, Search.searchViaInternalAPI strategies query token maxResults
                = Throw e) \/
     Search.searchViaInternalAPI strategies query token maxResults = Ok []) /\
    msg = "SAP Notes search failed: "
          ++ Search.helpfulMessage errorMessage.
Proof.
  unfold Search.searchNotes, catch.
  destruct (Search.coveo _ _ _ _) as [response|errorMessage].
  - split; [discriminate|]. intros (e & H & _); discriminate.
  - destruct (Notes.returned (Search.direct_note _ _ _)) as [r1|] eqn:D.
    + split; [discriminate|]. intros (e & _ & H & _).
      apply direct_note_returned in H. congruence.
    + destruct (Notes.returned (Search.internal_search _ _ _ _)) as [r2|] eqn:I.
      * split; [discriminate|]. intros (e & _ & _ & H & _).
        apply internal_search_returned in H. congruence.
      * apply direct_note_returned in D. apply internal_search_returned in I.
        simpl. split.
        -- intros [= <-]. eauto 10.
        -- intros (e & [= <-] & _ & _ & ->). reflexivity.
Qed.

(** X6. A response of [searchNotes] is the one the Coveo search gave,
    or, when that search threw, a response of a fallback: it has at least
    one result, counts exactly its results, and hands the query back
    untrimmed. *)
Theorem search_response_shape (query token : string) (maxResults : nat)
    (response : Search.SapNoteSearchResponse) :
  Search.searchNotes env strategies query token maxResults = Ok response ->
  Search.coveo strategies query token maxResults = Ok response \/
  ((exists errorMessage,
      Search.coveo strategies query token maxResults = Throw errorMessage) /\
   Search.results response <> [] /\
   Search.totalResults response
     = Search.js_nat (length (Search.results response)) /\
   Search.query response = query).
Proof.
  unfold Search.searchNotes, catch.
  destruct (Search.coveo _ _ _ _) as [r0|errorMessage]; [intros [= ->]; auto|].
  intros H. right. split; [eauto|].
  destruct (Notes.returned (Search.direct_note _ _ _)) as [r1|] eqn:D.
  - injection H as <-. apply returned_Some in D.
    unfold Search.direct_note in D.
    destruct (Regex.test _ _); [|discriminate].
    apply bind_Ok in D as ([note|] & _ & D); [|discriminate].
    injection D as <-. simpl. repeat split. discriminate.
  - destruct (Notes.returned (Search.internal_search _ _ _ _)) as [r2|] eqn:I;
      [|discriminate].
    injection H as <-. apply returned_Some in I.
    unfold Search.internal_search in I.
    apply bind_Ok in I as (fallbackResults & _ & I).
    destruct fallbackResults as [|r rs]; [discriminate|].
    injection I as <-. simpl. repeat split. discriminate.
Qed.

(** X7. The result of the direct fetch carries the trimmed query as its
    id, whatever id the record itself has, and the record's title,
    summary, component, release date, language and url. *)
Theorem search_direct_hit_fields (query token : string) (maxResults : nat)
    (errorMessage : string) (note : Notes.SapNoteDetail) :
  Search.coveo strategies query token maxResults = Throw errorMessage ->
  Regex.test Notes.re_note_id (Str.trim query) = true ->
  Notes.getNote env (Str.trim query) token = Ok (Some note) ->
  exists result,
    Search.searchNotes env strategies query token maxResults
      = Ok {| Search.results := [result];
              Search.totalResults := Search.js_nat 1;
              Search.query := query |} /\
    Search.id result = VStr (Str.trim query) /\
    Search.title result = Notes.title note /\
    Search.summary result = Notes.summary note /\
    Search.component result = Notes.component note /\
    Search.releaseDate result = Notes.releaseDate note /\
    Search.language result = Notes.language note /\
    Search.url result = Notes.url note.
Proof.
  intros Hc Ht Hn.
  unfold Search.searchNotes, Search.direct_note, catch.
  rewrite Hc, Ht, Hn. simpl. eexists. split; [reflexivity|].
  repeat split.
Qed.

End SearchMore.

(** X8. For a query that, trimmed, is not six to eight digits, the
    fallbacks never fetch a note: [searchNotes] does not depend on what
    the note endpoints would answer. *)
Theorem search_text_query_skips_fetch (env env' : Notes.Env)
    (strategies : Search.Strategies) (query token : string)
    (maxResults : nat) :
  ~ (Str.all_digits (Str.trim query) = true /\
     (6 <= String.length (Str.trim query) <= 8)%nat) ->
  Search.searchNotes env strategies query token maxResults
  = Search.searchNotes env' strategies query token maxResults.
Proof.
  intros H.
  assert (T : Regex.test Notes.re_note_id (Str.trim query) = false).
  { destruct (Regex.test _ _) eqn:T; [|reflexivity].
    destruct H. now apply note_id_only. }
  unfold Search.searchNotes, Search.direct_note. now rewrite T.
Qed.

Lemma search_throws_iff_witness :
  Search.searchNotes Scenario.env_offline Scenario.coveo_down
    "2744792" "JSESSIONID=abc" 10
  = JS.Throw ("SAP Notes search failed: "
           ++ Search.helpfulMessage "Coveo token extraction failed") /\
  exists response,
    Search.searchNotes Scenario.env_offline Cases.coveo_down_internal_up
      "memory leak" "JSESSIONID=abc" 10 = JS.Ok response.
Proof.
  split.
  - apply (search_throws_iff Scenario.env_offline Scenario.coveo_down
             "2744792" "JSESSIONID=abc" 10).
    eexists. split; [reflexivity|].
    split; [right; vm_compute; reflexivity|].
    split; [|reflexivity].
    vm_compute; eauto.
  - eexists. vm_compute. reflexivity.
Defined.

Lemma search_response_shape_witness :
  exists response,
    Search.searchNotes Scenario.env_offline Cases.coveo_down_internal_up
      "memory leak" "JSESSIONID=abc" 10 = JS.Ok response /\
    Search.totalResults response = Search.js_nat 1.
Proof.
  eexists. split; [vm_compute; reflexivity|].
  destruct (search_response_shape Scenario.env_offline
              Cases.coveo_down_internal_up "memory leak" "JSESSIONID=abc" 10
              _ ltac:(vm_compute; reflexivity)) as [H|(_ & _ & H & _)];
    [discriminate|exact H].
Defined.

Lemma search_direct_hit_fields_witness :
  exists result,
    Search.searchNotes Scenario.env_padded Scenario.coveo_down
      " 2744792 " "JSESSIONID=abc" 10
      = JS.Ok {| Search.results := [result];
                 Search.totalResults := Search.js_nat 1;
                 Search.query := " 2744792 " |} /\
    Search.id result = JS.VStr "2744792".
Proof.
  destruct (search_direct_hit_fields Scenario.env_padded Scenario.coveo_down
              " 2744792 " "JSESSIONID=abc" 10 "Coveo token extraction failed"
              _ ltac:(reflexivity) ltac:(vm_compute; reflexivity)
              ltac:(vm_compute; reflexivity))
    as (result & E & I & _).
  exists result. split; [exact E|exact I].
Defined.

Lemma search_text_query_skips_fetch_witness :
  Search.searchNotes Scenario.env_offline Cases.coveo_down_internal_up
    "memory leak" "JSESSIONID=abc" 10
  = Search.searchNotes Scenario.env_padded Cases.coveo_down_internal_up
      "memory leak" "JSESSIONID=abc" 10.
Proof.
  apply search_text_query_skips_fetch.
  intros [D _]. vm_compute in D. discriminate.
Defined.

(** ** The authenticator over all schedules *)

Section AuthInvariants.
Import JS Auth AuthSpec.
Local Open Scope Z_scope.

Variable maxJwtAgeH : Z.

Lemma await_frame (i p : nat) (st st' : State) :
  await i p st = Some st' ->
  calls st' = calls st /\ authState st' = authState st /\
  authPromise st' = authPromise st /\ cache st' = cache st /\
  flows st' = flows st.
Proof.
  unfold await. intros H.
  destruct (promises st !! p) as [pr|]; [|discriminate]. cbn in H.
  destruct (settled pr); injection H as <-; repeat split.
Qed.

Lemma valid_token_nonempty (a : AuthState) (now : Z) :
  isTokenValid a now = true ->
  exists tok, token a = Some tok /\ tok <> "".
Proof.
  unfold isTokenValid.
  destruct (token a) as [tok|]; [|discriminate].
  destruct (expiresAt a) as [e|]; [|discriminate].
  intros H. apply andb_prop in H as [H _]. apply andb_prop in H as [H _].
  exists tok. split; [reflexivity|]. now destruct tok.
Qed.

Lemma check_honest (i : nat) (now : Z) (st st' : State) :
  Forall honest (calls st) ->
  ensureAuthenticated_check i now st = Some st' ->
  Forall honest (calls st').
Proof.
  intros F. unfold ensureAuthenticated_check.
  destruct (isTokenValid _ _) eqn:V.
  - intros [= <-]. apply valid_token_nonempty in V as (tok & -> & N).
    cbn. now apply Forall_insert.
  - destruct (authenticate now st) as [st1 p] eqn:A. intros H.
    apply await_frame in H as (-> & _). cbn.
    apply Forall_insert; [|exact I].
    unfold authenticate in A.
    destruct (usable_cache st now); injection A as <- <-; exact F.
Qed.

Lemma step_honest (ev : event) (st st' : State) :
  Forall honest (calls st) ->
  step maxJwtAgeH ev st = Some st' ->
  Forall honest (calls st').
Proof.
  intros F. destruct ev as [now|now|p r now|]; cbn.
  - unfold ensureAuthenticated. destruct (authPromise st) as [p|].
    + intros H. apply await_frame in H as (-> & _). cbn.
      apply Forall_app. split; [exact F|]. repeat constructor.
    + apply check_honest. cbn. apply Forall_app. split; [exact F|].
      repeat constructor.
  - unfold resume. destruct (microtasks st) as [|i rest]; [discriminate|].
    destruct (calls st !! i) as [c|]; [|discriminate]. cbn.
    destruct c as [p|p|tok|e]; try discriminate;
      (destruct (promises st !! p) as [pr|]; [|discriminate]); cbn;
      destruct (settled pr) as [| |e]; try discriminate.
    + apply check_honest. exact F.
    + intros [= <-]. cbn. now apply Forall_insert.
    + destruct (token (authState st)) as [[|ch tok]|]; cbn;
        intros [= <-]; cbn; now apply Forall_insert.
    + intros [= <-]. cbn. now apply Forall_insert.
  - unfold authenticate_done. destruct (microtasks st); [|discriminate].
    destruct (promises st !! p) as [pr|]; [|discriminate]. cbn.
    destruct (settled pr); try discriminate.
    destruct r as [allCookies [|]| | | |cause]; cbn; intros [= <-]; exact F.
  - intros [= <-]. exact F.
Qed.

Lemma run_honest (evs : list event) (st st' : State) :
  Forall honest (calls st) ->
  run maxJwtAgeH evs st = Some st' ->
  Forall honest (calls st').
Proof.
  revert st. induction evs as [|ev evs IH]; intros st F; cbn.
  - now intros [= <-].
  - destruct (step maxJwtAgeH ev st) as [st1|] eqn:S; [|discriminate]. cbn.
    apply IH. eapply step_honest; eassumption.
Qed.

(** X9. Whatever the schedule of calls, resumptions, finished logins and
    invalidations, and whatever the cache file held at the start, a call
    of [ensureAuthenticated] that has returned has returned a token that
    is not the empty string. *)
Theorem returned_token_is_never_empty (disk : option CachedToken)
    (evs : list event) (st : State) (i : nat) (tok : string) :
  run maxJwtAgeH evs (initial disk) = Some st ->
  calls st !! i = Some (Returned tok) ->
  tok <> "".
Proof.
  intros R L.
  assert (F : Forall honest (calls st)).
  { eapply run_honest; [|exact R]. constructor. }
  rewrite Forall_lookup in F. exact (F i _ L).
Qed.

Ltac list_steps :=
  repeat first
    [ rewrite list_insert_insert_eq
    | rewrite list_lookup_insert_eq
        by (rewrite ?length_insert, length_app; cbn; lia)
    | rewrite insert_app_r_alt by lia
    | rewrite lookup_app_r by lia
    | rewrite Nat.sub_diag
    | progress cbn ].

Lemma call_with_valid_token (st : State) (now : Z) (tok : string) :
  authPromise st = None ->
  isTokenValid (authState st) now = true ->
  token (authState st) = Some tok ->
  step maxJwtAgeH (Call now) st
  = Some (with_calls (calls st ++ [Returned tok]) st).
Proof.
  intros Ha V T. cbn. unfold ensureAuthenticated. rewrite Ha.
  unfold ensureAuthenticated_check. cbn. rewrite V, T. cbn.
  unfold set_pc, with_calls. cbn.
  rewrite insert_app_r_alt by lia. rewrite Nat.sub_diag. reflexivity.
Qed.

(** X10. While nothing is being awaited and the token in memory is not
    empty and more than five minutes from its expiry, every call returns
    that token at once: no login is started, no promise is made, and the
    state of the authenticator stays as it is. *)
Theorem token_served_until_buffer (st : State) (tok : string) (e : Z)
    (times : list Z) :
  authPromise st = None ->
  token (authState st) = Some tok ->
  expiresAt (authState st) = Some e ->
  tok <> "" -> e <> 0 ->
  Forall (fun now => now < e - 5 * 60 * 1000) times ->
  exists st',
    run maxJwtAgeH (map Call times) st = Some st' /\
    calls st' = (calls st ++ map (fun _ => Returned tok) times)%list /\
    flows st' = flows st /\
    promises st' = promises st /\
    authState st' = authState st /\
    authPromise st' = None.
Proof.
  intros Ha T E N Z0 F. revert st Ha T E.
  induction F as [|now times Hn F IH]; intros st Ha T E.
  - exists st. cbn. rewrite app_nil_r. repeat split; assumption.
  - assert (V : isTokenValid (authState st) now = true).
    { unfold isTokenValid, bufferMs. rewrite T, E.
      destruct tok; [contradiction|]. cbn.
      apply andb_true_intro. split; [|lia].
      destruct (Z.eqb_spec e 0); [contradiction|reflexivity]. }
    cbn [map run]. rewrite (call_with_valid_token st now tok Ha V T).
    cbn [mbind option_bind].
    destruct (IH (with_calls (calls st ++ [Returned tok]) st) Ha T E)
      as (st' & R & C & Fl & P & A & AP).
    exists st'. split; [exact R|]. rewrite C. cbn.
    rewrite <- app_assoc. repeat split; assumption.
Qed.

Lemma in_flight_settled (ps ps' : list promise) :
  settled <$> ps = settled <$> ps' ->
  length (filter (fun pr => is_pending pr) ps)
  = length (filter (fun pr => is_pending pr) ps').
Proof.
  revert ps'. induction ps as [|pr ps IH]; intros [|pr' ps'];
    try discriminate; [reflexivity|].
  rewrite !fmap_cons. intros [= H1 H2].
  assert (E : is_pending pr = is_pending pr')
    by (unfold is_pending; now rewrite H1).
  rewrite !filter_cons.
  destruct (decide (is_pending pr)) as [a|a],
           (decide (is_pending pr')) as [b|b]; cbn; auto.
  - rewrite E in a. contradiction.
  - rewrite <- E in b. contradiction.
Qed.

Lemma await_settled (i p : nat) (st st' : State) :
  await i p st = Some st' ->
  settled <$> promises st' = settled <$> promises st.
Proof.
  unfold await. intros H.
  destruct (promises st !! p) as [pr|] eqn:L; [|discriminate]. cbn in H.
  destruct (settled pr) eqn:S; injection H as <-; cbn; try reflexivity.
  rewrite list_fmap_insert. cbn. apply list_insert_id.
  rewrite list_lookup_fmap, L. cbn. now rewrite S.
Qed.

Lemma await_defined (i p : nat) (st : State) :
  (p < length (promises st))%nat -> exists st', await i p st = Some st'.
Proof.
  intros H. apply lookup_lt_is_Some_2 in H as [pr L].
  unfold await. rewrite L. cbn. destruct (settled pr); eauto.
Qed.

(** X11. While [authPromise] is set, a call starts nothing: any number
    of calls coming in are all parked on that promise, no login is
    started, no promise is made or settled, and the token state is not
    touched. *)
Theorem guarded_calls_start_nothing (st : State) (p : nat)
    (times : list Z) :
  authPromise st = Some p ->
  (p < length (promises st))%nat ->
  exists st',
    run maxJwtAgeH (map Call times) st = Some st' /\
    calls st' = (calls st ++ map (fun _ => AwaitGuard p) times)%list /\
    flows st' = flows st /\
    in_flight st' = in_flight st /\
    length (promises st') = length (promises st) /\
    authState st' = authState st /\
    authPromise st' = Some p.
Proof.
  intros Ha Hp.
  enough (G : exists st',
    run maxJwtAgeH (map Call times) st = Some st' /\
    calls st' = (calls st ++ map (fun _ => AwaitGuard p) times)%list /\
    flows st' = flows st /\
    settled <$> promises st' = settled <$> promises st /\
    authState st' = authState st /\
    authPromise st' = Some p).
  { destruct G as (st' & R & C & F & S & A & AP). exists st'.
    repeat split; try assumption.
    - unfold in_flight. now apply in_flight_settled.
    - apply (f_equal length) in S. now rewrite !length_fmap in S. }
  revert st Ha Hp. induction times as [|now times IH]; intros st Ha Hp.
  - exists st. cbn. rewrite app_nil_r. repeat split; assumption.
  - cbn [map run step]. unfold ensureAuthenticated. rewrite Ha.
    destruct (await_defined (length (calls st)) p
                (with_calls (calls st ++ [AwaitGuard p]) st) Hp) as [st1 A].
    rewrite A. cbn [mbind option_bind].
    pose proof (await_settled _ _ _ _ A) as S1.
    apply await_frame in A as (C1 & A1 & AP1 & _ & F1).
    cbn in C1, A1, AP1, F1, S1.
    destruct (IH st1) as (st' & R & C & F & S & AS & AP).
    { now rewrite AP1. }
    { apply (f_equal length) in S1. rewrite !length_fmap in S1. lia. }
    exists st'. split; [exact R|].
    rewrite C, C1, F, F1, S, S1, AS, A1. cbn. rewrite <- app_assoc.
    repeat split; assumption.
Qed.

Lemma fresh_start_adopts_cache (c : CachedToken) (now now' : Z) :
  isTokenValidFromCache c now = true ->
  run maxJwtAgeH [Call now; Tick now'] (initial (Some c))
  = Some {| authState := {| token := Some (access_token c);
                            expiresAt := Some (cached_expiresAt c);
                            isAuthenticated := true |};
            authPromise := None;
            promises := [ {| settled := Fulfilled; waiters := [] |} ];
            calls := [Returned (access_token c)];
            microtasks := [];
            cache := Some c;
            flows := 0 |}.
Proof.
  intros V.
  assert (N : nonempty (access_token c) = true).
  { unfold isTokenValidFromCache in V.
    apply andb_prop in V as [V _]. now apply andb_prop in V as [V _]. }
  unfold run, step, ensureAuthenticated, ensureAuthenticated_check,
    authenticate, usable_cache. cbn. rewrite V. cbn.
  unfold resume. cbn. unfold nonempty in N. cbn in N.
  destruct (access_token c); [discriminate|]. reflexivity.
Qed.

Lemma cookieString_nonempty (c : Cookie) (rest : list Cookie) :
  cookieString (c :: rest) <> "".
Proof.
  intros E. apply (f_equal String.length) in E.
  destruct rest as [|c' rest]; cbn [cookieString] in E;
    rewrite !length_append in E; cbn in E; lia.
Qed.

(** X12. A login that ended well with at least one cookie and wrote the
    cache file serves a fresh authenticator: started on that file, its
    first call adopts the cached cookie string and returns it without
    any login, when the call comes at a time that is not negative and
    more than five minutes before the expiry the login computed (login
    time plus [maxJwtAgeH] hours). *)
Theorem cached_login_survives_restart (st st1 : State) (p : nat)
    (allCookies : list Cookie) (t0 now now' : Z) :
  authenticate_done maxJwtAgeH p (LoggedIn allCookies true) t0 st = Some st1 ->
  allCookies <> [] ->
  0 <= now ->
  now < t0 + maxJwtAgeH * 60 * 60 * 1000 - 5 * 60 * 1000 ->
  exists st2,
    run maxJwtAgeH [Call now; Tick now'] (initial (cache st1)) = Some st2 /\
    calls st2 = [Returned (cookieString allCookies)] /\
    flows st2 = 0%nat /\
    in_flight st2 = 0%nat.
Proof.
  intros D N Z0 T.
  assert (C : cache st1
              = Some {| access_token := cookieString allCookies;
                        cookies := allCookies;
                        cached_expiresAt := t0 + maxJwtAgeH * 60 * 60 * 1000 |}).
  { unfold authenticate_done in D.
    destruct (microtasks st); [|discriminate].
    destruct (promises st !! p) as [pr|]; [|discriminate]. cbn in D.
    destruct (settled pr); try discriminate.
    injection D as <-. reflexivity. }
  assert (Ne : cookieString allCookies <> "").
  { destruct allCookies as [|c rest]; [congruence|].
    apply cookieString_nonempty. }
  rewrite C. eexists. split.
  - apply fresh_start_adopts_cache.
    unfold isTokenValidFromCache, nonempty, bufferMs. cbn.
    destruct (cookieString allCookies); [contradiction|]. cbn.
    apply andb_true_intro. split; [|lia].
    destruct (Z.eqb_spec (t0 + maxJwtAgeH * 60 * 60 * 1000) 0);
      [lia|reflexivity].
  - repeat split.
Qed.

(** A call that finds nobody signed in and nothing usable in the cache
    starts a login; when that login fails the call throws its error and
    [authPromise] keeps the rejected promise. *)
Lemma failed_login_leaves_promise (st : State) (r : login_result) (e : error)
    (t0 t1 : Z) :
  authPromise st = None ->
  microtasks st = [] ->
  isTokenValid (authState st) t0 = false ->
  usable_cache st t0 = None ->
  rejection r = Some e ->
  exists st1,
    run maxJwtAgeH [Call t0; LoginDone (length (promises st)) r t1; Tick t1] st
      = Some st1 /\
    calls st1 = (calls st ++ [Thrown e])%list /\
    flows st1 = S (flows st) /\
    authPromise st1 = Some (length (promises st)) /\
    promises st1 !! length (promises st)
      = Some {| settled := Rejected e; waiters := [] |} /\
    microtasks st1 = [].
Proof.
  intros Ha Hm V U Rj.
  destruct r as [? ?| | | |cause]; [discriminate|..]; injection Rj as <-.
  all: unfold run, step, ensureAuthenticated; rewrite Ha.
  all: unfold ensureAuthenticated_check; cbn; rewrite V.
  all: unfold authenticate, usable_cache in *; cbn; rewrite U; cbn.
  all: unfold await; list_steps.
  all: unfold authenticate_done; cbn; rewrite Hm; list_steps.
  all: unfold resume; list_steps.
  all: (eexists; split; [reflexivity|]); list_steps.
  all: repeat split.
Qed.

Lemma rejected_blocks (st : State) (p : nat) (e : error)
    (times : list (Z * Z)) :
  authPromise st = Some p ->
  promises st !! p = Some {| settled := Rejected e; waiters := [] |} ->
  microtasks st = [] ->
  exists st',
    run maxJwtAgeH (one_by_one times) st = Some st' /\
    calls st' = (calls st ++ map (fun _ => Thrown e) times)%list /\
    flows st' = flows st.
Proof.
  revert st. induction times as [|[now now'] times IH]; intros st Ha Hp Hm.
  - exists st. cbn. rewrite app_nil_r. repeat split.
  - destruct (rejected_login_sticks maxJwtAgeH st p _ e now now' Ha Hp
                eq_refl Hm) as (st1 & R1 & C1 & F1 & A1 & P1 & M1).
    destruct (IH st1) as (st' & R & C & F); [assumption|congruence|assumption|].
    exists st'. split.
    + cbn [one_by_one]. cbn [run] in R1 |- *.
      destruct (step maxJwtAgeH (Call now) st) as [sa|]; [|discriminate].
      cbn [mbind option_bind] in R1 |- *.
      destruct (step maxJwtAgeH (Tick now') sa) as [sb|]; [|discriminate].
      cbn [mbind option_bind] in R1 |- *. injection R1 as ->. exact R.
    + rewrite C, C1, F, F1. cbn. rewrite <- app_assoc. split; reflexivity.
Qed.

(** X13. A failed login is not tried again. When a call finds nobody
    signed in and no usable cache, and the login it starts fails, then
    that call and every call after it, however many and whenever they
    come, throws the error of that one login; exactly one login has been
    started. *)
Theorem failed_login_is_never_retried (st : State) (r : login_result)
    (e : error) (t0 t1 : Z) (times : list (Z * Z)) :
  authPromise st = None ->
  microtasks st = [] ->
  isTokenValid (authState st) t0 = false ->
  usable_cache st t0 = None ->
  rejection r = Some e ->
  exists st',
    run maxJwtAgeH
      (Call t0 :: LoginDone (length (promises st)) r t1 :: Tick t1
         :: one_by_one times) st = Some st' /\
    calls st' = (calls st ++ Thrown e :: map (fun _ => Thrown e) times)%list /\
    flows st' = S (flows st).
Proof.
  intros Ha Hm V U Rj.
  destruct (failed_login_leaves_promise st r e t0 t1 Ha Hm V U Rj)
    as (st1 & R1 & C1 & F1 & A1 & P1 & M1).
  destruct (rejected_blocks st1 _ e times A1 P1 M1) as (st' & R & C & F).
  exists st'. split.
  - cbn [run] in R1 |- *.
    destruct (step maxJwtAgeH (Call t0) st) as [sa|]; [|discriminate].
    cbn [mbind option_bind] in R1 |- *.
    destruct (step maxJwtAgeH (LoginDone _ r t1) sa) as [sb|]; [|discriminate].
    cbn [mbind option_bind] in R1 |- *.
    destruct (step maxJwtAgeH (Tick t1) sb) as [sc|]; [|discriminate].
    cbn [mbind option_bind] in R1 |- *. injection R1 as ->. exact R.
  - rewrite C, C1, F, F1. rewrite <- app_assoc. split; reflexivity.
Qed.

Lemma count_past_app (cs cs' : list pc) :
  count_past (cs ++ cs') = (count_past cs + count_past cs')%nat.
Proof. induction cs as [|c cs IH]; cbn; [reflexivity|]. rewrite IH. lia. Qed.

Lemma count_past_length (cs : list pc) : (count_past cs <= length cs)%nat.
Proof.
  induction cs as [|c cs IH]; cbn; [lia|]. destruct (past_guard c); lia.
Qed.

Lemma count_past_insert (cs : list pc) (i : nat) (c : pc) :
  past_guard c = true ->
  (count_past cs <= count_past (<[i := c]> cs))%nat.
Proof.
  intros P. revert i. induction cs as [|x cs IH]; intros [|i]; simpl; try lia.
  - rewrite P. destruct (past_guard x); lia.
  - specialize (IH i). destruct (past_guard x); lia.
Qed.

Lemma count_past_leaves_guard (cs : list pc) (i q : nat) (c : pc) :
  cs !! i = Some (AwaitGuard q) ->
  past_guard c = true ->
  count_past (<[i := c]> cs) = S (count_past cs).
Proof.
  intros L P. revert i L. induction cs as [|x cs IH]; intros [|i] L;
    try discriminate; simpl in *.
  - injection L as ->. rewrite P. reflexivity.
  - rewrite (IH i L). lia.
Qed.

Lemma check_flows (i q : nat) (now : Z) (st st' : State) :
  calls st !! i = Some (AwaitGuard q) ->
  (flows st <= count_past (calls st))%nat ->
  ensureAuthenticated_check i now st = Some st' ->
  (flows st' <= count_past (calls st'))%nat.
Proof.
  intros L F. unfold ensureAuthenticated_check.
  destruct (isTokenValid _ _).
  - intros [= <-]. cbn.
    rewrite (count_past_leaves_guard _ _ q) by (assumption || reflexivity).
    lia.
  - destruct (authenticate now st) as [st1 p] eqn:A. intros H.
    apply await_frame in H as (-> & _ & _ & _ & ->). cbn.
    unfold authenticate in A.
    destruct (usable_cache st now); injection A as <- <-; cbn;
      rewrite (count_past_leaves_guard _ _ q) by (assumption || reflexivity);
      lia.
Qed.

Lemma step_flows (ev : event) (st st' : State) :
  (flows st <= count_past (calls st))%nat ->
  step maxJwtAgeH ev st = Some st' ->
  (flows st' <= count_past (calls st'))%nat.
Proof.
  intros F. destruct ev as [now|now|p r now|]; cbn.
  - unfold ensureAuthenticated. destruct (authPromise st) as [p|].
    + intros H. apply await_frame in H as (-> & _ & _ & _ & ->). cbn.
      rewrite count_past_app. lia.
    + apply (check_flows _ 0%nat).
      * cbn. rewrite lookup_app_r by lia. now rewrite Nat.sub_diag.
      * cbn. rewrite count_past_app. lia.
  - unfold resume. destruct (microtasks st) as [|i rest]; [discriminate|].
    destruct (calls st !! i) as [c|] eqn:L; [|discriminate]. cbn.
    destruct c as [p|p|tok|e]; try discriminate;
      (destruct (promises st !! p) as [pr|]; [|discriminate]); cbn;
      destruct (settled pr) as [| |e]; try discriminate.
    + apply (check_flows _ p); assumption.
    + intros [= <-]. cbn.
      pose proof (count_past_insert (calls st) i (Thrown e) eq_refl). lia.
    + destruct (token (authState st)) as [[|ch tok]|]; cbn;
        intros [= <-]; cbn;
        match goal with
        | |- context [<[i := ?c]> (calls st)] =>
            pose proof (count_past_insert (calls st) i c eq_refl)
        end; lia.
    + intros [= <-]. cbn.
      pose proof (count_past_insert (calls st) i (Thrown e) eq_refl). lia.
  - unfold authenticate_done. destruct (microtasks st); [|discriminate].
    destruct (promises st !! p) as [pr|]; [|discriminate]. cbn.
    destruct (settled pr); try discriminate.
    destruct r as [allCookies [|]| | | |cause]; cbn; intros [= <-]; exact F.
  - intros [= <-]. exact F.
Qed.

(** X14. Logins are started by calls only, and a call starts one login
    at most: on every schedule the number of login flows started so far
    is at most the number of calls of [ensureAuthenticated] that have got
    past its guard, hence at most the number of calls. *)
Theorem logins_bounded_by_calls (disk : option CachedToken)
    (evs : list event) (st : State) :
  run maxJwtAgeH evs (initial disk) = Some st ->
  (flows st <= count_past (calls st) <= length (calls st))%nat.
Proof.
  intros R. split; [|apply count_past_length].
  assert (G : forall st0,
            (flows st0 <= count_past (calls st0))%nat ->
            run maxJwtAgeH evs st0 = Some st ->
            (flows st <= count_past (calls st))%nat).
  { clear R. induction evs as [|ev evs IH]; intros st0 F; cbn.
    - now intros [= <-].
    - destruct (step maxJwtAgeH ev st0) as [st1|] eqn:S; [|discriminate].
      cbn. apply IH. eapply step_flows; eassumption. }
  apply (G (initial disk)); [cbn; lia|exact R].
Qed.

End AuthInvariants.

Section AuthRuns.
Import JS Auth AuthSpec.
Local Open Scope Z_scope.

Lemma returned_token_is_never_empty_witness :
  "JSESSIONID=abc" <> "".
Proof.
  eapply (returned_token_is_never_empty 12 None Scenario.call_after_invalidate
            _ 1%nat "JSESSIONID=abc").
  - vm_compute. reflexivity.
  - vm_compute. reflexivity.
Defined.

Lemma token_served_until_buffer_witness :
  exists st',
    run 12 [Call 100; Call 200; Call 42000000]
      (with_authState
         {| token := Some "JSESSIONID=abc";
            expiresAt := Some 43220000;
            isAuthenticated := true |} (initial None)) = Some st' /\
    flows st' = 0%nat.
Proof.
  destruct (token_served_until_buffer 12
              (with_authState
                 {| token := Some "JSESSIONID=abc";
                    expiresAt := Some 43220000;
                    isAuthenticated := true |} (initial None))
              "JSESSIONID=abc" 43220000 [100; 200; 42000000]
              eq_refl eq_refl eq_refl ltac:(discriminate) ltac:(lia)
              ltac:(repeat (apply List.Forall_cons; [lia|]); apply List.Forall_nil))
    as (st' & R & _ & F & _).
  exists st'. split; [exact R|exact F].
Defined.

Lemma guarded_calls_start_nothing_witness :
  exists st0 st',
    run 12 [Call 0] (initial None) = Some st0 /\
    run 12 (map Call [1; 2; 3]) st0 = Some st' /\
    flows st' = 1%nat /\ in_flight st' = 1%nat.
Proof.
  eexists. 
  destruct (guarded_calls_start_nothing 12
              (default (initial None) (run 12 [Call 0] (initial None)))
              0%nat [1; 2; 3] eq_refl ltac:(vm_compute; lia))
    as (st' & R & _ & F & I & _).
  exists st'. split; [vm_compute; reflexivity|].
  split; [exact R|]. split; [exact F|exact I].
Defined.

Lemma cached_login_survives_restart_witness :
  exists st1 st2,
    run 12 [Call 0;
            LoginDone 0 (LoggedIn [ {| cookie_name := "JSESSIONID";
                                       cookie_value := "abc" |} ] true) 20000]
      (initial None) = Some st1 /\
    run 12 [Call 3600000; Tick 3600000] (initial (cache st1)) = Some st2 /\
    calls st2 = [Returned "JSESSIONID=abc"] /\
    flows st2 = 0%nat.
Proof.
  eexists.
  destruct (cached_login_survives_restart 12
              (default (initial None) (run 12 [Call 0] (initial None))) _
              0%nat
              [ {| cookie_name := "JSESSIONID"; cookie_value := "abc" |} ]
              20000 3600000 3600000 eq_refl ltac:(discriminate)
              ltac:(lia) ltac:(lia))
    as (st2 & R & C & F & _).
  exists st2. split; [vm_compute; reflexivity|].
  split; [exact R|]. split; [exact C|exact F].
Defined.

Lemma failed_login_is_never_retried_witness :
  exists st',
    run 12 [Call 0; LoginDone 0 TimedOut 30000; Tick 30000;
            Call 60000; Tick 60000; Call 90000; Tick 90000] (initial None)
      = Some st' /\
    calls st' = [Thrown AuthenticationTimeoutError;
                 Thrown AuthenticationTimeoutError;
                 Thrown AuthenticationTimeoutError] /\
    flows st' = 1%nat.
Proof.
  exact (failed_login_is_never_retried 12 (initial None) TimedOut
           AuthenticationTimeoutError 0 30000
           [(60000, 60000); (90000, 90000)]
           eq_refl eq_refl eq_refl eq_refl eq_refl).
Defined.

Lemma logins_bounded_by_calls_witness :
  exists st,
    run 12 Scenario.three_callers (initial None) = Some st /\
    (flows st <= length (calls st))%nat.
Proof.
  eexists. split; [vm_compute; reflexivity|].
  destruct (logins_bounded_by_calls 12 None Scenario.three_callers _
              ltac:(vm_compute; reflexivity)) as [A B].
  exact (Nat.le_trans _ _ _ A B).
Defined.

(** X15. The launch loop ends with a browser exactly when one of the
    launches it makes succeeds: the first, or the second after a failed
    first, or the third after two failed ones. Whatever happens, it
    sleeps six seconds in total at most. *)
Theorem launch_loop_outcome (launch : nat -> launch_result) :
  (snd (launch_loop launch) = Ok tt <->
   launch 1%nat = Launched \/ launch 2%nat = Launched
   \/ launch 3%nat = Launched) /\
  0 <= slept (fst (launch_loop launch)) <= 6000.
Proof.
  unfold launch_loop, maxRetries. cbn [launch_from].
  destruct (launch 1%nat) as [|e1] eqn:L1,
           (launch 2%nat) as [|e2] eqn:L2,
           (launch 3%nat) as [|e3] eqn:L3;
    try destruct (resource_exhausted e1) eqn:R1;
    try destruct (resource_exhausted e2) eqn:R2;
    try destruct (resource_exhausted e3) eqn:R3;
    cbn; (split; [|lia]); split; auto;
    try discriminate; intros [H|[H|H]]; discriminate.
Qed.

End AuthRuns.

(** ** Cookie strings *)

Section CookieStrings.
Import JS Cookies.

Lemma parse_pair_appends (cookies : list BrowserCookie) (pair : string) :
  parse_pair cookies pair = (cookies ++ parse_pair [] pair)%list.
Proof.
  unfold parse_pair.
  repeat match goal with
  | |- context [if ?b then _ else _] => destruct b
  end; now rewrite ?app_nil_r.
Qed.

Lemma fold_parse_pair (pairs : list string) (cookies : list BrowserCookie) :
  fold_left parse_pair pairs cookies
  = (cookies ++ fold_left parse_pair pairs [])%list.
Proof.
  revert cookies. induction pairs as [|pair pairs IH]; intros cookies; cbn.
  - now rewrite app_nil_r.
  - rewrite IH, (IH (parse_pair [] pair)), parse_pair_appends.
    now rewrite app_assoc.
Qed.

Lemma lacks_append (c : ascii) (a b : string) :
  lacks c (a ++ b) <-> lacks c a /\ lacks c b.
Proof.
  unfold lacks. rewrite all_append. apply andb_true_iff.
Qed.

Lemma lacks_cons (c x : ascii) (s : string) :
  lacks c (String x s) <-> Ascii.eqb x c = false /\ lacks c s.
Proof.
  unfold lacks. cbn. rewrite andb_true_iff, negb_true_iff. reflexivity.
Qed.

Lemma lacks_rev (c : ascii) (s : string) : lacks c (Str.rev s) <-> lacks c s.
Proof.
  induction s as [|x s IH]; cbn; [reflexivity|].
  rewrite lacks_append, IH, !lacks_cons. unfold lacks at 2. cbn. tauto.
Qed.

Lemma lacks_trimStart (c : ascii) (s : string) :
  lacks c s -> lacks c (Str.trimStart s).
Proof.
  induction s as [|x s IH]; cbn; [auto|].
  destruct (Str.is_space x); [|auto].
  intros H. apply lacks_cons in H as [_ H]. auto.
Qed.

Lemma lacks_trim (c : ascii) (s : string) : lacks c s -> lacks c (Str.trim s).
Proof.
  intros H. unfold Str.trim.
  apply lacks_rev, lacks_trimStart, lacks_rev, lacks_trimStart, H.
Qed.

Lemma lacks_take (c : ascii) (n : nat) (s : string) :
  lacks c s -> lacks c (Str.take n s).
Proof.
  revert s. induction n as [|n IH]; intros [|x s]; cbn; auto.
  - intros _. reflexivity.
  - rewrite !lacks_cons. intros [H1 H2]. auto.
Qed.

Lemma lacks_drop (c : ascii) (n : nat) (s : string) :
  lacks c s -> lacks c (Str.drop n s).
Proof.
  revert s. induction n as [|n IH]; intros [|x s]; cbn; auto.
  rewrite lacks_cons. intros [_ H]. auto.
Qed.

Lemma split_lacks (sep : ascii) (s : string) :
  Forall (lacks sep) (split sep s).
Proof.
  induction s as [|c s IH]; cbn.
  - repeat constructor.
  - destruct (Ascii.eqb c sep) eqn:E.
    + constructor; [reflexivity|exact IH].
    + destruct (split sep s) as [|piece rest].
      * repeat constructor. apply lacks_cons. split; [exact E|reflexivity].
      * inversion IH as [|? ? H1 H2]; subst. constructor; [|exact H2].
        apply lacks_cons. auto.
Qed.

Lemma indexOf_bound (s : string) (c : ascii) : (-1 <= indexOf s c)%Z.
Proof.
  induction s as [|x s IH]; cbn; [lia|].
  destruct (Ascii.eqb x c); [lia|].
  destruct (Z.ltb_spec (indexOf s c) 0); lia.
Qed.

Lemma lacks_before_index (c : ascii) (s : string) :
  lacks c (substring_to s (indexOf s c)).
Proof.
  unfold substring_to. induction s as [|x s IH]; cbn; [reflexivity|].
  destruct (Ascii.eqb x c) eqn:E; [reflexivity|].
  destruct (Z.ltb_spec (indexOf s c) 0) as [L|L]; [reflexivity|].
  replace (Z.to_nat (indexOf s c + 1)) with (S (Z.to_nat (indexOf s c)))
    by lia.
  cbn. apply lacks_cons. auto.
Qed.

Lemma truthy_string (s : string) : truthy (VStr s) = true <-> s <> "".
Proof. destruct s; cbn; split; congruence. Qed.

(** *** Trimming *)

Lemma length_rev (s : string) : String.length (Str.rev s) = String.length s.
Proof.
  induction s as [|x s IH]; cbn; [reflexivity|].
  rewrite length_append, IH. cbn. lia.
Qed.

Lemma trimStart_suffix (s : string) : exists p, s = p ++ Str.trimStart s.
Proof.
  induction s as [|x s [p IH]]; cbn; [now exists ""|].
  destruct (Str.is_space x); [|now exists ""].
  exists (String x p). rewrite append_cons. now f_equal.
Qed.

Lemma trimStart_length (s : string) :
  (String.length (Str.trimStart s) <= String.length s)%nat.
Proof.
  destruct (trimStart_suffix s) as [p E].
  rewrite E at 2. rewrite length_append. lia.
Qed.

Lemma trimStart_full (s : string) :
  (String.length s <= String.length (Str.trimStart s))%nat ->
  Str.trimStart s = s.
Proof.
  destruct (trimStart_suffix s) as [p E]. intros L.
  rewrite E in L at 1. rewrite length_append in L.
  destruct p; [now rewrite append_empty_l in E|]. cbn in L. lia.
Qed.

Lemma trimStart_head (a : ascii) (t : string) :
  Str.trimStart (String a t) = String a t <-> Str.is_space a = false.
Proof.
  cbn. destruct (Str.is_space a); split; try congruence.
  intros H. pose proof (trimStart_length t) as L. rewrite H in L.
  cbn in L. lia.
Qed.

Lemma trimStart_idem (s : string) :
  Str.trimStart (Str.trimStart s) = Str.trimStart s.
Proof.
  induction s as [|x s IH]; cbn; [reflexivity|].
  destruct (Str.is_space x) eqn:E; [exact IH|]. cbn. now rewrite E.
Qed.

Lemma trimStart_append (s a : string) :
  s <> "" -> Str.trimStart s = s -> Str.trimStart (s ++ a) = s ++ a.
Proof.
  destruct s as [|x s]; [congruence|]. intros _ H.
  apply trimStart_head in H. rewrite append_cons. now apply trimStart_head.
Qed.

(** A string that [trim] leaves alone has no space at either end. *)
Lemma trim_fixed (s : string) :
  Str.trim s = s ->
  Str.trimStart s = s /\ Str.trimStart (Str.rev s) = Str.rev s.
Proof.
  unfold Str.trim. intros H.
  pose proof (trimStart_length s) as L1.
  pose proof (trimStart_length (Str.rev (Str.trimStart s))) as L2.
  rewrite length_rev in L2.
  apply (f_equal String.length) in H as L3. rewrite length_rev in L3.
  assert (E : Str.trimStart s = s) by (apply trimStart_full; lia).
  split; [exact E|]. rewrite E in L3. apply trimStart_full.
  rewrite length_rev. lia.
Qed.

Lemma trim_both_ends (s : string) :
  Str.trimStart s = s -> Str.trimStart (Str.rev s) = Str.rev s ->
  Str.trim s = s.
Proof.
  intros H1 H2. unfold Str.trim. rewrite H1, H2. apply rev_involutive.
Qed.

(** [trim] is idempotent. *)
Lemma trim_idem (s : string) : Str.trim (Str.trim s) = Str.trim s.
Proof.
  unfold Str.trim at 2 3.
  set (u := Str.trimStart s).
  assert (U : Str.trimStart u = u) by apply trimStart_idem.
  set (w := Str.trimStart (Str.rev u)).
  assert (W : Str.trimStart w = w) by apply trimStart_idem.
  destruct (trimStart_suffix (Str.rev u)) as [p E]. fold w in E.
  apply (f_equal Str.rev) in E. rewrite rev_involutive, rev_append in E.
  apply trim_both_ends; [|now rewrite rev_involutive].
  destruct (Str.rev w) as [|a t]; [reflexivity|].
  rewrite E, append_cons in U. apply trimStart_head in U.
  now apply trimStart_head.
Qed.

Lemma trim_leading_space (s : string) : Str.trim (" " ++ s) = Str.trim s.
Proof. reflexivity. Qed.

(** What one turn of the loop adds. *)
Lemma parse_pair_entry (pair : string) (c : BrowserCookie) :
  lacks ";" pair ->
  c ∈ parse_pair [] pair ->
  name c <> "" /\ value c <> "" /\
  domain c = ".sap.com" /\ path c = "/" /\
  is_attribute (name c) = false /\
  lacks "=" (name c) /\ lacks ";" (name c) /\ lacks ";" (value c) /\
  Str.trim (name c) = name c.
Proof.
  intros Hp. unfold parse_pair.
  destruct (_ && _) eqn:G; [|intros H; now apply elem_of_nil in H].
  destruct (_ && _ && _ && _) eqn:N; [|intros H; now apply elem_of_nil in H].
  destruct (is_attribute _) eqn:A; [intros H; now apply elem_of_nil in H|].
  cbn. intros H. apply list_elem_of_singleton in H. subst c. cbn.
  apply andb_prop in N as [N _]. apply andb_prop in N as [N _].
  apply andb_prop in N as [N1 N2].
  apply truthy_string in N1. apply truthy_string in N2.
  assert (T : lacks ";" (Str.trim pair)) by now apply lacks_trim.
  repeat split; try assumption.
  - apply lacks_trim, lacks_before_index.
  - apply lacks_trim. unfold substring_to. now apply lacks_take.
  - assert (V : lacks ";" (Str.trim (substring_from (Str.trim pair)
                 (indexOf (Str.trim pair) "=" + 1)))).
    { apply lacks_trim. unfold substring_from. now apply lacks_drop. }
    destruct (quoted _); [|exact V].
    unfold slice_inner. now apply lacks_take, lacks_drop.
  - apply trim_idem.
Qed.

Lemma fold_parse_pair_entry (pairs : list string) (c : BrowserCookie) :
  c ∈ fold_left parse_pair pairs [] ->
  exists pair, pair ∈ pairs /\ c ∈ parse_pair [] pair.
Proof.
  induction pairs as [|pair pairs IH]; cbn.
  - intros H. now apply elem_of_nil in H.
  - rewrite fold_parse_pair. intros H. apply elem_of_app in H as [H|H].
    + exists pair. split; [apply list_elem_of_here|exact H].
    + destruct (IH H) as (q & Q1 & Q2). exists q.
      split; [now apply list_elem_of_further|exact Q2].
Qed.

(** X16. Every cookie [parseCookiesFromToken] reads out of a string has
    a name and a value that are not empty, the domain [.sap.com] and the
    path [/]; its name is not the name of a cookie attribute in any
    case, has no space at either end, and has no [=] and no [;] in it;
    its value has no [;] in it. *)
Theorem parsed_cookies_well_formed (token : string) (c : BrowserCookie) :
  c ∈ parseCookiesFromToken token ->
  name c <> "" /\ value c <> "" /\
  domain c = ".sap.com" /\ path c = "/" /\
  is_attribute (name c) = false /\
  lacks "=" (name c) /\ lacks ";" (name c) /\ lacks ";" (value c) /\
  Str.trim (name c) = name c.
Proof.
  intros H. apply fold_parse_pair_entry in H as (pair & P & H).
  apply (parse_pair_entry pair c); [|exact H].
  pose proof (split_lacks ";" token) as F.
  rewrite Forall_forall in F. now apply F.
Qed.

(** *** What the authenticator joins, the parser takes apart *)

Lemma split_piece (sep : ascii) (a b : string) :
  lacks sep a -> split sep (a ++ String sep b) = a :: split sep b.
Proof.
  induction a as [|x a IH].
  - intros _. rewrite append_empty_l. cbn. now rewrite Ascii.eqb_refl.
  - intros H. apply lacks_cons in H as [E H]. rewrite append_cons. cbn.
    rewrite E, (IH H). reflexivity.
Qed.

Lemma split_last (sep : ascii) (a : string) :
  lacks sep a -> split sep a = [a].
Proof.
  induction a as [|x a IH]; cbn; [reflexivity|].
  intros H. apply lacks_cons in H as [E H]. now rewrite E, (IH H).
Qed.

Lemma indexOf_append (c : ascii) (a b : string) :
  lacks c a -> indexOf (a ++ String c b) c = Z.of_nat (String.length a).
Proof.
  induction a as [|x a IH].
  - intros _. rewrite append_empty_l. cbn. now rewrite Ascii.eqb_refl.
  - intros H. apply lacks_cons in H as [E H]. rewrite append_cons.
    cbn [indexOf String.length]. rewrite E, (IH H).
    destruct (Z.ltb_spec (Z.of_nat (String.length a)) 0); lia.
Qed.

Lemma includes_append (c : ascii) (a b : string) :
  Str.includes (a ++ String c b) (String c "") = true.
Proof.
  induction a as [|x a IH].
  - rewrite append_empty_l. cbn.
    destruct (ascii_dec c c); [now destruct b|congruence].
  - rewrite append_cons. cbn [Str.includes]. rewrite IH. apply orb_true_r.
Qed.

Lemma drop_past (a : string) (c : ascii) (b : string) :
  Str.drop (S (String.length a)) (a ++ String c b) = b.
Proof.
  induction a as [|x a IH]; [reflexivity|].
  rewrite append_cons. cbn [String.length Str.drop]. exact IH.
Qed.

Lemma nonempty_length (s : string) :
  s <> "" -> (0 <? String.length s)%nat = true.
Proof. destruct s; [congruence|reflexivity]. Qed.

(** A plain cookie, joined, is read back as it was, whether or not the
    space that follows a [;] stands before it. *)
Lemma parse_pair_plain (c : Auth.Cookie) (pad : string) :
  plain c -> pad = "" \/ pad = " " ->
  parse_pair [] (pad ++ Auth.cookie_name c ++ "=" ++ Auth.cookie_value c)
  = [of_cookie c].
Proof.
  intros (Nn & Nv & Tn & Tv & Ln & _ & _ & Q & A) Hpad.
  set (n := Auth.cookie_name c) in *. set (v := Auth.cookie_value c) in *.
  apply trim_fixed in Tn as Fn. apply trim_fixed in Tv as Fv.
  destruct Fn as [Fn _]. destruct Fv as [_ Fv].
  assert (T : Str.trim (pad ++ n ++ "=" ++ v) = n ++ "=" ++ v).
  { assert (T0 : Str.trim (n ++ "=" ++ v) = n ++ "=" ++ v).
    { apply trim_both_ends.
      - now apply trimStart_append.
      - rewrite rev_append, rev_append. rewrite append_assoc.
        apply trimStart_append; [|exact Fv].
        intros E. apply (f_equal String.length) in E.
        rewrite length_rev in E. destruct v; [congruence|discriminate]. }
    destruct Hpad as [-> | ->]; [now rewrite append_empty_l|].
    now rewrite trim_leading_space. }
  unfold parse_pair. rewrite T.
  change ("=" ++ v) with (String "=" v).
  assert (G : truthy (VStr (n ++ String "=" v)) = true).
  { apply truthy_string. destruct n; [congruence|discriminate]. }
  rewrite G, (includes_append "=" n v). cbn [andb].
  rewrite (indexOf_append "=" n v Ln).
  unfold substring_to, substring_from.
  rewrite Nat2Z.id.
  replace (Z.to_nat (Z.of_nat (String.length n) + 1))
    with (S (String.length n)) by lia.
  rewrite take_app_length, drop_past, Tn, Tv, Q.
  apply truthy_string in Nn as Gn. apply truthy_string in Nv as Gv.
  rewrite Gn, Gv. cbn [andb].
  rewrite (nonempty_length n Nn), (nonempty_length v Nv). cbn [andb].
  rewrite A. reflexivity.
Qed.

Lemma cookieString_cons (c : Auth.Cookie) (rest : list Auth.Cookie) :
  rest <> [] ->
  Auth.cookieString (c :: rest)
  = (Auth.cookie_name c ++ "=" ++ Auth.cookie_value c)
    ++ String ";" (" " ++ Auth.cookieString rest).
Proof.
  destruct rest as [|c' rest]; [congruence|]. intros _.
  cbn [Auth.cookieString]. now rewrite !append_assoc.
Qed.

Lemma plain_pair_lacks (c : Auth.Cookie) :
  plain c ->
  lacks ";" (Auth.cookie_name c ++ "=" ++ Auth.cookie_value c).
Proof.
  intros (_ & _ & _ & _ & _ & Ln & Lv & _).
  apply lacks_append. split; [exact Ln|].
  apply lacks_append. split; [reflexivity|exact Lv].
Qed.

Lemma parse_joined (cookies : list Auth.Cookie) (pad : string) :
  Forall plain cookies -> cookies <> [] -> pad = "" \/ pad = " " ->
  fold_left parse_pair (split ";" (pad ++ Auth.cookieString cookies)) []
  = map of_cookie cookies.
Proof.
  intros F. revert pad. induction F as [|c rest P F IH]; [congruence|].
  intros pad _ Hpad.
  assert (Lp : lacks ";" (pad ++ Auth.cookie_name c ++ "="
                          ++ Auth.cookie_value c)).
  { apply lacks_append. split; [|now apply plain_pair_lacks].
    destruct Hpad as [-> | ->]; reflexivity. }
  destruct rest as [|c' rest].
  - cbn [Auth.cookieString]. rewrite (split_last _ _ Lp). cbn [fold_left].
    now rewrite parse_pair_plain.
  - rewrite cookieString_cons by discriminate.
    rewrite <- append_assoc. rewrite (split_piece _ _ _ Lp).
    cbn [fold_left]. rewrite fold_parse_pair.
    rewrite parse_pair_plain by assumption.
    rewrite (IH " ") by (discriminate || auto). reflexivity.
Qed.

(** X17. The cookie string the authenticator joins from plain cookies is
    taken apart again by [parseCookiesFromToken] into the same cookies,
    in the same order, each with the domain [.sap.com] and the path [/].
    A cookie is plain when its name and value are not empty and have no
    space at either end, its name has no [=] and no [;] in it and is not
    the name of a cookie attribute, and its value has no [;] in it and
    is not in double quotes. *)
Theorem joined_cookies_parse_back (cookies : list Auth.Cookie) :
  Forall plain cookies ->
  parseCookiesFromToken (Auth.cookieString cookies) = map of_cookie cookies.
Proof.
  intros F. destruct cookies as [|c rest]; [reflexivity|].
  unfold parseCookiesFromToken.
  rewrite <- (append_empty_l (Auth.cookieString (c :: rest))).
  apply parse_joined; [exact F|discriminate|now left].
Qed.

Lemma cookieString_has_equals (c : Auth.Cookie) (rest : list Auth.Cookie) :
  Str.includes (Auth.cookieString (c :: rest)) "=" = true.
Proof.
  destruct rest as [|c' rest].
  - cbn [Auth.cookieString]. apply (includes_append "=").
  - cbn [Auth.cookieString]. apply (includes_append "=").
Qed.

(** X18. [formatCookiesForAPI] passes on unchanged every token that has
    an [=] in it, whatever the cache file holds or whether it can be
    read at all; so it does with every cookie string the authenticator
    joins from at least one cookie. A token without [=] is passed on
    unchanged unless the cache gives at least one cookie. *)
Theorem format_keeps_cookie_strings
    (getCachedCookies : outcome (list Auth.Cookie)) (sapToken : string) :
  (Str.includes sapToken "=" = true \/
   (exists c rest, sapToken = Auth.cookieString (c :: rest)) \/
   getCachedCookies = Ok [] \/
   (exists e, getCachedCookies = Throw e)) ->
  formatCookiesForAPI getCachedCookies sapToken = sapToken.
Proof.
  unfold formatCookiesForAPI.
  intros [H|[(c & rest & ->)|[-> |[e ->]]]].
  - now rewrite H.
  - now rewrite cookieString_has_equals.
  - now destruct (Str.includes _ _).
  - now destruct (Str.includes _ _).
Qed.

End CookieStrings.

Lemma parsed_cookies_well_formed_witness :
  Cookies.name {| Cookies.name := "JSESSIONID"; Cookies.value := "abc";
                  Cookies.domain := ".sap.com"; Cookies.path := "/" |}
  <> "".
Proof.
  apply (parsed_cookies_well_formed
           "JSESSIONID=abc; Path=/; Secure; Domain=.sap.com").
  vm_compute. apply list_elem_of_here.
Defined.

Lemma joined_cookies_parse_back_witness :
  Cookies.parseCookiesFromToken "JSESSIONID=abc; sap-usercontext=sap-client=001"
  = [ {| Cookies.name := "JSESSIONID"; Cookies.value := "abc";
         Cookies.domain := ".sap.com"; Cookies.path := "/" |};
      {| Cookies.name := "sap-usercontext"; Cookies.value := "sap-client=001";
         Cookies.domain := ".sap.com"; Cookies.path := "/" |} ].
Proof.
  apply (joined_cookies_parse_back
           [ {| Auth.cookie_name := "JSESSIONID"; Auth.cookie_value := "abc" |};
             {| Auth.cookie_name := "sap-usercontext";
                Auth.cookie_value := "sap-client=001" |} ]).
  repeat (apply List.Forall_cons; [repeat split; (discriminate || reflexivity)|]).
  apply List.Forall_nil.
Defined.

Lemma format_keeps_cookie_strings_witness :
  Cookies.formatCookiesForAPI
    (JS.Ok [ {| Auth.cookie_name := "other"; Auth.cookie_value := "1" |} ])
    "JSESSIONID=abc" = "JSESSIONID=abc".
Proof.
  apply format_keeps_cookie_strings. left. reflexivity.
Defined.

(** ** The score read off the CVSS tab *)

Section TabScore.
Import JS Regex RegexSpec Notes.

(** The pattern of the first two score strategies captures a numeral. *)
Lemma number_capture (s : string) (h : hit) :
  exec re_number s = Some h ->
  exists g, group h 1 = Some g /\ numeral g.
Proof.
  intros H. apply exec_sound in H as (s' & M). unfold re_number in M.
  apply matches_group_inv in M as (w & inner & Ew & _ & M & Eg).
  apply number_shape in M as (-> & w' & E & P & N).
  rewrite Ew in E. apply append_cancel_r in E. subst w'.
  exists w. unfold group. rewrite Eg. split; [reflexivity|exact N].
Qed.

(** So does the pattern of the third, which reads "x / 10" after the
    words "CVSS v3.0 Base Score". *)
Lemma base_score_capture (s : string) (h : hit) :
  exec re_base_score_of_10 s = Some h ->
  exists g, group h 1 = Some g /\ numeral g.
Proof.
  intros H. apply exec_sound in H as (s' & M).
  unfold re_base_score_of_10 in M. cbn [seqs] in M.
  apply matches_seq_inv in M as (p1 & s1 & c1 & c1' & M1 & M & Eg).
  apply matches_seq_inv in M as (p2 & s2 & c2 & c2' & M2 & M & ->).
  apply matches_seq_inv in M as (p3 & s3 & c3 & c3' & M3 & M & ->).
  apply matches_seq_inv in M as (p4 & s4 & c4 & c4' & M4 & M & ->).
  apply matches_seq_inv in M as (p5 & s5 & c5 & c5' & M5 & M & ->).
  apply matches_seq_inv in M as (p6 & s6 & c6 & c6' & M6 & M & ->).
  apply matches_seq_inv in M as (p7 & s7 & c7 & c7' & M7 & M & ->).
  apply matches_seq_inv in M as (p8 & s8 & c8 & c8' & M8 & M & ->).
  apply matches_seq_inv in M as (p9 & s9 & c9 & c9' & M9 & M & ->).
  apply matches_seq_inv in M as (p10 & s10 & c10 & c10' & M10 & M & ->).
  apply matches_seq_inv in M as (p11 & s11 & c11 & c11' & M11 & M & ->).
  apply matches_seq_inv in M as (p12 & s12 & c12 & c12' & M12 & M & ->).
  apply matches_seq_inv in M as (p13 & s13 & c13 & c13' & M13 & M & ->).
  apply matches_eps_inv in M as (_ & _ & ->).
  apply matches_groupless in M1; [|reflexivity].
  apply matches_groupless in M2; [|reflexivity].
  apply matches_groupless in M3; [|reflexivity].
  apply matches_groupless in M4; [|reflexivity].
  apply matches_groupless in M5; [|reflexivity].
  apply matches_groupless in M6; [|reflexivity].
  apply matches_groupless in M7; [|reflexivity].
  apply matches_groupless in M8; [|reflexivity].
  apply matches_groupless in M10; [|reflexivity].
  apply matches_groupless in M11; [|reflexivity].
  apply matches_groupless in M12; [|reflexivity].
  apply matches_groupless in M13; [|reflexivity].
  apply matches_group_inv in M9 as (w & inner & -> & -> & M9 & ->).
  apply number_shape in M9 as (-> & w' & E & _ & N).
  apply append_cancel_r in E. subst.
  exists w'. split; [|exact N]. unfold group. rewrite Eg. reflexivity.
Qed.

Lemma number_in_shape (r : regex) (text : option string) (g : string) :
  (forall s h, exec r s = Some h -> exists g, group h 1 = Some g /\ numeral g) ->
  number_in r text = Some g -> numeral g.
Proof.
  intros C. unfold number_in. destruct text as [t|]; [|discriminate].
  destruct (truthy _); [|discriminate].
  destruct (exec r t) as [h|] eqn:E; [|discriminate].
  apply C in E as (g' & -> & N). now intros [= <-].
Qed.

Lemma first_score_in (strategies : list (option string)) (score : string) :
  first_score strategies = Some score ->
  Some score ∈ strategies /\ score <> "".
Proof.
  induction strategies as [|[s|] rest IH]; cbn [first_score]; [discriminate| |].
  - destruct (truthy (VStr s)) eqn:T.
    + intros [= <-]. split; [apply list_elem_of_here|].
      now destruct s.
    + intros H. apply IH in H as [H1 H2].
      split; [now apply list_elem_of_further|exact H2].
  - intros H. apply IH in H as [H1 H2].
    split; [now apply list_elem_of_further|exact H2].
Qed.

(** X19. The score [extractCvssFromPage] reads off the launchpad page is
    either undefined or a numeral: a non-empty run of digits, then at
    most one dot and further digits. Whatever text the page shows, no
    other string is taken for a score. *)
Theorem tab_score_is_numeral (p : CvssPage) (noteId : string) :
  fst (extractCvssFromPage p noteId) = VUndef \/
  exists g, fst (extractCvssFromPage p noteId) = VStr g /\ numeral g.
Proof.
  unfold extractCvssFromPage.
  destruct (_ && nav_aborts p); [now left|].
  destruct (_ && _); [now left|]. cbn [fst].
  destruct (first_score (scoreStrategies p)) as [score|] eqn:F; [|now left].
  right. exists score. split; [reflexivity|].
  apply first_score_in in F as [F _]. unfold scoreStrategies in F.
  repeat (apply elem_of_cons in F as [F|F]).
  - symmetry in F. eapply number_in_shape; [|exact F]. apply number_capture.
  - symmetry in F. eapply number_in_shape; [|exact F]. apply number_capture.
  - symmetry in F. eapply number_in_shape; [|exact F].
    apply base_score_capture.
  - now apply elem_of_nil in F.
Qed.

End TabScore.

(** ** Coveo results *)

Section CoveoResults.
Import JS Regex RegexSpec Coveo.

Variable rt : Runtime.

Lemma or_else_Ok (a : value) (b : outcome value) (v : value) :
  or_else a b = Ok v ->
  (truthy a = true /\ v = a) \/ (truthy a = false /\ b = Ok v).
Proof.
  unfold or_else. destruct (truthy a); [intros [= <-]; now left|now right].
Qed.

(** What the pattern finds is a run of six to eight digits. *)
Lemma note_number_found (s : string) (h : hit) :
  exec re_note_number s = Some h -> note_number (whole s h).
Proof.
  intros H. apply exec_sound in H as (s' & M).
  eapply matches_class_run in M as (_ & w & Ew & Es & A & L & B);
    [|reflexivity].
  destruct (whole_consumed s h w s' Ew Es) as [-> _].
  split; [exact A|]. specialize (B 8%nat eq_refl). cbn in B. lia.
Qed.

Lemma match0_shape (v g : value) :
  match0 v = Ok g ->
  g = VUndef \/ exists s, g = VStr s /\ note_number s.
Proof.
  destruct v as [| | | |s| |]; cbn; try discriminate;
    try (intros [= <-]; now left).
  destruct (exec re_note_number s) as [h|] eqn:E; intros [= <-];
    [right|now left].
  eexists. split; [reflexivity|]. now apply note_number_found.
Qed.

Lemma parse_item_shape (item : value) (r : Search.SapNoteResult) :
  parse_item rt item = Ok r -> result_shape item r.
Proof.
  unfold parse_item. intros H.
  apply bind_Ok in H as (raw & Hraw & H). apply get_Ok in Hraw. subst raw.
  apply bind_Ok in H as (noteId & Hid & H).
  apply bind_Ok in H as (releaseDate & Hdate & H).
  apply bind_Ok in H as (url & Hurl & H).
  apply bind_Ok in H as (shown & _ & H).
  apply bind_Ok in H as ([] & Hsub & H).
  injection H as <-. unfold result_shape. cbn [Search.id Search.title Search.summary Search.url Search.releaseDate].
  assert (Id : truthy noteId = true /\
               (noteId = get_opt (get_opt item "raw") "mh_id"
                \/ (exists g, noteId = VStr g /\ note_number g)
                \/ noteId = VStr "unknown")).
  { apply or_else_Ok in Hid as [[T ->]|[_ Hid]]; [auto|].
    apply bind_Ok in Hid as (p & Hp & Hid). apply match0_shape in Hp.
    apply or_else_Ok in Hid as [[T ->]|[_ Hid]].
    - split; [exact T|]. destruct Hp as [-> |Hp]; [discriminate|auto].
    - apply bind_Ok in Hid as (t & Ht & Hid). apply match0_shape in Ht.
      injection Hid as <-. destruct (or_cases t (VStr "unknown")) as [-> |[-> T]].
      + auto.
      + split; [exact T|]. destruct Ht as [-> |Ht]; [discriminate|auto]. }
  destruct Id as [IdT IdS].
  repeat split; try assumption.
  - destruct (get_opt item "title") as [| | | |[|c t]| |]; try discriminate;
      cbn; eexists; (split; [reflexivity|discriminate]).
  - apply truthy_or_r. reflexivity.
  - apply or_else_Ok in Hurl as [[T ->]|[_ Hurl]]; [exact T|].
    apply bind_Ok in Hurl as (s & _ & Hurl). injection Hurl as <-.
    apply truthy_literal.
  - destruct (truthy (get_opt _ "date")).
    + apply bind_Ok in Hdate as (iso & _ & Hdate). injection Hdate as <-. eauto.
    + injection Hdate as <-. eauto.
Qed.

Lemma parse_items_spec (items : list value)
    (results : list Search.SapNoteResult) :
  (forall r, r ∈ parse_items rt items results <->
             r ∈ results \/ exists item, item ∈ items /\ parse_item rt item = Ok r) /\
  (length (parse_items rt items results) <= length results + length items)%nat.
Proof.
  revert results. induction items as [|item items IH]; intros results; cbn.
  - split; [|lia]. intros r. split; [auto|]. intros [H|(item & H & _)]; [exact H|].
    now apply elem_of_nil in H.
  - destruct (IH (match parse_item rt item with
                  | Ok result => (results ++ [result])%list
                  | Throw _ => results
                  end)) as [IH1 IH2].
    split.
    + intros r. rewrite IH1. destruct (parse_item rt item) as [r0|e] eqn:P.
      * rewrite elem_of_app, list_elem_of_singleton. split.
        -- intros [[H|H]|(it & H1 & H2)]; [auto| |].
           ++ subst. right. exists item. split; [apply list_elem_of_here|exact P].
           ++ right. exists it. split; [now apply list_elem_of_further|exact H2].
        -- intros [H|(it & H1 & H2)]; [auto|].
           apply elem_of_cons in H1 as [-> |H1].
           ++ left. right. congruence.
           ++ right. eauto.
      * split.
        -- intros [H|(it & H1 & H2)]; [auto|].
           right. exists it. split; [now apply list_elem_of_further|exact H2].
        -- intros [H|(it & H1 & H2)]; [auto|].
           apply elem_of_cons in H1 as [-> |H1]; [congruence|]. right. eauto.
    + destruct (parse_item rt item); [rewrite length_app in IH2; cbn in IH2|];
        lia.
Qed.

Lemma results_branch (v : value) :
  (if negb (truthy v) || negb (is_array v)
   then mret []
   else mret (parse_items rt (elements v) []))
  = Ok (parse_items rt (elements v) []).
Proof.
  destruct v; cbn [is_array elements negb parse_items];
    rewrite ?orb_true_r; reflexivity.
Qed.

Lemma parse_results (data : value) (results : list Search.SapNoteResult) :
  parseCoveoResponse rt data = Ok results ->
  results = parse_items rt (items_of data) [].
Proof.
  unfold parseCoveoResponse, items_of. intros H.
  apply bind_Ok in H as (v & Hv & H). apply get_Ok in Hv. subst v.
  rewrite results_branch in H. now injection H as <-.
Qed.

(** X20. Every result [parseCoveoResponse] returns has a title that is a
    non-empty string, a truthy id, summary and url, and a release date
    that is a string. Its id is the [raw.mh_id] of an item of
    [data.results], or a string of six to eight digits, or the word
    [unknown]. *)
Theorem coveo_results_shape (data : value)
    (results : list Search.SapNoteResult) (r : Search.SapNoteResult) :
  parseCoveoResponse rt data = Ok results ->
  r ∈ results ->
  exists item,
    item ∈ items_of data /\
    (exists t, Search.title r = VStr t /\ t <> "") /\
    truthy (Search.id r) = true /\
    truthy (Search.summary r) = true /\
    truthy (Search.url r) = true /\
    (exists d, Search.releaseDate r = VStr d) /\
    ((Search.id r = get_opt (get_opt item "raw") "mh_id")
     \/ (exists g, Search.id r = VStr g /\ note_number g)
     \/ Search.id r = VStr "unknown").
Proof.
  intros H Hr. apply parse_results in H. subst results.
  apply (proj1 (parse_items_spec _ _)) in Hr as [Hr|(item & Hi & P)].
  - now apply elem_of_nil in Hr.
  - exists item. split; [exact Hi|]. now apply parse_item_shape.
Qed.

(** X21. On a response that is neither undefined nor null,
    [parseCoveoResponse] does not throw. It returns at most as many
    results as [data.results] has items (none when that is not an
    array), and the result of every item whose turn of the loop does not
    throw is among them. *)
Theorem coveo_parse_drops_bad_items (data : value) :
  data <> VUndef -> data <> VNull ->
  exists results,
    parseCoveoResponse rt data = Ok results /\
    (length results <= length (items_of data))%nat /\
    (forall item r,
       item ∈ items_of data -> parse_item rt item = Ok r -> r ∈ results).
Proof.
  intros U N. exists (parse_items rt (items_of data) []).
  destruct (parse_items_spec (items_of data) []) as [S L].
  split; [|split; [exact L|]].
  - unfold parseCoveoResponse, items_of.
    destruct data as [| | | | | |props]; try congruence;
      cbn [get get_opt mbind outcome_bind bind]; apply results_branch.
  - intros item r Hi P. apply S. eauto.
Qed.

End CoveoResults.

Lemma coveo_results_shape_witness :
  exists r,
    Coveo.parseCoveoResponse Coveo.sample_runtime Coveo.sample_data = JS.Ok [r] /\
    Search.id r = JS.VStr "2744792" /\
    Search.releaseDate r = JS.VStr "2024-03-05" /\
    exists t, Search.title r = JS.VStr t /\ t <> "".
Proof.
  eexists. split; [vm_compute; reflexivity|].
  split; [reflexivity|]. split; [reflexivity|].
  destruct (coveo_results_shape Coveo.sample_runtime Coveo.sample_data _ _
              ltac:(vm_compute; reflexivity) ltac:(apply list_elem_of_here))
    as (_ & _ & T & _).
  exact T.
Defined.

Lemma coveo_parse_drops_bad_items_witness :
  exists results,
    Coveo.parseCoveoResponse Coveo.sample_runtime Coveo.sample_data
      = JS.Ok results /\
    (length results <= 2)%nat.
Proof.
  destruct (coveo_parse_drops_bad_items Coveo.sample_runtime Coveo.sample_data
              ltac:(discriminate) ltac:(discriminate)) as (results & P & L & _).
  exists results. split; [exact P|exact L].
Defined.

(** ** Health check and internal search *)

Section ClientFacts.
Import JS Client.

Variable env : Notes.Env.
Variable rt : Runtime.

(** What [makeRequest] lets through: the answer of the network, when its
    status is 2xx or 404. *)
Lemma makeRequest_Ok (endpoint token : string) (response : Notes.Response) :
  Notes.makeRequest env endpoint token = Ok response <->
  Notes.fetch env (Notes.baseUrl ++ endpoint) token = Ok response /\
  (Notes.ok response = true \/ Notes.status response = 404%nat).
Proof.
  unfold Notes.makeRequest.
  destruct (Notes.fetch env _ token) as [r|e]; cbn; [|split; [discriminate|]].
  - destruct (Notes.ok r) eqn:O; cbn.
    + split; [intros [= <-]|intros [[= <-] _]]; auto.
    + destruct (Nat.eqb_spec (Notes.status r) 404) as [E|E]; cbn.
      * split; [intros [= <-]|intros [[= <-] _]]; auto.
      * split.
        -- destruct (Notes.text r); discriminate.
        -- intros [[= <-] [H|H]]; congruence.
  - intros [H _]. discriminate.
Qed.

(** X22. [healthCheck] never throws, and it answers [true] exactly when
    the network answers the metadata request with a status from 200 to
    299. *)
Theorem health_check_true_iff (token : string) :
  exists healthy,
    healthCheck env token = Ok healthy /\
    (healthy = true <->
     exists response,
       Notes.fetch env
         (Notes.baseUrl ++ "/services/odata/svt/snogwscorr/$metadata") token
         = Ok response /\
       (200 <= Notes.status response <= 299)%nat).
Proof.
  unfold healthCheck.
  destruct (Notes.makeRequest env _ token) as [response|e] eqn:M; cbn.
  - exists (Notes.ok response). split; [reflexivity|].
    apply makeRequest_Ok in M as [F _]. rewrite F. unfold Notes.ok. split.
    + intros H. apply andb_prop in H as [H1 H2].
      apply Nat.leb_le in H1, H2. eauto.
    + intros (r & [= <-] & H1 & H2). apply andb_true_intro.
      split; now apply Nat.leb_le.
  - exists false. split; [reflexivity|]. split; [discriminate|].
    intros (r & F & H1 & H2). exfalso.
    assert (M' : Notes.makeRequest env
                   "/services/odata/svt/snogwscorr/$metadata" token = Ok r).
    { apply makeRequest_Ok. split; [exact F|]. left. unfold Notes.ok.
      apply andb_true_intro. split; now apply Nat.leb_le. }
    congruence.
Qed.

Lemma search_endpoints_found (searchEndpoints : list string)
    (query token : string) (maxResults : nat) :
  search_endpoints env rt searchEndpoints query token maxResults = [] \/
  exists endpoint response,
    endpoint ∈ searchEndpoints /\
    Notes.fetch env (Notes.baseUrl ++ endpoint) token = Ok response /\
    Notes.ok response = true /\
    parseInternalSearchResponse rt response query <> [] /\
    search_endpoints env rt searchEndpoints query token maxResults
    = take maxResults (parseInternalSearchResponse rt response query).
Proof.
  induction searchEndpoints as [|endpoint rest IH]; cbn; [now left|].
  assert (Rest : search_endpoints env rt rest query token maxResults = [] \/
    exists endpoint0 response,
      endpoint0 ∈ endpoint :: rest /\
      Notes.fetch env (Notes.baseUrl ++ endpoint0) token = Ok response /\
      Notes.ok response = true /\
      parseInternalSearchResponse rt response query <> [] /\
      search_endpoints env rt rest query token maxResults
      = take maxResults (parseInternalSearchResponse rt response query)).
  { destruct IH as [IH|(e0 & r0 & H & IH)]; [now left|right].
    exists e0, r0. split; [now apply list_elem_of_further|exact IH]. }
  destruct (Notes.makeRequest env endpoint token) as [response|e] eqn:M;
    [|exact Rest].
  destruct (Notes.ok response) eqn:O; [|exact Rest].
  destruct (parseInternalSearchResponse rt response query) as [|r rs] eqn:P;
    [exact Rest|]. cbn [length Nat.ltb Nat.leb].
  right. exists endpoint, response. apply makeRequest_Ok in M as [F _].
  rewrite P. repeat split; try assumption; try discriminate.
  apply list_elem_of_here.
Qed.

Lemma searchViaInternalAPI_Ok (query token : string) (maxResults : nat)
    (results : list Search.SapNoteResult) :
  searchViaInternalAPI env rt query token maxResults = Ok results ->
  (length results <= maxResults)%nat /\
  (results = [] \/
   exists endpoint response,
     Notes.fetch env (Notes.baseUrl ++ endpoint) token = Ok response /\
     Notes.ok response = true /\
     parseInternalSearchResponse rt response query <> [] /\
     results = take maxResults (parseInternalSearchResponse rt response query)).
Proof.
  unfold searchViaInternalAPI. cbv zeta. intros H.
  apply bind_Ok in H as (k & _ & H). apply bind_Ok in H as (s & _ & H).
  apply bind_Ok in H as (b & _ & H).
  match type of H with
  | context [search_endpoints env rt ?l _ _ _] =>
      destruct (search_endpoints_found l query token maxResults)
        as [E|(endpoint & response & _ & F & O & P & E)];
      rewrite E in H; unfold mret, outcome_ret in H; injection H as <-
  end.
  - split; [cbn; lia|now left].
  - split; [rewrite length_take; lia|]. right. eauto 8.
Qed.

(** X23. [searchViaInternalAPI] throws only what [encodeURIComponent]
    throws on the query or on the knowledge-search request made from it.
    What it returns has at most [maxResults] results, and is either
    empty or the first [maxResults] results parsed from an answer with a
    status from 200 to 299 whose parse was not empty. *)
Theorem internal_search_bounded (query token : string) (maxResults : nat) :
  (forall e,
     searchViaInternalAPI env rt query token maxResults = Throw e ->
     encodeURIComponent rt (knowledgeSearchRequest rt query) = Throw e \/
     encodeURIComponent rt query = Throw e) /\
  (forall results,
     searchViaInternalAPI env rt query token maxResults = Ok results ->
     (length results <= maxResults)%nat /\
     (results = [] \/
      exists endpoint response,
        Notes.fetch env (Notes.baseUrl ++ endpoint) token = Ok response /\
        Notes.ok response = true /\
        parseInternalSearchResponse rt response query <> [] /\
        results
        = take maxResults (parseInternalSearchResponse rt response query))).
Proof.
  split; [|apply searchViaInternalAPI_Ok].
  unfold searchViaInternalAPI. cbv zeta. intros e H.
  destruct (encodeURIComponent rt (knowledgeSearchRequest rt query))
    as [k|e1]; cbn [mbind outcome_bind bind] in H;
    [|left; now injection H as ->].
  destruct (encodeURIComponent rt query) as [s|e2];
    cbn [mbind outcome_bind bind] in H; [|right; now injection H as ->].
  discriminate H.
Qed.

(** X24. With this internal search behind its second fallback, a
    response [searchNotes] gives after the Coveo search has thrown has
    at least one result and at most [maxResults] of them, or exactly one
    when [maxResults] is 0; its [totalResults] is the number of its
    results. *)
Theorem fallback_results_bounded
    (coveo : string -> string -> nat -> outcome Search.SapNoteSearchResponse)
    (query token : string) (maxResults : nat) (errorMessage : string)
    (response : Search.SapNoteSearchResponse) :
  coveo query token maxResults = Throw errorMessage ->
  Search.searchNotes env (strategies env rt coveo) query token maxResults
    = Ok response ->
  (1 <= length (Search.results response) <= Nat.max 1 maxResults)%nat /\
  Search.totalResults response
    = Search.js_nat (length (Search.results response)).
Proof.
  intros C. unfold Search.searchNotes, catch. cbn [Search.coveo strategies].
  rewrite C.
  destruct (Notes.returned (Search.direct_note _ _ _)) as [r1|] eqn:D.
  - intros [= <-]. apply returned_Some in D. unfold Search.direct_note in D.
    destruct (Regex.test _ _); [|discriminate].
    apply bind_Ok in D as ([note|] & _ & D); [|discriminate].
    injection D as <-. cbn. split; [lia|reflexivity].
  - destruct (Notes.returned (Search.internal_search _ _ _ _)) as [r2|] eqn:I;
      [|discriminate].
    intros [= <-]. apply returned_Some in I.
    unfold Search.internal_search in I. cbn [Search.searchViaInternalAPI strategies] in I.
    apply bind_Ok in I as (fallbackResults & S & I).
    apply searchViaInternalAPI_Ok in S as [L _].
    destruct fallbackResults as [|r rs]; [discriminate|].
    injection I as <-. cbn in *. split; [lia|reflexivity].
Qed.

End ClientFacts.

Lemma internal_search_bounded_witness :
  exists results,
    Client.searchViaInternalAPI Client.env_200 Client.sample_runtime
      "memory leak" "JSESSIONID=abc" 2 = JS.Ok results /\
    (length results <= 2)%nat.
Proof.
  eexists. split; [vm_compute; reflexivity|].
  apply (internal_search_bounded Client.env_200 Client.sample_runtime
           "memory leak" "JSESSIONID=abc" 2).
  vm_compute. reflexivity.
Defined.

Lemma fallback_results_bounded_witness :
  exists response,
    Search.searchNotes Client.env_200
      (Client.strategies Client.env_200 Client.sample_runtime
         (Search.coveo Scenario.coveo_down))
      "memory leak" "JSESSIONID=abc" 2 = JS.Ok response /\
    (1 <= length (Search.results response) <= 2)%nat.
Proof.
  eexists. split; [vm_compute; reflexivity|].
  apply (fallback_results_bounded Client.env_200 Client.sample_runtime
           (Search.coveo Scenario.coveo_down)
           "memory leak" "JSESSIONID=abc" 2 "Coveo token extraction failed").
  - reflexivity.
  - vm_compute. reflexivity.
Defined.

(** ** The two tools *)

Section ToolResults.
Import JS Tools.

Variable env : Notes.Env.
Variable strategies : Search.Strategies.
Variable toText : value -> outcome string.

Lemma or_null_cases (v : value) : null_or_truthy (or_null v).
Proof.
  unfold null_or_truthy, or_null, or.
  destruct (truthy v) eqn:T; [now right|now left].
Qed.

(** X25. The handler of [sap_note_get] never throws. When the
    authenticator throws, its answer is the error whose text is
    "Failed to retrieve SAP Note ", the id, ": " and the authenticator's
    message. When the fetch returns null, it is the error whose text is
    "SAP Note ", the id and " not found or not accessible.". An answer
    carries structured content exactly when it is not an error; the
    content is then made from a record the fetch returned for that id:
    it has the record's id and title, its summary, content, language,
    release date and url are truthy, and its component, priority,
    category, score and vector are each [null] or truthy. *)
Theorem note_tool_result (ensureAuthenticated : outcome string)
    (id : string) :
  exists r,
    sap_note_get env toText ensureAuthenticated id = Ok r /\
    (isError r = true <-> structuredContent r = None) /\
    (forall e,
       ensureAuthenticated = Throw e ->
       r = {| text := "Failed to retrieve SAP Note " ++ id ++ ": " ++ e;
              structuredContent := None; isError := true |}) /\
    (forall token,
       ensureAuthenticated = Ok token ->
       Notes.getNote env id token = Ok None ->
       r = {| text := "SAP Note " ++ id ++ " not found or not accessible.";
              structuredContent := None; isError := true |}) /\
    (forall output,
       structuredContent r = Some output ->
       exists token note,
         ensureAuthenticated = Ok token /\
         Notes.getNote env id token = Ok (Some note) /\
         Tools.id output = Notes.id note /\
         Tools.title output = Notes.title note /\
         truthy (summary output) = true /\
         truthy (content output) = true /\
         truthy (language output) = true /\
         truthy (releaseDate output) = true /\
         truthy (url output) = true /\
         null_or_truthy (component output) /\
         null_or_truthy (priority output) /\
         null_or_truthy (category output) /\
         null_or_truthy (cvssScore output) /\
         null_or_truthy (cvssVector output)).
Proof.
  unfold sap_note_get.
  destruct ensureAuthenticated as [token|e]; cbn [mbind outcome_bind bind catch].
  - destruct (Notes.getNote env id token) as [[note|]|e] eqn:G;
      cbn [mbind outcome_bind bind catch].
    + match goal with
      | |- context [note_text toText ?o] =>
          set (output := o); destruct (note_text toText output) as [t|e]
      end; cbn [mbind outcome_bind bind catch];
        (eexists; split; [reflexivity|]); cbn.
      * split; [split; discriminate|].
        split; [discriminate|]. split; [congruence|].
        intros o [= <-]. exists token, note.
        destruct (getNote_filled env id token note G)
          as ((F1 & F2 & F3 & F4 & F5) & _).
        subst output. cbn.
        repeat split; try assumption; apply or_null_cases.
      * split; [split; reflexivity|].
        split; [discriminate|]. split; [congruence|]. discriminate.
    + eexists. split; [reflexivity|]. cbn.
      split; [split; reflexivity|]. split; [discriminate|].
      split; [reflexivity|]. discriminate.
    + destruct (getNote_total env id token) as [r R]. congruence.
  - eexists. split; [reflexivity|]. cbn.
    split; [split; reflexivity|]. split; [intros e' [= E]; now subst|].
    split; [discriminate|]. discriminate.
Qed.

(** X26. The handler of [sap_note_search] never throws. When the
    authenticator throws, or the search for ten results throws, its
    answer is the error whose text is "Search failed: " and the message
    thrown. An answer carries structured content exactly when it is not
    an error; the content then has the query and the count of the
    response of the search for ten results, and one result for each of
    its results, in order, with the same id, title, summary, release
    date, language and url, and a component that is [null] or truthy. *)
Theorem search_tool_result (ensureAuthenticated : outcome string)
    (q : string) :
  exists r,
    sap_note_search env strategies toText ensureAuthenticated q = Ok r /\
    (isError r = true <-> structuredContent r = None) /\
    (forall e,
       ensureAuthenticated = Throw e ->
       r = {| text := "Search failed: " ++ e;
              structuredContent := None; isError := true |}) /\
    (forall token e,
       ensureAuthenticated = Ok token ->
       Search.searchNotes env strategies q token 10 = Throw e ->
       r = {| text := "Search failed: " ++ e;
              structuredContent := None; isError := true |}) /\
    (forall output,
       structuredContent r = Some output ->
       exists token response,
         ensureAuthenticated = Ok token /\
         Search.searchNotes env strategies q token 10 = Ok response /\
         query output = Search.query response /\
         totalResults output = Search.totalResults response /\
         Forall2 (fun shown note =>
                    Search.id shown = Search.id note /\
                    Search.title shown = Search.title note /\
                    Search.summary shown = Search.summary note /\
                    Search.releaseDate shown = Search.releaseDate note /\
                    Search.language shown = Search.language note /\
                    Search.url shown = Search.url note /\
                    null_or_truthy (Search.component shown))
           (results output) (Search.results response)).
Proof.
  unfold sap_note_search.
  destruct ensureAuthenticated as [token|e]; cbn [mbind outcome_bind bind catch].
  - destruct (Search.searchNotes env strategies q token 10) as [response|e]
      eqn:S; cbn [mbind outcome_bind bind catch].
    + cbv zeta.
      match goal with
      | |- context [result_lines toText (results ?o)] => set (output := o)
      end.
      destruct (show toText (totalResults output)) as [shown|e];
        cbn [mbind outcome_bind bind catch];
        [destruct (result_lines toText (results output) _) as [t|e];
         cbn [mbind outcome_bind bind catch]|];
        (eexists; split; [reflexivity|]); cbn.
      * split; [split; discriminate|]. split; [discriminate|].
        split; [congruence|].
        intros o [= <-]. exists token, response.
        split; [reflexivity|]. split; [exact S|]. subst output. cbn.
        split; [reflexivity|]. split; [reflexivity|].
        induction (Search.results response) as [|note notes IH]; cbn;
          constructor; [|exact IH].
        cbn. repeat split. apply or_null_cases.
      * split; [split; reflexivity|]. split; [discriminate|].
        split; [congruence|]. discriminate.
      * split; [split; reflexivity|]. split; [discriminate|].
        split; [congruence|]. discriminate.
    + eexists. split; [reflexivity|]. cbn.
      split; [split; reflexivity|]. split; [discriminate|].
      split; [intros t e' [= <-] E; rewrite S in E; now injection E as <-|].
      discriminate.
  - eexists. split; [reflexivity|]. cbn.
    split; [split; reflexivity|]. split; [intros e' [= E]; now subst|].
    split; [discriminate|]. discriminate.
Qed.

End ToolResults.

(** ** The Coveo token and the browser kept for it *)

Section TokenSession.
Import JS Tokens.
Local Open Scope Z_scope.

Lemma fresh_well_formed : well_formed fresh.
Proof.
  split; [|split]; cbn; try discriminate; [|reflexivity].
  intros b Hb. now apply elem_of_nil in Hb.
Qed.

Lemma close_well_formed (st : Browsers) :
  well_formed st ->
  well_formed (close st) /\ browser (close st) = None /\
  browserContext (close st) = None /\ launches (close st) = launches st /\
  (forall b, browser st = Some b -> b ∈ closed (close st)) /\
  (forall b, b ∈ closed st -> b ∈ closed (close st)).
Proof.
  intros (W1 & W2 & W3). unfold close.
  destruct (browser st) as [b|] eqn:B; cbn.
  - destruct (W1 b eq_refl) as [L N].
    repeat split; try discriminate; try reflexivity.
    + intros c Hc. apply elem_of_app in Hc as [Hc|Hc]; [auto|].
      apply list_elem_of_singleton in Hc. now subst.
    + intros c [= <-]. apply elem_of_app. right. apply list_elem_of_here.
    + intros c Hc. apply elem_of_app. now left.
  - rewrite B. repeat split; auto; intros; try discriminate; congruence.
Qed.

(** The launch of a new browser in a well-formed state. *)
Lemma launched_well_formed (st : Browsers) :
  well_formed st ->
  well_formed (with_browser (launches st) st) /\
  well_formed (with_context (launches st) (with_browser (launches st) st)).
Proof.
  intros (W1 & W2 & W3).
  assert (N : launches st ∉ closed st).
  { intros H. apply W2 in H. lia. }
  split; (split; [|split]); cbn; try discriminate.
  - intros b [= <-]. split; [lia|exact N].
  - intros b Hb. apply W2 in Hb. lia.
  - intros b [= <-]. split; [lia|exact N].
  - intros b Hb. apply W2 in Hb. lia.
Qed.

Lemma lastUsed_well_formed (now : Z) (st : Browsers) :
  well_formed st -> well_formed (with_lastUsed now st).
Proof. intros W. exact W. Qed.

(** What one pass through the [try] block does to the browsers. *)
Lemma attempt_spec (now : Z) (a : Attempt) (st st1 : Browsers)
    (r : outcome value) :
  well_formed st ->
  attempt now a st = (st1, r) ->
  well_formed st1 /\
  (forall coveoToken,
     r = Ok coveoToken ->
     truthy coveoToken = true /\ redirectedToLogin a = false /\
     browserLastUsed st1 = now /\ exists b, browser st1 = Some b) /\
  (forall b,
     browser st = Some b ->
     BROWSER_IDLE_TIMEOUT < now - browserLastUsed st ->
     b ∈ closed st1 /\ browser st1 <> Some b) /\
  (forall b,
     browser st = Some b ->
     now - browserLastUsed st <= BROWSER_IDLE_TIMEOUT ->
     isConnected a = true ->
     browser st1 = Some b /\ launches st1 = launches st /\
     closed st1 = closed st).
Proof.
  intros W. unfold attempt.
  set (st0 := if Notes.present (browser st)
                 && (BROWSER_IDLE_TIMEOUT <? now - browserLastUsed st)
              then close st else st).
  assert (W0 : well_formed st0 /\ launches st0 = launches st /\
               (forall b, b ∈ closed st -> b ∈ closed st0) /\
               (forall b, browser st = Some b ->
                  BROWSER_IDLE_TIMEOUT < now - browserLastUsed st ->
                  b ∈ closed st0 /\ browser st0 = None) /\
               (forall b, browser st = Some b ->
                  now - browserLastUsed st <= BROWSER_IDLE_TIMEOUT ->
                  st0 = st)).
  { subst st0.
    destruct (close_well_formed st W) as (C1 & C2 & C3 & C4 & C5 & C6).
    destruct (browser st) as [b0|] eqn:B; cbn [Notes.present andb].
    - destruct (Z.ltb_spec BROWSER_IDLE_TIMEOUT (now - browserLastUsed st)).
      + split; [exact C1|]. split; [exact C4|]. split; [exact C6|]. split.
        * intros b Hb _. split; [now apply C5|exact C2].
        * intros b _ Hi. lia.
      + split; [exact W|]. split; [reflexivity|]. split; [auto|]. split.
        * intros b _ Hi. lia.
        * reflexivity.
    - split; [exact W|]. split; [reflexivity|]. split; [auto|].
      split; intros b Hb; discriminate. }
  clearbody st0. destruct W0 as (W0 & L0 & K0 & I0 & R0).
  destruct (launched_well_formed st0 W0) as [WB WC].
  assert (Fresh : forall b, b ∈ closed st0 -> b <> launches st0).
  { intros b Hb. destruct W0 as (_ & W2 & _). apply W2 in Hb. lia. }
  intros H.
  assert (Goal1 : forall st2 ready,
    (if negb (Notes.present (browser st0)) || negb (isConnected a)
     then match launch a with
          | Throw e => (st0, Throw e)
          | Ok _ =>
            match newContext a with
            | Throw e => (with_browser (launches st0) st0, Throw e)
            | Ok _ =>
              match addCookies a with
              | Throw e =>
                (with_context (launches st0)
                   (with_browser (launches st0) st0), Throw e)
              | Ok _ =>
                (with_context (launches st0)
                   (with_browser (launches st0) st0), Ok tt)
              end
            end
          end
     else (st0, Ok tt)) = (st2, ready) ->
    well_formed st2 /\ closed st2 = closed st0 /\
    (ready = Ok tt -> exists b, browser st2 = Some b) /\
    (browser st0 = None -> browser st2 = None \/ browser st2 = Some (launches st0)) /\
    (forall b, browser st0 = Some b -> isConnected a = true -> st2 = st0)).
  { intros st2 ready E.
    assert (Parts : forall st2 ready,
      (st2 = st0 \/ st2 = with_browser (launches st0) st0
       \/ st2 = with_context (launches st0) (with_browser (launches st0) st0)) ->
      (ready = Ok tt -> exists b, browser st2 = Some b) ->
      (forall b, browser st0 = Some b -> isConnected a = true -> st2 = st0) ->
      well_formed st2 /\ closed st2 = closed st0 /\
      (ready = Ok tt -> exists b, browser st2 = Some b) /\
      (browser st0 = None ->
       browser st2 = None \/ browser st2 = Some (launches st0)) /\
      (forall b, browser st0 = Some b -> isConnected a = true -> st2 = st0)).
    { intros s2 rd [-> |[-> | ->]] P1 P2.
      - split; [exact W0|]. split; [reflexivity|]. split; [exact P1|].
        split; [now left|exact P2].
      - split; [exact WB|]. split; [reflexivity|]. split; [exact P1|].
        split; [now right|exact P2].
      - split; [exact WC|]. split; [reflexivity|]. split; [exact P1|].
        split; [now right|exact P2]. }
    destruct (browser st0) as [b0|] eqn:B0; cbn [Notes.present negb orb] in E.
    - destruct (isConnected a) eqn:Cn; cbn [negb] in E.
      + injection E as <- <-. apply Parts; [now left|eauto|reflexivity].
      + destruct (launch a) as [[]|e]; [|injection E as <- <-].
        * destruct (newContext a) as [[]|e]; [|injection E as <- <-].
          -- destruct (addCookies a) as [[]|e]; injection E as <- <-;
               (apply Parts; [now right; right|cbn; eauto|discriminate]).
          -- apply Parts; [now right; left|discriminate|discriminate].
        * apply Parts; [now left|discriminate|discriminate].
    - destruct (launch a) as [[]|e]; [|injection E as <- <-].
      + destruct (newContext a) as [[]|e]; [|injection E as <- <-].
        * destruct (addCookies a) as [[]|e]; injection E as <- <-;
            (apply Parts; [now right; right|cbn; eauto|discriminate]).
        * apply Parts; [now right; left|discriminate|discriminate].
      + apply Parts; [now left|discriminate|discriminate]. }
  match type of H with
  | (let '(_, _) := ?x in _) = _ => destruct x as [st2 ready] eqn:E
  end.
  destruct (Goal1 st2 ready eq_refl) as (W2 & K2 & Rdy & N2 & Same).
  clear Goal1 E.
  assert (Idle : forall b, browser st = Some b ->
            BROWSER_IDLE_TIMEOUT < now - browserLastUsed st ->
            b ∈ closed st2 /\ browser st2 <> Some b).
  { intros b Hb Hi. destruct (I0 b Hb Hi) as [Hc Hn].
    split; [now rewrite K2|].
    destruct (N2 Hn) as [-> | ->]; [discriminate|].
    intros [= <-]. now apply (Fresh _ Hc). }
  assert (Reuse : forall b, browser st = Some b ->
            now - browserLastUsed st <= BROWSER_IDLE_TIMEOUT ->
            isConnected a = true -> st2 = st).
  { intros b Hb Hi Hc. rewrite <- (R0 b Hb Hi).
    apply (Same b); [now rewrite (R0 b Hb Hi)|exact Hc]. }
  assert (Done : forall st3 r3,
            (st3 = st2 \/ st3 = with_lastUsed now st2) ->
            (forall t, r3 = Ok t ->
               truthy t = true /\ redirectedToLogin a = false /\
               st3 = with_lastUsed now st2 /\ ready = Ok tt) ->
            (st3, r3) = (st1, r) ->
            well_formed st1 /\
            (forall coveoToken,
               r = Ok coveoToken ->
               truthy coveoToken = true /\ redirectedToLogin a = false /\
               browserLastUsed st1 = now /\ exists b, browser st1 = Some b) /\
            (forall b,
               browser st = Some b ->
               BROWSER_IDLE_TIMEOUT < now - browserLastUsed st ->
               b ∈ closed st1 /\ browser st1 <> Some b) /\
            (forall b,
               browser st = Some b ->
               now - browserLastUsed st <= BROWSER_IDLE_TIMEOUT ->
               isConnected a = true ->
               browser st1 = Some b /\ launches st1 = launches st /\
               closed st1 = closed st)).
  { intros st3 r3 Hst Hok [= <- <-].
    split; [destruct Hst as [-> | ->]; exact W2|].
    split.
    - intros t Ht. destruct (Hok t Ht) as (T & Rd & -> & Rk).
      repeat split; try assumption. cbn. now apply Rdy.
    - split.
      + intros b Hb Hi. destruct (Idle b Hb Hi) as [I1 I2].
        destruct Hst as [-> | ->]; cbn; auto.
      + intros b Hb Hi Hc. rewrite (Reuse b Hb Hi Hc) in Hst.
        destruct Hst as [-> | ->]; cbn; auto. }
  destruct ready as [[]|e].
  - cbn [browserContext with_lastUsed] in H.
    destruct (browserContext st2);
      [|apply (Done _ _ (or_intror eq_refl)) in H; [exact H|discriminate]].
    destruct (newPage a) as [[]|e];
      [|apply (Done _ _ (or_intror eq_refl)) in H; [exact H|discriminate]].
    destruct (redirectedToLogin a) eqn:Rd;
      [apply (Done _ _ (or_intror eq_refl)) in H; [exact H|discriminate]|].
    destruct (extract a) as [coveoToken|e];
      [|apply (Done _ _ (or_intror eq_refl)) in H; [exact H|discriminate]].
    destruct (truthy coveoToken) eqn:T;
      apply (Done _ _ (or_intror eq_refl)) in H; try exact H;
      try discriminate.
    intros t [= <-]. auto.
  - apply (Done _ _ (or_introl eq_refl)) in H; [exact H|discriminate].
Qed.

Lemma playwright_outcome (now : Z) (a : Attempt) (st st' : Browsers)
    (r : outcome value) :
  well_formed st ->
  getCoveoTokenWithPlaywright now a st = (st', r) ->
  well_formed st' /\
  (forall coveoToken,
     r = Ok coveoToken ->
     truthy coveoToken = true /\ redirectedToLogin a = false /\
     browserLastUsed st' = now /\ exists b, browser st' = Some b) /\
  (forall e,
     r = Throw e ->
     (e = "SESSION_EXPIRED" /\ browser st' = None /\ browserContext st' = None)
     \/ (exists cause,
           e = "Failed to get Coveo bearer token: " ++ cause /\
           Str.includes cause "Session expired" = false)).
Proof.
  intros W. unfold getCoveoTokenWithPlaywright.
  destruct (attempt now a st) as [st1 [coveoToken|message]] eqn:A;
    destruct (attempt_spec now a st _ _ W A) as (W1 & Tk & _).
  - intros [= <- <-]. split; [exact W1|]. split; [|discriminate].
    intros t [= <-]. now apply Tk.
  - destruct (Str.includes message "Session expired") eqn:S;
      intros [= <- <-].
    + destruct (close_well_formed st1 W1) as (C1 & C2 & C3 & _).
      split; [exact C1|]. split; [discriminate|].
      intros e [= <-]. left. auto.
    + split; [exact W1|]. split; [discriminate|].
      intros e [= <-]. right. eauto.
Qed.


(** X28. In a state of that kind ([well_formed]) that holds a browser:
    when the browser was last used more than five minutes before the
    call, [getCoveoTokenWithPlaywright] closes it
    and it is not the browser held afterwards. When it was last used
    five minutes before the call or less and is still connected, the
    call launches no browser, and unless it throws [SESSION_EXPIRED] it
    keeps the browser and closes none. *)
Theorem idle_browser_is_replaced (now : Z) (a : Attempt) (st st' : Browsers)
    (r : outcome value) (b : nat) :
  well_formed st ->
  browser st = Some b ->
  getCoveoTokenWithPlaywright now a st = (st', r) ->
  (5 * 60 * 1000 < now - browserLastUsed st ->
   b ∈ closed st' /\ browser st' <> Some b) /\
  (now - browserLastUsed st <= 5 * 60 * 1000 ->
   isConnected a = true ->
   launches st' = launches st /\
   (r <> Throw "SESSION_EXPIRED" ->
    browser st' = Some b /\ closed st' = closed st)).
Proof.
  intros W B. unfold getCoveoTokenWithPlaywright.
  destruct (attempt now a st) as [st1 r1] eqn:A.
  destruct (attempt_spec now a st _ _ W A) as (W1 & _ & Idle & Reuse).
  destruct (close_well_formed st1 W1) as (_ & C2 & _ & C4 & _ & C6).
  intros H. split.
  - intros Hi. destruct (Idle b B Hi) as [I1 I2].
    destruct r1 as [t|message]; [injection H as <- <-; auto|].
    destruct (Str.includes message "Session expired"); injection H as <- <-;
      [|auto].
    split; [now apply C6|]. rewrite C2. discriminate.
  - intros Hi Hc. destruct (Reuse b B Hi Hc) as (R1 & R2 & R3).
    destruct r1 as [t|message]; [injection H as <- <-; auto|].
    destruct (Str.includes message "Session expired"); injection H as <- <-.
    + split; [congruence|]. intros N. now destruct N.
    + auto.
Qed.

Lemma direct_token_truthy (d : Direct)
    (getCachedCookies : outcome (list Auth.Cookie)) (sapToken : string)
    (token : value) :
  getCoveoTokenDirect d getCachedCookies sapToken = Ok token ->
  truthy token = true.
Proof.
  unfold getCoveoTokenDirect. cbv zeta. intros H.
  apply bind_Ok in H as (appResponse & _ & H).
  destruct (negb (d_ok appResponse)); [discriminate|].
  apply bind_Ok in H as (appData & _ & H).
  apply bind_Ok in H as (tokenResponse & _ & H).
  destruct (negb (d_ok tokenResponse)); [discriminate|].
  apply bind_Ok in H as (tokenData & _ & H).
  apply bind_Ok in H as (token0 & _ & H).
  destruct (truthy token0) eqn:T; cbn in H; [|discriminate].
  unfold mret, outcome_ret in H. now injection H as <-.
Qed.

(** X29. [getCoveoToken], in a state of that kind ([well_formed]): when
    the direct requests
    give a token, it returns that token and leaves the browsers as they
    are; when they throw, it answers what the browser way answers. A
    token it returns is truthy. An error it throws is thrown after the
    direct way has thrown, and is [SESSION_EXPIRED] or starts with
    "Failed to get Coveo bearer token: ". *)
Theorem coveo_token_outcome (d : Direct)
    (getCachedCookies : outcome (list Auth.Cookie)) (now : Z) (a : Attempt)
    (sapToken : string) (st st' : Browsers) (r : outcome value) :
  well_formed st ->
  getCoveoToken d getCachedCookies now a sapToken st = (st', r) ->
  (forall token,
     getCoveoTokenDirect d getCachedCookies sapToken = Ok token ->
     r = Ok token /\ st' = st) /\
  ((exists e, getCoveoTokenDirect d getCachedCookies sapToken = Throw e) ->
   getCoveoTokenWithPlaywright now a st = (st', r)) /\
  (forall token, r = Ok token -> truthy token = true) /\
  (forall e,
     r = Throw e ->
     (exists e0, getCoveoTokenDirect d getCachedCookies sapToken = Throw e0) /\
     (e = "SESSION_EXPIRED" \/
      exists cause, e = "Failed to get Coveo bearer token: " ++ cause)).
Proof.
  intros W. unfold getCoveoToken.
  destruct (getCoveoTokenDirect d getCachedCookies sapToken) as [token|e0] eqn:D.
  - intros [= <- <-]. split; [intros t [= <-]; auto|].
    split; [intros [e E]; discriminate|].
    split; [|discriminate].
    intros t [= <-]. now apply (direct_token_truthy _ _ _ _ D).
  - intros H. destruct (playwright_outcome now a st st' r W H)
      as (_ & Tk & Er).
    split; [discriminate|]. split; [intros _; exact H|].
    split; [intros t Ht; now apply Tk|].
    intros e He. split; [eauto|].
    destruct (Er e He) as [(-> & _)|(cause & -> & _)]; [now left|right; eauto].
Qed.

End TokenSession.


Lemma idle_browser_is_replaced_witness :
  exists st1 st2 r,
    Tokens.getCoveoTokenWithPlaywright 1000 Tokens.good_visit Tokens.fresh
      = (st1, JS.Ok (JS.VStr "xx-coveo-token")) /\
    Tokens.browser st1 = Some 0%nat /\
    Tokens.getCoveoTokenWithPlaywright 400000 Tokens.good_visit st1 = (st2, r) /\
    0%nat ∈ Tokens.closed st2 /\ Tokens.browser st2 <> Some 0%nat.
Proof.
  pose (st1 := fst (Tokens.getCoveoTokenWithPlaywright 1000 Tokens.good_visit
                      Tokens.fresh)).
  pose (o := Tokens.getCoveoTokenWithPlaywright 400000 Tokens.good_visit st1).
  exists st1, (fst o), (snd o).
  split; [vm_compute; reflexivity|].
  split; [reflexivity|]. split; [apply surjective_pairing|].
  refine (proj1 (idle_browser_is_replaced 400000 Tokens.good_visit st1
                   (fst o) (snd o) 0%nat _ eq_refl (surjective_pairing o)) _).
  - split; [|split]; cbn; try discriminate.
    + intros b [= <-]. split; [lia|]. apply not_elem_of_nil.
    + intros b Hb. now apply elem_of_nil in Hb.
  - cbn. lia.
Defined.

Lemma coveo_token_outcome_witness :
  exists st',
    Tokens.getCoveoToken Tokens.no_direct (JS.Ok []) 1000 Tokens.good_visit
      "JSESSIONID=abc" Tokens.fresh
      = (st', JS.Ok (JS.VStr "xx-coveo-token")) /\
    JS.truthy (JS.VStr "xx-coveo-token") = true.
Proof.
  eexists. split; [vm_compute; reflexivity|].
  destruct (coveo_token_outcome Tokens.no_direct (JS.Ok []) 1000
              Tokens.good_visit "JSESSIONID=abc" Tokens.fresh _ _
              fresh_well_formed ltac:(vm_compute; reflexivity))
    as (_ & _ & T & _).
  now apply T.
Defined.
